(** * Channel credentials

    A shallow embedding of the SSL channel and server credentials of the
    core (ssl_credentials.c) and of their Node binding
    (src/node/ext/channel_credentials.cc).

    The C heap is a finite map from locations to typed blocks; a nullable
    pointer is an [option loc].  Every function that touches the heap, or
    that can stop in [GPR_ASSERT] or read outside a block, runs in the
    monad [M]: a state transformer whose result [None] stands for a run
    that does not return (abort, or behaviour the language leaves
    undefined). *)

From Stdlib Require Import Strings.Byte ZArith.
From stdpp Require Import gmap strings list.

Local Open Scope Z_scope.

(** ** Locations, JavaScript values *)

Abbreviation loc := positive (only parsing).
Abbreviation ptr := (option positive) (only parsing).

(** A JavaScript function is known by its identity; what it does when it
    is called is given by the embedder (see [Section Bridge]). *)
Abbreviation js_function := positive (only parsing).

(** A Buffer is known by what [node::Buffer::Data] gives for it: the
    pointer to its bytes, which is null for an empty Buffer. *)
Inductive JsClass :=
| PlainObject
| BufferObject (data : ptr)
| FunctionObject (f : js_function)
| ExternalObject (value : ptr)
| ChannelCredentialsObject (wrapped_credentials : ptr)
| CallCredentialsObject (wrapped_call_credentials : ptr).

(** A property name as [GetOwnPropertyNames] lists it: a string, or an
    array index (a number). *)
Inductive JsKey :=
| KeyString (s : string)
| KeyIndex (n : N).

(** What sits under a property name: a data property holds its value; an
    accessor property has a getter, which V8 runs when the property is
    read.  The getter is known by how the one read of the scan ends: it
    returns a value, or it throws ([None]). *)
Inductive JsProperty (V : Type) :=
| DataProperty (value : V)
| AccessorProperty (getter_returns : option V).

Arguments DataProperty {V} value.
Arguments AccessorProperty {V} getter_returns.

(** Objects carry their own enumerable properties, in the order in which
    [GetOwnPropertyNames] lists them. *)
#[warnings="-register-all"]
Inductive JsValue :=
| JsUndefined
| JsNull
| JsBoolean (b : bool)
| JsNumber (n : Z)
| JsString (s : string)
| JsObject (cls : JsClass) (props : list (JsKey * JsProperty JsValue)).

Inductive JsError :=
| TypeError (msg : string)
| Error (msg : string).

Inductive Completion :=
| Returned (v : JsValue)
| Thrown (e : JsError).

(** ** Structures of the core *)

Inductive verify_peer_callback_fn :=
| node_verify_peer_callback_wrapper
| foreign_verify_peer_callback (id : positive).

Inductive verify_peer_destruct_fn :=
| node_verify_peer_callback_destruct
| foreign_verify_peer_destruct (id : positive).

(** [verify_peer_options] is declared in grpc_security.h; the field order
    is the one of the initialiser [{NULL, NULL, NULL, false}]. *)
Record verify_peer_options := {
  verify_peer_callback : option verify_peer_callback_fn;
  verify_peer_callback_userdata : ptr;
  verify_peer_destruct : option verify_peer_destruct_fn;
  skip_hostname_verification : bool
}.

Record grpc_ssl_pem_key_cert_pair := {
  private_key : ptr;
  cert_chain : ptr
}.

Record tsi_ssl_pem_key_cert_pair := {
  tsi_private_key : ptr;
  tsi_cert_chain : ptr
}.

Record grpc_ssl_config := {
  pem_root_certs : ptr;
  pem_key_cert_pair : ptr;
  verify_options : verify_peer_options
}.

Inductive credentials_type :=
| GRPC_CHANNEL_CREDENTIALS_TYPE_UNSET
| GRPC_CHANNEL_CREDENTIALS_TYPE_SSL.

Inductive channel_credentials_vtable :=
| no_vtable
| ssl_vtable
| composite_vtable.

Record grpc_channel_credentials := {
  type : credentials_type;
  vtable : channel_credentials_vtable;
  refcount : Z
}.

Record grpc_ssl_credentials := {
  base : grpc_channel_credentials;
  config : grpc_ssl_config
}.

Inductive grpc_ssl_client_certificate_request_type :=
| GRPC_SSL_DONT_REQUEST_CLIENT_CERTIFICATE
| GRPC_SSL_REQUEST_CLIENT_CERTIFICATE_BUT_DONT_VERIFY
| GRPC_SSL_REQUEST_CLIENT_CERTIFICATE_AND_VERIFY
| GRPC_SSL_REQUEST_AND_REQUIRE_CLIENT_CERTIFICATE_BUT_DONT_VERIFY
| GRPC_SSL_REQUEST_AND_REQUIRE_CLIENT_CERTIFICATE_AND_VERIFY.

Inductive server_credentials_vtable :=
| no_server_vtable
| ssl_server_vtable.

Record grpc_server_credentials := {
  server_type : credentials_type;
  server_vtable : server_credentials_vtable;
  server_refcount : Z
}.

Record grpc_ssl_server_config := {
  pem_key_cert_pairs : ptr;
  num_key_cert_pairs : nat;
  server_pem_root_certs : ptr;
  client_certificate_request : grpc_ssl_client_certificate_request_type
}.

Record grpc_ssl_server_credentials := {
  server_base : grpc_server_credentials;
  server_config : grpc_ssl_server_config
}.

(** ** The heap *)

Inductive block :=
| BBytes (bs : list byte)
| BTsiPairs (kps : list tsi_ssl_pem_key_cert_pair)
| BSslCredentials (c : grpc_ssl_credentials)
| BSslServerCredentials (c : grpc_ssl_server_credentials)
| BCompositeCredentials (b : grpc_channel_credentials) (inner_creds : ptr)
    (call_creds : ptr)
| BCallCredentials (call_refcount : Z)
| BCallbackMd (callback : ptr)
| BNanCallback (f : js_function).

(** What the outside world can observe besides the heap: the calls of
    JavaScript functions that the binding makes through [Nan::Callback], and
    the calls through the teardown pointer of the verification options.  A
    getter that V8 runs while a property is read is known by its outcome
    only (see [JsProperty]) and leaves no event. *)
Inductive event :=
| EvJsCall (f : js_function) (argv : list JsValue)
| EvVerifyPeerDestruct (fn : verify_peer_destruct_fn) (userdata : ptr).

Record State := {
  heap : gmap positive block;
  trace : list event
}.

Definition with_heap (h : gmap positive block) (st : State) : State :=
  {| heap := h; trace := trace st |}.

Definition M (A : Type) : Type := State -> option (A * State).

Definition ret {A} (a : A) : M A := fun st => Some (a, st).

Definition bind {A B} (m : M A) (k : A -> M B) : M B :=
  fun st => match m st with
            | Some (a, st') => k a st'
            | None => None
            end.

Definition abort {A} : M A := fun _ => None.

Notation "x <- c1 ;; c2" := (bind c1 (fun x => c2))
  (at level 100, c1 at next level, right associativity).
Notation "c1 ;;; c2" := (bind c1 (fun _ => c2))
  (at level 100, right associativity).

Definition GPR_ASSERT (b : bool) : M unit :=
  if b then ret tt else abort.

Definition log (e : event) : M unit :=
  fun st => Some (tt, {| heap := heap st; trace := trace st ++ [e] |}).

(** Modelled from the spec: [gpr_zalloc] and [gpr_malloc] belong to the
    support library, [new] to the C++ runtime.  An allocation "allocates
    owned" storage: it returns a location that is not live and makes it
    live; the caller says what the block holds. *)
Definition alloc (b : block) : M positive :=
  fun st => let l := fresh (dom (heap st)) in
            Some (l, with_heap (<[l := b]> (heap st)) st).

Definition load (l : loc) : M block :=
  fun st => match heap st !! l with
            | Some b => Some (b, st)
            | None => None
            end.

Definition store (l : loc) (b : block) : M unit :=
  fun st => match heap st !! l with
            | Some _ => Some (tt, with_heap (<[l := b]> (heap st)) st)
            | None => None
            end.

(** Modelled from the spec: [gpr_free] belongs to the support library,
    which is not among the sources.  Owned buffers "are freed", and the
    core "never double-frees": freeing [NULL] does nothing, freeing a live
    block removes it, freeing anything else does not return. *)
Definition gpr_free (p : ptr) : M unit :=
  match p with
  | None => ret tt
  | Some l =>
      fun st => match heap st !! l with
                | Some _ => Some (tt, with_heap (delete l (heap st)) st)
                | None => None
                end
  end.

(** The bytes of a block up to its first NUL; [None] when the block holds
    no NUL, so that [strlen] would run past its end. *)
Fixpoint c_str (bs : list byte) : option (list byte) :=
  match bs with
  | [] => None
  | b :: rest =>
      if Byte.eqb b x00 then Some []
      else match c_str rest with
           | Some s => Some (b :: s)
           | None => None
           end
  end.

(** Modelled from the spec: [gpr_strdup] belongs to the support library,
    which is not among the sources.  "Byte buffers are copied, never
    aliased": the result is a fresh block holding the C string found at
    [src], terminator included; [NULL] for [NULL]. *)
Definition gpr_strdup (src : ptr) : M ptr :=
  match src with
  | None => ret None
  | Some l =>
      blk <- load l ;;
      match blk with
      | BBytes bs =>
          match c_str bs with
          | Some s => d <- alloc (BBytes (s ++ [x00])) ;; ret (Some d)
          | None => abort
          end
      | _ => abort
      end
  end.

Definition is_null (p : ptr) : bool :=
  match p with None => true | Some _ => false end.

(** ** src/node/ext/channel_credentials.cc: teardown of the bridge *)

(** [delete] of a C++ object. *)
Definition delete_object (p : ptr) : M unit := gpr_free p.

Definition verify_peer_callback_destruct (userdata : ptr) : M unit :=
  match userdata with
  | None => abort
  | Some l =>
      blk <- load l ;;
      match blk with
      | BCallbackMd callback =>
          delete_object callback ;;;
          delete_object (Some l)
      | _ => abort
      end
  end.

(** A call through [verify_peer_destruct].  Only the teardown of the Node
    binding is known here; any other function is recorded in the trace
    and leaves the heap alone. *)
Definition call_verify_peer_destruct (fn : verify_peer_destruct_fn)
    (userdata : ptr) : M unit :=
  log (EvVerifyPeerDestruct fn userdata) ;;;
  match fn with
  | node_verify_peer_callback_destruct => verify_peer_callback_destruct userdata
  | foreign_verify_peer_destruct _ => ret tt
  end.

(** ** ssl_credentials.c: SSL channel credentials *)

Fixpoint key_cert_pairs_free (kps : list tsi_ssl_pem_key_cert_pair)
    (i : nat) (count : nat) : M unit :=
  match count with
  | O => ret tt
  | S count' =>
      match kps !! i with
      | Some kp =>
          gpr_free (tsi_private_key kp) ;;;
          gpr_free (tsi_cert_chain kp) ;;;
          key_cert_pairs_free kps (S i) count'
      | None => abort
      end
  end.

Definition grpc_tsi_ssl_pem_key_cert_pairs_destroy (kp : ptr)
    (num_key_cert_pairs : nat) : M unit :=
  match kp with
  | None => ret tt
  | Some l =>
      blk <- load l ;;
      match blk with
      | BTsiPairs kps =>
          key_cert_pairs_free kps 0%nat num_key_cert_pairs ;;;
          gpr_free (Some l)
      | _ => abort
      end
  end.

Definition ssl_destruct (creds : loc) : M unit :=
  blk <- load creds ;;
  match blk with
  | BSslCredentials c =>
      gpr_free (pem_root_certs (config c)) ;;;
      grpc_tsi_ssl_pem_key_cert_pairs_destroy (pem_key_cert_pair (config c)) 1 ;;;
      match verify_peer_destruct (verify_options (config c)) with
      | Some fn =>
          call_verify_peer_destruct fn
            (verify_peer_callback_userdata (verify_options (config c)))
      | None => ret tt
      end
  | _ => abort
  end.

(** The [destruct] entry of a vtable.  The hook of composite credentials
    lives in composite_credentials.c, which is not among the sources. *)
Definition vtable_destruct (v : channel_credentials_vtable) (creds : loc)
    : M unit :=
  match v with
  | ssl_vtable => ssl_destruct creds
  | _ => abort
  end.

Definition zero_verify_peer_options : verify_peer_options :=
  {| verify_peer_callback := None;
     verify_peer_callback_userdata := None;
     verify_peer_destruct := None;
     skip_hostname_verification := false |}.

Definition zero_ssl_config : grpc_ssl_config :=
  {| pem_root_certs := None;
     pem_key_cert_pair := None;
     verify_options := zero_verify_peer_options |}.

Definition zero_tsi_pair : tsi_ssl_pem_key_cert_pair :=
  {| tsi_private_key := None; tsi_cert_chain := None |}.

Definition zero_ssl_credentials : grpc_ssl_credentials :=
  {| base := {| type := GRPC_CHANNEL_CREDENTIALS_TYPE_UNSET;
                vtable := no_vtable;
                refcount := 0 |};
     config := zero_ssl_config |}.

Definition ssl_build_config (root_certs : ptr)
    (key_cert_pair : option grpc_ssl_pem_key_cert_pair)
    (options : option verify_peer_options)
    (cfg : grpc_ssl_config) : M grpc_ssl_config :=
  cfg1 <- match root_certs with
          | Some _ =>
              r <- gpr_strdup root_certs ;;
              ret {| pem_root_certs := r;
                     pem_key_cert_pair := pem_key_cert_pair cfg;
                     verify_options := verify_options cfg |}
          | None => ret cfg
          end ;;
  cfg2 <- match key_cert_pair with
          | Some kp =>
              GPR_ASSERT (negb (is_null (private_key kp))) ;;;
              GPR_ASSERT (negb (is_null (cert_chain kp))) ;;;
              pair <- alloc (BTsiPairs [zero_tsi_pair]) ;;
              cc <- gpr_strdup (cert_chain kp) ;;
              store pair (BTsiPairs [ {| tsi_private_key := None;
                                         tsi_cert_chain := cc |} ]) ;;;
              pk <- gpr_strdup (private_key kp) ;;
              store pair (BTsiPairs [ {| tsi_private_key := pk;
                                         tsi_cert_chain := cc |} ]) ;;;
              ret {| pem_root_certs := pem_root_certs cfg1;
                     pem_key_cert_pair := Some pair;
                     verify_options := verify_options cfg1 |}
          | None => ret cfg1
          end ;;
  match options with
  | Some vo =>
      ret {| pem_root_certs := pem_root_certs cfg2;
             pem_key_cert_pair := pem_key_cert_pair cfg2;
             verify_options := vo |}
  | None => ret cfg2
  end.

Definition grpc_ssl_credentials_create (root_certs : ptr)
    (key_cert_pair : option grpc_ssl_pem_key_cert_pair)
    (options : option verify_peer_options) (reserved : ptr) : M ptr :=
  c <- alloc (BSslCredentials zero_ssl_credentials) ;;
  GPR_ASSERT (is_null reserved) ;;;
  cfg <- ssl_build_config root_certs key_cert_pair options zero_ssl_config ;;
  store c (BSslCredentials
             {| base := {| type := GRPC_CHANNEL_CREDENTIALS_TYPE_SSL;
                           vtable := ssl_vtable;
                           refcount := 1 |};
                config := cfg |}) ;;;
  ret (Some c).

(** ** ssl_credentials.c: the security-connector hook *)

Inductive grpc_security_status :=
| GRPC_SECURITY_OK
| GRPC_SECURITY_ERROR.

(** A channel argument: the [type] tag and the [value] union of the C
    structure are one tagged value. *)
Inductive grpc_arg_value :=
| GRPC_ARG_STRING (s : string)
| GRPC_ARG_INTEGER (i : Z)
| GRPC_ARG_POINTER (p : ptr).

Record grpc_arg := {
  key : string;
  value : grpc_arg_value
}.

(** [strcmp (a, b) == 0] on C strings. *)
Definition strcmp_eq (a b : string) : bool := String.eqb a b.

Definition grpc_channel_arg_string_create (name val : string) : grpc_arg :=
  {| key := name; value := GRPC_ARG_STRING val |}.

(** Modelled from the spec: [grpc_channel_args_copy_and_add] lives in
    channel_args.c, which is not among the sources.  The new set holds the
    arguments of [src] (none when [src] is [NULL]) followed by the added
    ones: the scheme marker is "appended to (not replacing) the existing
    argument set". *)
Definition grpc_channel_args_copy_and_add (src : option (list grpc_arg))
    (to_add : list grpc_arg) : list grpc_arg :=
  match src with
  | Some args => args ++ to_add
  | None => to_add
  end.

Section Connector.

(** The names of the two channel arguments are macros of headers that
    are not among the sources. *)
Variable GRPC_SSL_TARGET_NAME_OVERRIDE_ARG : string.
Variable GRPC_ARG_HTTP2_SCHEME : string.

Variable connector : Type.

(** [grpc_ssl_channel_security_connector_create], the collaborator that
    builds the connector: it receives the credential, the call
    credentials, the configuration, the target and the overridden target
    name, and answers with a status and with what it wrote to [*sc]. *)
Variable grpc_ssl_channel_security_connector_create :
  grpc_ssl_credentials -> ptr -> grpc_ssl_config -> string ->
  option string -> grpc_security_status * option connector.

(** The [for] loop of the hook, from index [i] on: [args] is the rest of
    the array. *)
Fixpoint scan_target_name_override (args : list grpc_arg) : option string :=
  match args with
  | [] => None
  | arg :: rest =>
      if strcmp_eq (key arg) GRPC_SSL_TARGET_NAME_OVERRIDE_ARG then
        match value arg with
        | GRPC_ARG_STRING s => Some s
        | _ => scan_target_name_override rest
        end
      else scan_target_name_override rest
  end.

(** The result is the returned status, the connector left in [*sc] and
    the argument set left in [*new_args] ([None]: nothing was written). *)
Definition ssl_create_security_connector (c : grpc_ssl_credentials)
    (call_creds : ptr) (target : string) (args : option (list grpc_arg))
    : grpc_security_status * option connector * option (list grpc_arg) :=
  let overridden_target_name :=
    match args with
    | Some a => scan_target_name_override a
    | None => None
    end in
  let '(status, sc) :=
    grpc_ssl_channel_security_connector_create c call_creds (config c)
      target overridden_target_name in
  match status with
  | GRPC_SECURITY_OK =>
      let new_arg :=
        grpc_channel_arg_string_create GRPC_ARG_HTTP2_SCHEME "https" in
      (status, sc, Some (grpc_channel_args_copy_and_add args [new_arg]))
  | _ => (status, sc, None)
  end.

End Connector.

(** What the specification says of the scan: [found] is the string of the
    first entry of [args] whose key is [name] and whose value is a string,
    and nothing when there is no such entry. *)
Definition first_string_entry (name : string) (args : list grpc_arg)
    (found : option string) : Prop :=
  match found with
  | Some s =>
      exists (i : nat) (a : grpc_arg),
        args !! i = Some a /\ key a = name /\ value a = GRPC_ARG_STRING s /\
        forall (j : nat) (b : grpc_arg) (s' : string),
          (j < i)%nat -> args !! j = Some b -> key b = name ->
          value b <> GRPC_ARG_STRING s'
  | None =>
      forall (j : nat) (b : grpc_arg) (s' : string),
        args !! j = Some b -> key b = name -> value b <> GRPC_ARG_STRING s'
  end.

(** ** ssl_credentials.c: SSL server credentials *)

Definition ssl_server_destruct (creds : loc) : M unit :=
  blk <- load creds ;;
  match blk with
  | BSslServerCredentials c =>
      grpc_tsi_ssl_pem_key_cert_pairs_destroy
        (pem_key_cert_pairs (server_config c))
        (num_key_cert_pairs (server_config c)) ;;;
      gpr_free (server_pem_root_certs (server_config c))
  | _ => abort
  end.

(** [tsi_pairs[i].field = ...]: an update of one cell of the array. *)
Definition update_tsi_pair (tsi_pairs : ptr) (i : nat)
    (f : tsi_ssl_pem_key_cert_pair -> tsi_ssl_pem_key_cert_pair) : M unit :=
  match tsi_pairs with
  | None => abort
  | Some l =>
      blk <- load l ;;
      match blk with
      | BTsiPairs kps =>
          match kps !! i with
          | Some kp => store l (BTsiPairs (<[i := f kp]> kps))
          | None => abort
          end
      | _ => abort
      end
  end.

Fixpoint convert_pairs_from (pairs : option (list grpc_ssl_pem_key_cert_pair))
    (tsi_pairs : ptr) (i : nat) (count : nat) : M unit :=
  match count with
  | O => ret tt
  | S count' =>
      match pairs with
      | None => abort
      | Some ps =>
          match ps !! i with
          | None => abort
          | Some kp =>
              GPR_ASSERT (negb (is_null (private_key kp))) ;;;
              GPR_ASSERT (negb (is_null (cert_chain kp))) ;;;
              cc <- gpr_strdup (cert_chain kp) ;;
              update_tsi_pair tsi_pairs i
                (fun p => {| tsi_private_key := tsi_private_key p;
                             tsi_cert_chain := cc |}) ;;;
              pk <- gpr_strdup (private_key kp) ;;
              update_tsi_pair tsi_pairs i
                (fun p => {| tsi_private_key := pk;
                             tsi_cert_chain := tsi_cert_chain p |}) ;;;
              convert_pairs_from pairs tsi_pairs (S i) count'
          end
      end
  end.

Definition grpc_convert_grpc_to_tsi_cert_pairs
    (pairs : option (list grpc_ssl_pem_key_cert_pair)) (n : nat) : M ptr :=
  tsi_pairs <- match n with
               | O => ret None
               | S _ =>
                   GPR_ASSERT (match pairs with Some _ => true | None => false end) ;;;
                   l <- alloc (BTsiPairs (replicate n zero_tsi_pair)) ;;
                   ret (Some l)
               end ;;
  convert_pairs_from pairs tsi_pairs 0%nat n ;;;
  ret tsi_pairs.

Definition zero_ssl_server_config : grpc_ssl_server_config :=
  {| pem_key_cert_pairs := None;
     num_key_cert_pairs := 0%nat;
     server_pem_root_certs := None;
     client_certificate_request := GRPC_SSL_DONT_REQUEST_CLIENT_CERTIFICATE |}.

Definition zero_ssl_server_credentials : grpc_ssl_server_credentials :=
  {| server_base := {| server_type := GRPC_CHANNEL_CREDENTIALS_TYPE_UNSET;
                       server_vtable := no_server_vtable;
                       server_refcount := 0 |};
     server_config := zero_ssl_server_config |}.

Definition ssl_build_server_config (root_certs : ptr)
    (pairs : option (list grpc_ssl_pem_key_cert_pair)) (n : nat)
    (request : grpc_ssl_client_certificate_request_type)
    (cfg : grpc_ssl_server_config) : M grpc_ssl_server_config :=
  root <- match root_certs with
          | Some _ => gpr_strdup root_certs
          | None => ret (server_pem_root_certs cfg)
          end ;;
  tsi_pairs <- grpc_convert_grpc_to_tsi_cert_pairs pairs n ;;
  ret {| pem_key_cert_pairs := tsi_pairs;
         num_key_cert_pairs := n;
         server_pem_root_certs := root;
         client_certificate_request := request |}.

Definition grpc_ssl_server_credentials_create_ex (root_certs : ptr)
    (pairs : option (list grpc_ssl_pem_key_cert_pair)) (n : nat)
    (request : grpc_ssl_client_certificate_request_type)
    (reserved : ptr) : M ptr :=
  c <- alloc (BSslServerCredentials zero_ssl_server_credentials) ;;
  GPR_ASSERT (is_null reserved) ;;;
  cfg <- ssl_build_server_config root_certs pairs n request
           zero_ssl_server_config ;;
  store c (BSslServerCredentials
             {| server_base := {| server_type := GRPC_CHANNEL_CREDENTIALS_TYPE_SSL;
                                  server_vtable := ssl_server_vtable;
                                  server_refcount := 1 |};
                server_config := cfg |}) ;;;
  ret (Some c).

(** [force_client_auth] is a C [int]: any value other than 0 is true. *)
Definition grpc_ssl_server_credentials_create (root_certs : ptr)
    (pairs : option (list grpc_ssl_pem_key_cert_pair)) (n : nat)
    (force_client_auth : Z) (reserved : ptr) : M ptr :=
  grpc_ssl_server_credentials_create_ex root_certs pairs n
    (if Z.eqb force_client_auth 0
     then GRPC_SSL_DONT_REQUEST_CLIENT_CERTIFICATE
     else GRPC_SSL_REQUEST_AND_REQUIRE_CLIENT_CERTIFICATE_AND_VERIFY)
    reserved.

(** ** src/node/ext/channel_credentials.cc: the binding *)

Definition JsKey_eqb (a b : JsKey) : bool :=
  match a, b with
  | KeyString s, KeyString t => String.eqb s t
  | KeyIndex m, KeyIndex n => N.eqb m n
  | _, _ => false
  end.

Definition IsNull (v : JsValue) : bool :=
  match v with JsNull => true | _ => false end.

Definition IsUndefined (v : JsValue) : bool :=
  match v with JsUndefined => true | _ => false end.

Definition IsBoolean (v : JsValue) : bool :=
  match v with JsBoolean _ => true | _ => false end.

Definition IsObject (v : JsValue) : bool :=
  match v with JsObject _ _ => true | _ => false end.

Definition IsFunction (v : JsValue) : bool :=
  match v with JsObject (FunctionObject _) _ => true | _ => false end.

Definition IsExternal (v : JsValue) : bool :=
  match v with JsObject (ExternalObject _) _ => true | _ => false end.

Definition BooleanValue (v : JsValue) : bool :=
  match v with JsBoolean b => b | _ => false end.

Definition Buffer_HasInstance (v : JsValue) : bool :=
  match v with JsObject (BufferObject _) _ => true | _ => false end.

Definition Buffer_Data (v : JsValue) : ptr :=
  match v with JsObject (BufferObject data) _ => data | _ => None end.

Definition ChannelCredentials_HasInstance (v : JsValue) : bool :=
  match v with JsObject (ChannelCredentialsObject _) _ => true | _ => false end.

Definition CallCredentials_HasInstance (v : JsValue) : bool :=
  match v with JsObject (CallCredentialsObject _) _ => true | _ => false end.

(** [ObjectWrap::Unwrap<ChannelCredentials>(v)->wrapped_credentials]. *)
Definition wrapped_credentials_of (v : JsValue) : ptr :=
  match v with
  | JsObject (ChannelCredentialsObject p) _ => p
  | _ => None
  end.

Definition GetWrappedCredentials (v : JsValue) : ptr := wrapped_credentials_of v.

(** Modelled from the spec: call_credentials.cc is not among the sources;
    a call credential is "a call-credential capability object with
    [get_wrapped()]". *)
Definition CallCredentials_GetWrappedCredentials (v : JsValue) : ptr :=
  match v with
  | JsObject (CallCredentialsObject p) _ => p
  | _ => None
  end.

Definition External_Value (v : JsValue) : ptr :=
  match v with JsObject (ExternalObject p) _ => p | _ => None end.

(** [info[i]]: [undefined] past the arguments that were passed. *)
Definition info_at (info : list JsValue) (i : nat) : JsValue :=
  nth i info JsUndefined.

Definition own_properties (object : JsValue)
    : list (JsKey * JsProperty JsValue) :=
  match object with JsObject _ props => props | _ => [] end.

Definition GetOwnPropertyNames (object : JsValue) : list JsKey :=
  (own_properties object).*1.

Fixpoint lookup_property (props : list (JsKey * JsProperty JsValue))
    (k : JsKey) : option (JsProperty JsValue) :=
  match props with
  | [] => None
  | (k', p) :: rest => if JsKey_eqb k' k then Some p else lookup_property rest k
  end.

(** [object->Get(key)] for a key among the own properties.  The result is
    a [Local<Value>]: the value of a data property, what the getter of an
    accessor property returns, and the empty handle ([None]) when the getter
    throws.  The exception that the getter leaves with the isolate is not
    part of this model. *)
Definition Object_Get (object : JsValue) (k : JsKey) : option JsValue :=
  match lookup_property (own_properties object) k with
  | Some (DataProperty v) => Some v
  | Some (AccessorProperty r) => r
  | None => Some JsUndefined
  end.

(** The C string behind [*keyStr]: the characters before the first NUL. *)
Fixpoint utf8_c_str (s : string) : string :=
  match s with
  | EmptyString => EmptyString
  | String c rest =>
      if Ascii.eqb c Ascii.zero then EmptyString
      else String c (utf8_c_str rest)
  end.

Definition New (is_construct_call : bool) (info : list JsValue) : Completion :=
  if is_construct_call then
    if negb (IsExternal (info_at info 0)) then
      Thrown (TypeError
        "ChannelCredentials can only be created with the provided functions")
    else
      Returned (JsObject
                  (ChannelCredentialsObject (External_Value (info_at info 0)))
                  [])
  else
    Thrown (TypeError
      "ChannelCredentials can only be created with the provided functions").

Definition WrapStruct (credentials : ptr) : JsValue :=
  match New true [JsObject (ExternalObject credentials) []] with
  | Returned instance => instance
  | Thrown _ => JsNull
  end.

(** The loop over the property names of the option bag; the result is the
    error that was thrown, or the options gathered so far.  [value] is read
    for every key; under one of the two names it is tested without a check
    of the handle, so an empty handle there ends the run. *)
Fixpoint scan_option_bag (object : JsValue) (props : list JsKey)
    (verify_options : verify_peer_options)
    : M (JsError + verify_peer_options) :=
  match props with
  | [] => ret (inr verify_options)
  | k :: rest =>
      let value := Object_Get object k in
      match k with
      | KeyString keyStr =>
          if strcmp_eq "checkServerIdentity" (utf8_c_str keyStr) then
            match value with
            | None => abort
            | Some (JsObject (FunctionObject f) _) =>
                md <- alloc (BCallbackMd None) ;;
                cb <- alloc (BNanCallback f) ;;
                store md (BCallbackMd (Some cb)) ;;;
                scan_option_bag object rest
                  {| verify_peer_callback :=
                       Some node_verify_peer_callback_wrapper;
                     verify_peer_callback_userdata := Some md;
                     verify_peer_destruct :=
                       Some node_verify_peer_callback_destruct;
                     skip_hostname_verification :=
                       skip_hostname_verification verify_options |}
            | Some _ =>
                ret (inl (Error
                  "Value of checkServerIdentity must be a function."))
            end
          else if strcmp_eq "insecureSkipHostnameVerify" (utf8_c_str keyStr)
          then
            match value with
            | None => abort
            | Some value =>
                if negb (IsBoolean value) then
                  ret (inl (Error
                    "Value of insecureSkipHostnameVerify must be a boolean."))
                else
                  scan_option_bag object rest
                    {| verify_peer_callback :=
                         verify_peer_callback verify_options;
                       verify_peer_callback_userdata :=
                         verify_peer_callback_userdata verify_options;
                       verify_peer_destruct :=
                         verify_peer_destruct verify_options;
                       skip_hostname_verification := BooleanValue value |}
            end
          else scan_option_bag object rest verify_options
      | KeyIndex _ => scan_option_bag object rest verify_options
      end
  end.

(** The completion is the one the method makes itself: the value it sets
    or the error it throws.  What V8 does, once the method has returned,
    with an exception that a getter of the option bag left with the isolate
    is not part of this model. *)
Definition CreateSsl (info : list JsValue) : M Completion :=
  if negb (Buffer_HasInstance (info_at info 0))
     && negb (IsNull (info_at info 0) || IsUndefined (info_at info 0))
  then ret (Thrown (TypeError "createSsl's first argument must be a Buffer"))
  else
  let root_certs := Buffer_Data (info_at info 0) in
  if negb (Buffer_HasInstance (info_at info 1))
     && negb (IsNull (info_at info 1) || IsUndefined (info_at info 1))
  then ret (Thrown (TypeError
         "createSSl's second argument must be a Buffer if provided"))
  else
  if negb (Buffer_HasInstance (info_at info 2))
     && negb (IsNull (info_at info 2) || IsUndefined (info_at info 2))
  then ret (Thrown (TypeError
         "createSSl's third argument must be a Buffer if provided"))
  else
  let key_cert_pair :=
    {| private_key := Buffer_Data (info_at info 1);
       cert_chain := Buffer_Data (info_at info 2) |} in
  if negb (Bool.eqb (is_null (private_key key_cert_pair))
                    (is_null (cert_chain key_cert_pair)))
  then ret (Thrown (Error
         "createSsl's second and third arguments must be provided or omitted together"))
  else
  scanned <- (if (4 <=? length info)%nat && IsObject (info_at info 3)
              then scan_option_bag (info_at info 3)
                     (GetOwnPropertyNames (info_at info 3))
                     zero_verify_peer_options
              else ret (inr zero_verify_peer_options)) ;;
  match scanned with
  | inl e => ret (Thrown e)
  | inr verify_options =>
      creds <- grpc_ssl_credentials_create root_certs
                 (if is_null (private_key key_cert_pair) then None
                  else Some key_cert_pair)
                 (Some verify_options) None ;;
      match creds with
      | None => ret (Returned JsNull)
      | Some _ => ret (Returned (WrapStruct creds))
      end
  end.

(** Modelled from the spec: [grpc_channel_credentials_ref] and
    [grpc_call_credentials_ref] live in credentials.c, which is not among
    the sources.  The reference count is "incremented on share". *)
Definition grpc_channel_credentials_ref (creds : ptr) : M ptr :=
  match creds with
  | None => ret None
  | Some l =>
      blk <- load l ;;
      match blk with
      | BSslCredentials c =>
          store l (BSslCredentials
                     {| base := {| type := type (base c);
                                   vtable := vtable (base c);
                                   refcount := refcount (base c) + 1 |};
                        config := config c |}) ;;;
          ret creds
      | BCompositeCredentials b inner call =>
          store l (BCompositeCredentials
                     {| type := type b; vtable := vtable b;
                        refcount := refcount b + 1 |} inner call) ;;;
          ret creds
      | _ => abort
      end
  end.

(** Modelled from the spec: see [grpc_channel_credentials_ref]. *)
Definition grpc_call_credentials_ref (creds : ptr) : M ptr :=
  match creds with
  | None => ret None
  | Some l =>
      blk <- load l ;;
      match blk with
      | BCallCredentials n => store l (BCallCredentials (n + 1)) ;;; ret creds
      | _ => abort
      end
  end.

Definition channel_credentials_type (blk : block) : credentials_type :=
  match blk with
  | BSslCredentials c => type (base c)
  | BCompositeCredentials b _ _ => type b
  | _ => GRPC_CHANNEL_CREDENTIALS_TYPE_UNSET
  end.

(** Modelled from the spec: [grpc_composite_channel_credentials_create]
    lives in composite_credentials.c, which is not among the sources.
    "Result is a new Composite Credential; both inputs' refcounts are
    incremented (shared ownership), not moved."  Both operands must be
    present and live. *)
Definition grpc_composite_channel_credentials_create (channel_creds : ptr)
    (call_creds : ptr) (reserved : ptr) : M ptr :=
  GPR_ASSERT (negb (is_null channel_creds) && negb (is_null call_creds)
              && is_null reserved) ;;;
  match channel_creds with
  | None => abort
  | Some inner =>
      blk <- load inner ;;
      c <- alloc (BCompositeCredentials
                    {| type := channel_credentials_type blk;
                       vtable := composite_vtable;
                       refcount := 1 |} None None) ;;
      i <- grpc_channel_credentials_ref channel_creds ;;
      k <- grpc_call_credentials_ref call_creds ;;
      store c (BCompositeCredentials
                 {| type := channel_credentials_type blk;
                    vtable := composite_vtable;
                    refcount := 1 |} i k) ;;;
      ret (Some c)
  end.

(** [this] is [info.This()].  [Init] registers the method with
    [Nan::SetPrototypeMethod], under the signature of the constructor
    template: V8 lets it run only on a receiver made by that template, so
    the first test is never the one that fails. *)
Definition Compose (this : JsValue) (info : list JsValue) : M Completion :=
  if negb (ChannelCredentials_HasInstance this) then
    ret (Thrown (TypeError
      "compose can only be called on ChannelCredentials objects"))
  else if negb (CallCredentials_HasInstance (info_at info 0)) then
    ret (Thrown (TypeError
      "compose's first argument must be a CallCredentials object"))
  else if is_null (wrapped_credentials_of this) then
    ret (Thrown (TypeError "Cannot compose insecure credential"))
  else
    creds <- grpc_composite_channel_credentials_create
               (wrapped_credentials_of this)
               (CallCredentials_GetWrappedCredentials (info_at info 0))
               None ;;
    match creds with
    | None => ret (Returned JsNull)
    | Some _ => ret (Returned (WrapStruct creds))
    end.

Definition CreateInsecure (info : list JsValue) : M Completion :=
  ret (Returned (WrapStruct None)).

(** *** The peer verification bridge *)

Inductive CallOutcome :=
| CallReturned (result : JsValue)
| CallThrew (exception : JsValue).

Section Bridge.

(** What each JavaScript function does with its arguments. *)
Variable js_apply : js_function -> list JsValue -> CallOutcome.

(** [callback->Call(argc, argv)]. *)
Definition Callback_Call (callback : ptr) (argv : list JsValue)
    : M CallOutcome :=
  match callback with
  | None => abort
  | Some l =>
      blk <- load l ;;
      match blk with
      | BNanCallback f => log (EvJsCall f argv) ;;; ret (js_apply f argv)
      | _ => abort
      end
  end.

(** [servername] and [cert] are nullable C strings; the result is the C
    [int] handed back to the handshake. *)
Definition verify_peer_callback_wrapper (servername cert : option string)
    (userdata : ptr) : M Z :=
  match userdata with
  | None => abort
  | Some l =>
      blk <- load l ;;
      match blk with
      | BCallbackMd callback =>
          let argv0 := match servername with
                       | None => JsNull
                       | Some s => JsString s
                       end in
          let argv1 := match cert with
                       | None => JsNull
                       | Some s => JsString s
                       end in
          outcome <- Callback_Call callback [argv0; argv1] ;;
          match outcome with
          | CallThrew _ => ret 1
          | CallReturned _ => ret 0
          end
      | _ => abort
      end
  end.

End Bridge.

(** ** The vocabulary of the properties *)

(** How the bridge hands a nullable C string to JavaScript, in the words
    of the specification: absence is [null], never the empty string. *)
Definition marshal (s : option string) : JsValue :=
  match s with
  | None => JsNull
  | Some str => JsString str
  end.

Definition error_message (e : JsError) : string :=
  match e with
  | TypeError msg => msg
  | Error msg => msg
  end.

Definition string_at (h : gmap positive block) (l : loc) : option (list byte) :=
  match h !! l with
  | Some (BBytes bs) => c_str bs
  | _ => None
  end.

Record stored_ssl_config := {
  stored_root_certs : option (list byte);
  stored_key_cert_pair : option (list byte * list byte)
}.

(** The PEM strings reachable from the credential at [creds]: the root
    certificates, and the private key with the certificate chain.  [None]
    when a pointer on the way does not lead to a block of the right kind. *)
Definition stored_config (h : gmap positive block) (creds : ptr)
    : option stored_ssl_config :=
  match creds with
  | None => None
  | Some c =>
      match h !! c with
      | Some (BSslCredentials cr) =>
          match
            match pem_root_certs (config cr) with
            | None => Some None
            | Some l => match string_at h l with
                        | Some s => Some (Some s)
                        | None => None
                        end
            end
          with
          | None => None
          | Some root =>
              match pem_key_cert_pair (config cr) with
              | None => Some {| stored_root_certs := root;
                                stored_key_cert_pair := None |}
              | Some p =>
                  match h !! p with
                  | Some (BTsiPairs [kp]) =>
                      match tsi_private_key kp, tsi_cert_chain kp with
                      | Some a, Some b =>
                          match string_at h a, string_at h b with
                          | Some k, Some ch =>
                              Some {| stored_root_certs := root;
                                      stored_key_cert_pair := Some (k, ch) |}
                          | _, _ => None
                          end
                      | _, _ => None
                      end
                  | _ => None
                  end
              end
          end
      | _ => None
      end
  end.

Definition option_to_list {A} (o : option A) : list A :=
  match o with Some a => [a] | None => [] end.

(** The blocks a configuration owns: the root certificates, the array of
    key/certificate pairs and the two strings of each of its cells. *)
Definition owned_buffers (h : gmap positive block) (cfg : grpc_ssl_config)
    : list loc :=
  option_to_list (pem_root_certs cfg)
  ++ match pem_key_cert_pair cfg with
     | None => []
     | Some p =>
         p :: match h !! p with
              | Some (BTsiPairs kps) =>
                  flat_map (fun kp => option_to_list (tsi_private_key kp)
                                      ++ option_to_list (tsi_cert_chain kp))
                           kps
              | _ => []
              end
     end.

(** The C string of the caller behind a nullable pointer. *)
Definition caller_string (h : gmap positive block) (p : ptr)
    : option (list byte) :=
  match p with
  | Some l => string_at h l
  | None => None
  end.

(** The snapshot that a copy of the caller's strings gives. *)
Definition snapshot_of (h : gmap positive block) (root_certs : ptr)
    (key_cert_pair : option grpc_ssl_pem_key_cert_pair) : stored_ssl_config :=
  {| stored_root_certs := caller_string h root_certs;
     stored_key_cert_pair :=
       match key_cert_pair with
       | Some kp =>
           match caller_string h (private_key kp),
                 caller_string h (cert_chain kp) with
           | Some k, Some ch => Some (k, ch)
           | _, _ => None
           end
       | None => None
       end |}.

(** Every block of [st] is still there, unchanged, in [st']. *)
Definition preserves (st st' : State) : Prop :=
  forall l b, heap st !! l = Some b -> heap st' !! l = Some b.

(** A pointer handed in by a caller is null or points to a live block. *)
Definition live (h : gmap positive block) (p : ptr) : Prop :=
  match p with
  | Some l => is_Some (h !! l)
  | None => True
  end.

Definition pair_live (h : gmap positive block)
    (key_cert_pair : option grpc_ssl_pem_key_cert_pair) : Prop :=
  match key_cert_pair with
  | Some kp => live h (private_key kp) /\ live h (cert_chain kp)
  | None => True
  end.

(** A configuration is well formed in a heap when the blocks it owns are
    live and pairwise distinct and its pair pointer, when set, leads to an
    array of one cell. *)
Definition well_formed_config (h : gmap positive block)
    (cfg : grpc_ssl_config) : Prop :=
  NoDup (owned_buffers h cfg) /\
  (forall l, l ∈ owned_buffers h cfg -> is_Some (h !! l)) /\
  match pem_key_cert_pair cfg with
  | Some p => exists kp, h !! p = Some (BTsiPairs [kp])
  | None => True
  end.

(** The bridge that the Node binding attaches: [userdata] leads to a
    [callback_md] whose callback is live. *)
Definition node_bridge_at (h : gmap positive block) (userdata : ptr) : Prop :=
  exists md cb f,
    userdata = Some md /\
    h !! md = Some (BCallbackMd (Some cb)) /\
    h !! cb = Some (BNanCallback f).

(** The teardown hook of the options can be called: when it is the one of
    the Node binding, its bridge is there. *)
Definition teardown_callable (h : gmap positive block)
    (vo : verify_peer_options) : Prop :=
  match verify_peer_destruct vo with
  | Some node_verify_peer_callback_destruct =>
      node_bridge_at h (verify_peer_callback_userdata vo)
  | _ => True
  end.

(** The calls through the teardown pointer that [ssl_destruct] makes for
    the options [vo]: one when the hook is set, none when it is null. *)
Definition teardown_events (vo : verify_peer_options) : list event :=
  match verify_peer_destruct vo with
  | Some fn => [EvVerifyPeerDestruct fn (verify_peer_callback_userdata vo)]
  | None => []
  end.

Definition is_teardown (e : event) : bool :=
  match e with
  | EvVerifyPeerDestruct _ _ => true
  | EvJsCall _ _ => false
  end.

(** How many times a teardown hook was invoked in a trace. *)
Definition teardown_count (t : list event) : nat :=
  length (List.filter is_teardown t).

(** The key is taken for [checkServerIdentity]: the comparison is the one
    of the code, on the C string of the key. *)
Definition names_checkServerIdentity (k : JsKey) : bool :=
  match k with
  | KeyString s => strcmp_eq "checkServerIdentity" (utf8_c_str s)
  | KeyIndex _ => false
  end.

Definition names_insecureSkipHostnameVerify (k : JsKey) : bool :=
  match k with
  | KeyString s => strcmp_eq "insecureSkipHostnameVerify" (utf8_c_str s)
  | KeyIndex _ => false
  end.

Definition recognised_key (k : JsKey) : bool :=
  names_checkServerIdentity k || names_insecureSkipHostnameVerify k.

(** An entry of the option bag that the binding refuses: its value is
    there and is not of the type that its name asks for. *)
Definition rejected_option (object : JsValue) (k : JsKey) : Prop :=
  exists v,
    Object_Get object k = Some v /\
    ((names_checkServerIdentity k = true /\ IsFunction v = false) \/
     (names_insecureSkipHostnameVerify k = true /\ IsBoolean v = false)).

(** Every read of the bag under one of the two names delivers a value: no
    getter under such a name throws. *)
Definition recognised_options_delivered (object : JsValue) : Prop :=
  forall k, k ∈ GetOwnPropertyNames object -> recognised_key k = true ->
            is_Some (Object_Get object k).

(** The argument has data: it is a Buffer with a data pointer, that is a
    Buffer that is not empty. *)
Definition has_data (v : JsValue) : bool := negb (is_null (Buffer_Data v)).

Definition absent (v : JsValue) : bool := IsNull v || IsUndefined v.

Definition buffer_or_absent (v : JsValue) : bool :=
  Buffer_HasInstance v || absent v.

(** The failures that the specification files under InvalidArgument:
    "wrong buffer type, mismatched key/cert presence, non-callable
    verification hook, non-boolean flag". *)
Inductive InvalidArgument : JsError -> Prop :=
| wrong_type_of_root_certs :
    InvalidArgument (TypeError "createSsl's first argument must be a Buffer")
| wrong_type_of_private_key :
    InvalidArgument
      (TypeError "createSSl's second argument must be a Buffer if provided")
| wrong_type_of_cert_chain :
    InvalidArgument
      (TypeError "createSSl's third argument must be a Buffer if provided")
| mismatched_key_cert_presence :
    InvalidArgument
      (Error "createSsl's second and third arguments must be provided or omitted together")
| non_callable_verification_hook :
    InvalidArgument (Error "Value of checkServerIdentity must be a function.")
| non_boolean_flag :
    InvalidArgument
      (Error "Value of insecureSkipHostnameVerify must be a boolean.").

(** The C string behind a Buffer can be read: its block holds a NUL. *)
Definition readable (h : gmap positive block) (p : ptr) : Prop :=
  match p with
  | Some l => exists bs s, h !! l = Some (BBytes bs) /\ c_str bs = Some s
  | None => True
  end.


(** ** Sample inputs and runs *)

Definition buffer_at (l : loc) : JsValue :=
  JsObject (BufferObject (Some l)) [].


Definition server_example_state : State :=
  {| heap := {[ 1%positive := BBytes ["R"%byte; x00];
                2%positive := BBytes ["K"%byte; x00];
                3%positive := BBytes ["C"%byte; x00] ]};
     trace := [] |}.

Definition server_example_pairs : option (list grpc_ssl_pem_key_cert_pair) :=
  Some [ {| private_key := Some 2%positive; cert_chain := Some 3%positive |} ].

Definition server_example_run : option (ptr * State) :=
  grpc_ssl_server_credentials_create (Some 1%positive) server_example_pairs
    1 7 None server_example_state.

Definition sample_connector_create (c : grpc_ssl_credentials) (call_creds : ptr)
    (cfg : grpc_ssl_config) (target : string) (overridden : option string)
    : grpc_security_status * option string :=
  let name := default target overridden in
  if String.eqb name "" then (GRPC_SECURITY_ERROR, None)
  else (GRPC_SECURITY_OK, Some name).

Definition sample_channel_args : list grpc_arg :=
  [ {| key := "grpc.primary_user_agent"; value := GRPC_ARG_STRING "test" |};
    {| key := "grpc.ssl_target_name_override"; value := GRPC_ARG_INTEGER 3 |};
    {| key := "grpc.ssl_target_name_override";
       value := GRPC_ARG_STRING "pinned.example" |};
    {| key := "grpc.ssl_target_name_override";
       value := GRPC_ARG_STRING "later.example" |} ].

Definition sample_ssl_credentials : grpc_ssl_credentials :=
  {| base := {| type := GRPC_CHANNEL_CREDENTIALS_TYPE_SSL;
                vtable := ssl_vtable;
                refcount := 1 |};
     config := zero_ssl_config |}.

(** A callback that accepts the host "example.com" only, by throwing for
    any other first argument. *)
Definition sample_js_apply (f : js_function) (argv : list JsValue)
    : CallOutcome :=
  match argv with
  | JsString "example.com" :: _ => CallReturned JsUndefined
  | _ => CallThrew (JsString "unexpected host")
  end.

Definition bridge_example_state : State :=
  {| heap := {[ 4%positive := BCallbackMd (Some 5%positive);
                5%positive := BNanCallback 7%positive ]};
     trace := [] |}.

Definition insecure_credential : JsValue :=
  JsObject (ChannelCredentialsObject None) [].

Definition sample_call_credential : JsValue :=
  JsObject (CallCredentialsObject (Some 9%positive)) [].

Definition compose_example_state : State :=
  {| heap := {[ 9%positive := BCallCredentials 1 ]}; trace := [] |}.

Definition create_example_state : State :=
  {| heap := {[ 1%positive := BBytes ["R"%byte; x00];
                2%positive := BBytes ["K"%byte; x00];
                3%positive := BBytes ["C"%byte; x00];
                4%positive := BCallbackMd (Some 5%positive);
                5%positive := BNanCallback 7%positive ]};
     trace := [] |}.

Definition create_example_pair : grpc_ssl_pem_key_cert_pair :=
  {| private_key := Some 2%positive; cert_chain := Some 3%positive |}.

Definition create_example_options : verify_peer_options :=
  {| verify_peer_callback := Some node_verify_peer_callback_wrapper;
     verify_peer_callback_userdata := Some 4%positive;
     verify_peer_destruct := Some node_verify_peer_callback_destruct;
     skip_hostname_verification := false |}.

Definition create_example_run : option (ptr * State) :=
  grpc_ssl_credentials_create (Some 1%positive) (Some create_example_pair)
    (Some create_example_options) None create_example_state.

(** An option bag whose first entry attaches a bridge and whose second
    entry is refused. *)
Definition late_failure_options (f : js_function) : JsValue :=
  JsObject PlainObject
    [ (KeyString "checkServerIdentity",
       DataProperty (JsObject (FunctionObject f) []));
      (KeyString "insecureSkipHostnameVerify", DataProperty (JsNumber 1)) ].

Definition binding_example_state : State :=
  {| heap := {[ 1%positive := BBytes ["R"%byte; x00];
                2%positive := BBytes ["K"%byte; x00];
                3%positive := BBytes ["C"%byte; x00] ]};
     trace := [] |}.


Definition binding_example_info : list JsValue :=
  [ buffer_at 1; buffer_at 2; buffer_at 3;
    JsObject PlainObject
      [(KeyString "insecureSkipHostnameVerify",
        DataProperty (JsBoolean true))] ].

Definition binding_example_run : option (Completion * State) :=
  CreateSsl binding_example_info binding_example_state.

(** ** More vocabulary: the binding *)

(** The two failures of [Compose] on a receiver of its own class. *)
Inductive ComposeFailure : JsError -> Prop :=
| compose_with_other_argument :
    ComposeFailure
      (TypeError "compose's first argument must be a CallCredentials object")
| compose_on_insecure :
    ComposeFailure (TypeError "Cannot compose insecure credential").

(** A key whose C string is [name]: the name, a NUL and anything. *)
Definition key_with_tail (name tail : string) : JsKey :=
  KeyString (name ++ String Ascii.zero tail).

(** An entry of the option bag at which the scan attaches a bridge. *)
Definition attaches_bridge (object : JsValue) (k : JsKey) : Prop :=
  names_checkServerIdentity k = true /\
  exists v, Object_Get object k = Some v /\ IsFunction v = true.

Definition refused_flag_info : list JsValue :=
  [ JsNull; JsNull; JsNull;
    JsObject PlainObject
      [(KeyString "insecureSkipHostnameVerify",
        DataProperty (JsString "yes"))] ].

(** The flag that the scan of the option bag leaves: the value of the last
    entry taken for [insecureSkipHostnameVerify], and [flag] when there is
    none. *)
Fixpoint scanned_flag (object : JsValue) (props : list JsKey) (flag : bool)
    : bool :=
  match props with
  | [] => flag
  | k :: rest =>
      scanned_flag object rest
        (if names_insecureSkipHostnameVerify k
         then match Object_Get object k with
              | Some v => BooleanValue v
              | None => flag
              end
         else flag)
  end.

(** The function behind the last entry taken for [checkServerIdentity],
    when there is one. *)
Fixpoint scanned_function (object : JsValue) (props : list JsKey)
    (found : option js_function) : option js_function :=
  match props with
  | [] => found
  | k :: rest =>
      scanned_function object rest
        (if names_checkServerIdentity k
         then match Object_Get object k with
              | Some (JsObject (FunctionObject f) _) => Some f
              | _ => found
              end
         else found)
  end.

(** The options hold the bridge of the Node binding around [f]. *)
Definition holds_bridge (h : gmap positive block) (vo : verify_peer_options)
    (f : js_function) : Prop :=
  verify_peer_callback vo = Some node_verify_peer_callback_wrapper /\
  verify_peer_destruct vo = Some node_verify_peer_callback_destruct /\
  exists md cb,
    verify_peer_callback_userdata vo = Some md /\
    h !! md = Some (BCallbackMd (Some cb)) /\
    h !! cb = Some (BNanCallback f).

Definition bridge_example_info : list JsValue :=
  [ JsNull; JsNull; JsNull;
    JsObject PlainObject
      [ (KeyString "insecureSkipHostnameVerify",
         DataProperty (JsBoolean true));
        (KeyString "checkServerIdentity",
         DataProperty (JsObject (FunctionObject 7) [])) ] ].

Definition bridge_example_run : option (Completion * State) :=
  CreateSsl bridge_example_info binding_example_state.

(** The pair handed to the core is whole and both its strings can be
    read. *)
Definition pair_readable (h : gmap positive block)
    (key_cert_pair : option grpc_ssl_pem_key_cert_pair) : Prop :=
  match key_cert_pair with
  | Some kp =>
      is_Some (private_key kp) /\ is_Some (cert_chain kp) /\
      readable h (private_key kp) /\ readable h (cert_chain kp)
  | None => True
  end.

(** The blocks of the bridge that the teardown of the Node binding frees:
    the [callback_md] behind [userdata] and its callback.  No block when the
    teardown hook is null or foreign. *)
Definition bridge_blocks (h : gmap positive block) (vo : verify_peer_options)
    : list loc :=
  match verify_peer_destruct vo, verify_peer_callback_userdata vo with
  | Some node_verify_peer_callback_destruct, Some md =>
      md :: match h !! md with
            | Some (BCallbackMd (Some cb)) => [cb]
            | _ => []
            end
  | _, _ => []
  end.

(** ** More vocabulary: server credentials *)

(** A cell of the array of pairs that holds the two copies [c]: the private
    key first, the certificate chain second. *)
Definition cell_of (c : loc * loc) : tsi_ssl_pem_key_cert_pair :=
  {| tsi_private_key := Some c.1; tsi_cert_chain := Some c.2 |}.

Definition copy_locations (copies : list (loc * loc)) : list loc :=
  flat_map (fun c => [c.1; c.2]) copies.

(** [c] holds, in the heap [h], copies of the two strings that the pair [kp]
    of the caller had in the heap [hb]. *)
Definition copied (hb h : gmap positive block)
    (kp : grpc_ssl_pem_key_cert_pair) (c : loc * loc) : Prop :=
  exists sk sc,
    caller_string hb (private_key kp) = Some sk /\
    caller_string hb (cert_chain kp) = Some sc /\
    h !! c.1 = Some (BBytes (sk ++ [x00])) /\
    h !! c.2 = Some (BBytes (sc ++ [x00])).

(** The strings of the pairs of a caller, and of the cells of a stored
    array; [None] when one of them cannot be read. *)
Fixpoint read_pairs (h : gmap positive block)
    (ps : list grpc_ssl_pem_key_cert_pair)
    : option (list (list byte * list byte)) :=
  match ps with
  | [] => Some []
  | kp :: rest =>
      match caller_string h (private_key kp),
            caller_string h (cert_chain kp), read_pairs h rest with
      | Some k, Some ch, Some r => Some ((k, ch) :: r)
      | _, _, _ => None
      end
  end.

Fixpoint read_cells (h : gmap positive block)
    (kps : list tsi_ssl_pem_key_cert_pair)
    : option (list (list byte * list byte)) :=
  match kps with
  | [] => Some []
  | kp :: rest =>
      match caller_string h (tsi_private_key kp),
            caller_string h (tsi_cert_chain kp), read_cells h rest with
      | Some k, Some ch, Some r => Some ((k, ch) :: r)
      | _, _, _ => None
      end
  end.

Record stored_ssl_server_config := {
  stored_server_root_certs : option (list byte);
  stored_server_pairs : list (list byte * list byte);
  stored_client_certificate_request : grpc_ssl_client_certificate_request_type
}.

(** What the server credential at [creds] stores, read back from a heap:
    the root certificates, the strings of its [num_key_cert_pairs] pairs and
    the request mode. *)
Definition stored_server_config (h : gmap positive block) (creds : loc)
    : option stored_ssl_server_config :=
  match h !! creds with
  | Some (BSslServerCredentials sc) =>
      match
        match server_pem_root_certs (server_config sc) with
        | None => Some None
        | Some l => match string_at h l with
                    | Some s => Some (Some s)
                    | None => None
                    end
        end,
        match pem_key_cert_pairs (server_config sc) with
        | None => Some []
        | Some a =>
            match h !! a with
            | Some (BTsiPairs kps) =>
                read_cells h (take (num_key_cert_pairs (server_config sc)) kps)
            | _ => None
            end
        end
      with
      | Some root, Some pairs =>
          Some {| stored_server_root_certs := root;
                  stored_server_pairs := pairs;
                  stored_client_certificate_request :=
                    client_certificate_request (server_config sc) |}
      | _, _ => None
      end
  | _ => None
  end.

(** The pointers of the first [n] pairs of the caller are live. *)
Definition pairs_live (h : gmap positive block)
    (pairs : option (list grpc_ssl_pem_key_cert_pair)) (n : nat) : Prop :=
  match pairs with
  | Some ps =>
      Forall (fun kp => live h (private_key kp) /\ live h (cert_chain kp))
             (take n ps)
  | None => True
  end.

(** The first [n] pairs of the caller are there, each with both halves. *)
Definition pairs_whole (pairs : option (list grpc_ssl_pem_key_cert_pair))
    (n : nat) : Prop :=
  n <> 0%nat ->
  exists ps,
    pairs = Some ps /\ (n <= length ps)%nat /\
    Forall (fun kp => is_Some (private_key kp) /\ is_Some (cert_chain kp))
           (take n ps).

(** The strings of the first [n] pairs of the caller can be read. *)
Definition pairs_readable (h : gmap positive block)
    (pairs : option (list grpc_ssl_pem_key_cert_pair)) (n : nat) : Prop :=
  match pairs with
  | Some ps =>
      Forall (fun kp => readable h (private_key kp) /\
                        readable h (cert_chain kp))
             (take n ps)
  | None => True
  end.

(** What a server credential made from [root_certs], the first [n] of
    [pairs] and [request] is expected to store, read off a heap [h]. *)
Definition server_snapshot_of (h : gmap positive block) (root_certs : ptr)
    (pairs : option (list grpc_ssl_pem_key_cert_pair)) (n : nat)
    (request : grpc_ssl_client_certificate_request_type)
    : option stored_ssl_server_config :=
  match read_pairs h (take n (default [] pairs)) with
  | Some strs =>
      Some {| stored_server_root_certs := caller_string h root_certs;
              stored_server_pairs := strs;
              stored_client_certificate_request := request |}
  | None => None
  end.

Definition two_pairs_state : State :=
  {| heap := {[ 1%positive := BBytes ["R"%byte; x00];
                2%positive := BBytes ["K"%byte; x00];
                3%positive := BBytes ["C"%byte; x00; "x"%byte];
                4%positive := BBytes ["L"%byte; x00] ]};
     trace := [] |}.

(** Two pairs; the second one shares its certificate chain with the first. *)
Definition two_pairs : option (list grpc_ssl_pem_key_cert_pair) :=
  Some [ {| private_key := Some 2%positive; cert_chain := Some 3%positive |};
         {| private_key := Some 4%positive; cert_chain := Some 3%positive |} ].

Definition two_pairs_run : option (ptr * State) :=
  grpc_ssl_server_credentials_create_ex (Some 1%positive) two_pairs 2
    GRPC_SSL_REQUEST_CLIENT_CERTIFICATE_AND_VERIFY None two_pairs_state.

(** * Properties *)

(** ** The monad and the heap primitives *)

Lemma bind_Some {A B} (m : M A) (k : A -> M B) st b st' :
  bind m k st = Some (b, st') <->
  exists a st1, m st = Some (a, st1) /\ k a st1 = Some (b, st').
Proof.
  unfold bind. split.
  - destruct (m st) as [[a st1]|]; [eauto | discriminate].
  - intros (a & st1 & -> & Hk). exact Hk.
Qed.

Lemma ret_Some {A} (a b : A) st st' :
  ret a st = Some (b, st') <-> a = b /\ st = st'.
Proof. unfold ret. split; [intros [= -> ->] | intros [-> ->]]; auto. Qed.

Lemma GPR_ASSERT_Some b st u st' :
  GPR_ASSERT b st = Some (u, st') <-> b = true /\ st = st'.
Proof.
  destruct b; simpl; unfold ret, abort; split.
  - intros [= _ ->]; auto.
  - intros [_ ->]. by destruct u.
  - discriminate.
  - intros [[=] _].
Qed.

Lemma alloc_Some b st l st' :
  alloc b st = Some (l, st') <->
  l = fresh (dom (heap st)) /\ st' = with_heap (<[l := b]> (heap st)) st.
Proof.
  unfold alloc. split.
  - intros [= <- <-]; auto.
  - intros [-> ->]; auto.
Qed.

Lemma fresh_not_live (h : gmap positive block) : h !! fresh (dom h) = None.
Proof. apply not_elem_of_dom, is_fresh. Qed.

Lemma load_Some l st b st' :
  load l st = Some (b, st') <-> heap st !! l = Some b /\ st = st'.
Proof.
  unfold load. destruct (heap st !! l) as [b0|]; split.
  - intros [= -> ->]; auto.
  - intros [[= ->] ->]; auto.
  - discriminate.
  - intros [[=] _].
Qed.

Lemma store_Some l b st u st' :
  store l b st = Some (u, st') <->
  is_Some (heap st !! l) /\ st' = with_heap (<[l := b]> (heap st)) st.
Proof.
  unfold store. destruct (heap st !! l) as [b0|]; split.
  - intros [= <-]; eauto.
  - intros [_ ->]. by destruct u.
  - discriminate.
  - intros [[? [=]] _].
Qed.

Lemma gpr_free_Some l st u st' :
  gpr_free (Some l) st = Some (u, st') <->
  is_Some (heap st !! l) /\ st' = with_heap (delete l (heap st)) st.
Proof.
  simpl. destruct (heap st !! l) as [b0|]; split.
  - intros [= <-]; eauto.
  - intros [_ ->]. by destruct u.
  - discriminate.
  - intros [[? [=]] _].
Qed.

Lemma alloc_fresh b st l st' :
  alloc b st = Some (l, st') ->
  heap st !! l = None /\ st' = with_heap (<[l := b]> (heap st)) st.
Proof.
  intros H. apply alloc_Some in H as [-> ->].
  split; [apply fresh_not_live | reflexivity].
Qed.

(** Inversion of a run that returned: splits binds and primitive steps. *)
Ltac inv_run :=
  repeat match goal with
  | H : bind _ _ _ = Some _ |- _ =>
      apply bind_Some in H; destruct H as (? & ? & ? & H)
  | H : ret _ _ = Some _ |- _ =>
      apply ret_Some in H; destruct H as [? ?]; subst
  | H : GPR_ASSERT _ _ = Some _ |- _ =>
      apply GPR_ASSERT_Some in H; destruct H as [? ?]; subst
  | H : abort _ = Some _ |- _ => discriminate H
  | H : alloc _ _ = Some _ |- _ =>
      apply alloc_fresh in H; destruct H as [? ->];
      cbn [heap trace with_heap] in *
  | H : load _ _ = Some _ |- _ =>
      apply load_Some in H; destruct H as [? ?]; subst
  | H : store _ _ _ = Some _ |- _ =>
      apply store_Some in H; destruct H as [_ ->];
      cbn [heap trace with_heap] in *
  end.

(** ** Server credentials *)

Lemma ssl_build_server_config_request root pairs n request cfg0 st cfg st' :
  ssl_build_server_config root pairs n request cfg0 st = Some (cfg, st') ->
  client_certificate_request cfg = request.
Proof.
  unfold ssl_build_server_config. intros H. inv_run. reflexivity.
Qed.

Lemma grpc_ssl_server_credentials_create_ex_request
    root pairs n request reserved st r st' :
  grpc_ssl_server_credentials_create_ex root pairs n request reserved st
    = Some (r, st') ->
  exists c sc,
    r = Some c /\
    heap st' !! c = Some (BSslServerCredentials sc) /\
    server_refcount (server_base sc) = 1 /\
    client_certificate_request (server_config sc) = request.
Proof.
  unfold grpc_ssl_server_credentials_create_ex. intros H. inv_run.
  match goal with
  | Hb : ssl_build_server_config _ _ _ _ _ _ = Some _ |- _ =>
      apply ssl_build_server_config_request in Hb
  end.
  eexists _, _. split; [reflexivity |]. simpl.
  rewrite lookup_insert_eq. eauto.
Qed.

(** C10.  The boolean entry point is the extended one at the mode "request
    and require client certificate and verify" when [force_client_auth] is
    not zero and at "don't request client certificate" when it is zero;
    every credential it returns carries one of these two modes. *)
Theorem C10_server_credentials_create_refines_ex
    (root : ptr) (pairs : option (list grpc_ssl_pem_key_cert_pair))
    (n : nat) (force_client_auth : Z) (reserved : ptr) :
  (force_client_auth <> 0 ->
   grpc_ssl_server_credentials_create root pairs n force_client_auth reserved
   = grpc_ssl_server_credentials_create_ex root pairs n
       GRPC_SSL_REQUEST_AND_REQUIRE_CLIENT_CERTIFICATE_AND_VERIFY reserved) /\
  (force_client_auth = 0 ->
   grpc_ssl_server_credentials_create root pairs n force_client_auth reserved
   = grpc_ssl_server_credentials_create_ex root pairs n
       GRPC_SSL_DONT_REQUEST_CLIENT_CERTIFICATE reserved) /\
  (forall st r st',
     grpc_ssl_server_credentials_create root pairs n force_client_auth
       reserved st = Some (r, st') ->
     exists c sc,
       r = Some c /\
       heap st' !! c = Some (BSslServerCredentials sc) /\
       (client_certificate_request (server_config sc)
          = GRPC_SSL_REQUEST_AND_REQUIRE_CLIENT_CERTIFICATE_AND_VERIFY \/
        client_certificate_request (server_config sc)
          = GRPC_SSL_DONT_REQUEST_CLIENT_CERTIFICATE)).
Proof.
  unfold grpc_ssl_server_credentials_create.
  split; [| split].
  - intros Hne. apply Z.eqb_neq in Hne. by rewrite Hne.
  - intros ->. reflexivity.
  - intros st r st' H.
    apply grpc_ssl_server_credentials_create_ex_request in H
      as (c & sc & -> & Hc & _ & Hreq).
    exists c, sc. split; [reflexivity |]. split; [exact Hc |].
    rewrite Hreq. destruct (force_client_auth =? 0); auto.
Qed.

Lemma C10_server_credentials_create_witness :
  (grpc_ssl_server_credentials_create (Some 1%positive) server_example_pairs
     1 7 None
   = grpc_ssl_server_credentials_create_ex (Some 1%positive)
       server_example_pairs 1
       GRPC_SSL_REQUEST_AND_REQUIRE_CLIENT_CERTIFICATE_AND_VERIFY None) /\
  (grpc_ssl_server_credentials_create (Some 1%positive) server_example_pairs
     1 0 None
   = grpc_ssl_server_credentials_create_ex (Some 1%positive)
       server_example_pairs 1
       GRPC_SSL_DONT_REQUEST_CLIENT_CERTIFICATE None) /\
  (exists r st', server_example_run = Some (r, st') /\
     exists c sc,
       r = Some c /\
       heap st' !! c = Some (BSslServerCredentials sc) /\
       (client_certificate_request (server_config sc)
          = GRPC_SSL_REQUEST_AND_REQUIRE_CLIENT_CERTIFICATE_AND_VERIFY \/
        client_certificate_request (server_config sc)
          = GRPC_SSL_DONT_REQUEST_CLIENT_CERTIFICATE)).
Proof.
  destruct (C10_server_credentials_create_refines_ex (Some 1%positive)
              server_example_pairs 1 7 None) as (Hforce & _ & Hmode).
  destruct (C10_server_credentials_create_refines_ex (Some 1%positive)
              server_example_pairs 1 0 None) as (_ & Hdont & _).
  split; [apply Hforce; lia |]. split; [apply Hdont; reflexivity |].
  destruct server_example_run as [[r st']|] eqn:E;
    [| vm_compute in E; discriminate E].
  exists r, st'. split; [reflexivity |]. exact (Hmode server_example_state r st' E).
Defined.

(** ** The security-connector hook *)

Section ConnectorProperties.

Variables (override_arg scheme_arg : string) (connector : Type).

Variable connector_create :
  grpc_ssl_credentials -> ptr -> grpc_ssl_config -> string ->
  option string -> grpc_security_status * option connector.

(** The collaborator hands out no connector when it reports a failure. *)
Hypothesis connector_create_failure :
  forall c call_creds cfg target overridden,
    fst (connector_create c call_creds cfg target overridden)
      <> GRPC_SECURITY_OK ->
    snd (connector_create c call_creds cfg target overridden) = None.

Lemma scan_target_name_override_first (args : list grpc_arg) :
  first_string_entry override_arg args
    (scan_target_name_override override_arg args).
Proof.
  induction args as [|a rest IH]; simpl.
  - intros j b s' Hj. rewrite lookup_nil in Hj. discriminate.
  - unfold strcmp_eq.
    destruct (String.eqb (key a) override_arg) eqn:Hk.
    + apply String.eqb_eq in Hk.
      destruct (value a) as [s|z|p] eqn:Hv.
      * exists 0%nat, a. repeat split; auto. intros j b s' Hlt. lia.
      * destruct (scan_target_name_override override_arg rest) as [s|];
          simpl in IH |- *.
        -- destruct IH as (i & a' & Hi & Hka & Hva & Hmin).
           exists (S i), a'. repeat split; auto.
           intros [|j] b s' Hlt Hb Hkb; simpl in Hb.
           ++ injection Hb as <-. rewrite Hv. discriminate.
           ++ apply (Hmin j b s'); auto. lia.
        -- intros [|j] b s' Hb Hkb; simpl in Hb.
           ++ injection Hb as <-. rewrite Hv. discriminate.
           ++ apply (IH j b s'); auto.
      * destruct (scan_target_name_override override_arg rest) as [s|];
          simpl in IH |- *.
        -- destruct IH as (i & a' & Hi & Hka & Hva & Hmin).
           exists (S i), a'. repeat split; auto.
           intros [|j] b s' Hlt Hb Hkb; simpl in Hb.
           ++ injection Hb as <-. rewrite Hv. discriminate.
           ++ apply (Hmin j b s'); auto. lia.
        -- intros [|j] b s' Hb Hkb; simpl in Hb.
           ++ injection Hb as <-. rewrite Hv. discriminate.
           ++ apply (IH j b s'); auto.
    + apply String.eqb_neq in Hk.
      destruct (scan_target_name_override override_arg rest) as [s|];
        simpl in IH |- *.
      * destruct IH as (i & a' & Hi & Hka & Hva & Hmin).
        exists (S i), a'. repeat split; auto.
        intros [|j] b s' Hlt Hb Hkb; simpl in Hb.
        -- injection Hb as <-. contradiction.
        -- apply (Hmin j b s'); auto. lia.
      * intros [|j] b s' Hb Hkb; simpl in Hb.
        -- injection Hb as <-. contradiction.
        -- apply (IH j b s'); auto.
Qed.

(** C5.  The hook hands to the connector-creation collaborator the
    string of the first string-typed target-name-override entry of the
    channel arguments (nothing when there is none).  When the
    collaborator answers OK, the hook returns OK, the connector, and the
    input arguments followed by the one scheme argument "https"; when it
    answers anything else, the hook returns that status, no connector
    and no new argument set. *)
Theorem C5_create_security_connector
    (c : grpc_ssl_credentials) (call_creds : ptr) (target : string)
    (args : option (list grpc_arg)) :
  exists overridden : option string,
    first_string_entry override_arg (default [] args) overridden /\
    let answer :=
      connector_create c call_creds (config c) target overridden in
    let hook :=
      ssl_create_security_connector override_arg scheme_arg connector
        connector_create c call_creds target args in
    (fst answer = GRPC_SECURITY_OK ->
     hook = (GRPC_SECURITY_OK, snd answer,
             Some (default [] args
                   ++ [ {| key := scheme_arg;
                           value := GRPC_ARG_STRING "https" |} ]))) /\
    (fst answer <> GRPC_SECURITY_OK ->
     hook = (fst answer, None, None)).
Proof.
  exists (match args with
          | Some a => scan_target_name_override override_arg a
          | None => None
          end).
  split.
  - destruct args as [a|]; simpl.
    + apply scan_target_name_override_first.
    + intros j b s' Hj. rewrite lookup_nil in Hj. discriminate.
  - unfold ssl_create_security_connector.
    set (ov := match args with
               | Some a => scan_target_name_override override_arg a
               | None => None
               end).
    pose proof (connector_create_failure c call_creds (config c) target ov)
      as Hfail.
    destruct (connector_create c call_creds (config c) target ov)
      as [status sc]; simpl in *.
    split.
    + intros ->. destruct args; reflexivity.
    + intros Hne. rewrite (Hfail Hne).
      destruct status; [contradiction | reflexivity].
Qed.

End ConnectorProperties.

Lemma C5_create_security_connector_witness :
  exists overridden : option string,
    first_string_entry "grpc.ssl_target_name_override"
      sample_channel_args overridden /\
    let answer :=
      sample_connector_create sample_ssl_credentials None
        (config sample_ssl_credentials) "10.0.0.1:443" overridden in
    let hook :=
      ssl_create_security_connector "grpc.ssl_target_name_override"
        "grpc.http2_scheme" string sample_connector_create
        sample_ssl_credentials None "10.0.0.1:443"
        (Some sample_channel_args) in
    (fst answer = GRPC_SECURITY_OK ->
     hook = (GRPC_SECURITY_OK, snd answer,
             Some (sample_channel_args
                   ++ [ {| key := "grpc.http2_scheme";
                           value := GRPC_ARG_STRING "https" |} ]))) /\
    (fst answer <> GRPC_SECURITY_OK ->
     hook = (fst answer, None, None)).
Proof.
  refine (C5_create_security_connector "grpc.ssl_target_name_override"
            "grpc.http2_scheme" string sample_connector_create _
            sample_ssl_credentials None "10.0.0.1:443"
            (Some sample_channel_args)).
  intros c call_creds cfg target overridden.
  unfold sample_connector_create.
  destruct (String.eqb (default target overridden) ""); simpl.
  - reflexivity.
  - intros H. contradiction.
Defined.

Example ssl_create_security_connector_sample :
  ssl_create_security_connector "grpc.ssl_target_name_override"
    "grpc.http2_scheme" string sample_connector_create
    sample_ssl_credentials None "10.0.0.1:443" (Some sample_channel_args)
  = (GRPC_SECURITY_OK, Some "pinned.example",
     Some (sample_channel_args
           ++ [ {| key := "grpc.http2_scheme";
                   value := GRPC_ARG_STRING "https" |} ])).
Proof. reflexivity. Qed.

(** ** The peer verification bridge *)

(** C2.  With a live bridge behind [userdata], the wrapper calls the
    wrapped function once, with the server name and the certificate in this
    order, a missing one as [null] and a present one as its string; it
    leaves the heap as it was and returns 1 when the function threw and 0
    when it returned. *)
Theorem C2_verify_peer_callback_wrapper
    (js_apply : js_function -> list JsValue -> CallOutcome)
    (servername cert : option string) (md cb : loc) (f : js_function)
    (st : State) :
  heap st !! md = Some (BCallbackMd (Some cb)) ->
  heap st !! cb = Some (BNanCallback f) ->
  exists result : Z,
    verify_peer_callback_wrapper js_apply servername cert (Some md) st
    = Some (result,
            {| heap := heap st;
               trace := trace st
                        ++ [EvJsCall f [marshal servername; marshal cert]] |})
    /\ (forall exception,
          js_apply f [marshal servername; marshal cert] = CallThrew exception ->
          result = 1)
    /\ (forall returned,
          js_apply f [marshal servername; marshal cert] = CallReturned returned ->
          result = 0).
Proof.
  intros Hmd Hcb.
  unfold verify_peer_callback_wrapper, Callback_Call, bind, load, log, ret.
  rewrite Hmd, Hcb. fold (marshal servername) (marshal cert).
  destruct (js_apply f [marshal servername; marshal cert]) as [v|e] eqn:Hcall.
  - exists 0. split; [reflexivity |]. split; [discriminate | reflexivity].
  - exists 1. split; [reflexivity |]. split; [reflexivity | discriminate].
Qed.

Lemma C2_verify_peer_callback_wrapper_witness :
  exists result : Z,
    verify_peer_callback_wrapper sample_js_apply None None (Some 4%positive)
      bridge_example_state
    = Some (result,
            {| heap := heap bridge_example_state;
               trace := trace bridge_example_state
                        ++ [EvJsCall 7%positive [marshal None; marshal None]] |})
    /\ (forall exception,
          sample_js_apply 7%positive [marshal None; marshal None]
            = CallThrew exception ->
          result = 1)
    /\ (forall returned,
          sample_js_apply 7%positive [marshal None; marshal None]
            = CallReturned returned ->
          result = 0).
Proof.
  apply (C2_verify_peer_callback_wrapper sample_js_apply None None
           4%positive 5%positive 7%positive bridge_example_state);
    reflexivity.
Defined.

Example verify_peer_callback_wrapper_accepts :
  verify_peer_callback_wrapper sample_js_apply (Some "example.com")
    (Some "CERT") (Some 4%positive) bridge_example_state
  = Some (0, {| heap := heap bridge_example_state;
                trace := [EvJsCall 7%positive
                            [JsString "example.com"; JsString "CERT"]] |}).
Proof. reflexivity. Qed.

Example verify_peer_callback_wrapper_null_is_not_empty :
  verify_peer_callback_wrapper sample_js_apply None None (Some 4%positive)
    bridge_example_state
  = Some (1, {| heap := heap bridge_example_state;
                trace := [EvJsCall 7%positive [JsNull; JsNull]] |})
  /\ marshal None <> marshal (Some "").
Proof. split; [reflexivity | discriminate]. Qed.

(** ** Insecure credentials and composition *)

Lemma Compose_on_native_credential this info st r st' :
  wrapped_credentials_of this <> None ->
  Compose this info st = Some (r, st') ->
  r <> Thrown (TypeError "Cannot compose insecure credential").
Proof.
  intros Hw. unfold Compose.
  destruct (negb (ChannelCredentials_HasInstance this)).
  { intros H; inv_run. discriminate. }
  destruct (negb (CallCredentials_HasInstance (info_at info 0))).
  { intros H; inv_run. discriminate. }
  destruct (wrapped_credentials_of this) as [p|] eqn:Hp; [| contradiction].
  simpl. intros H. inv_run.
  match goal with
  | Hr : (match ?x with Some _ => _ | None => _ end) _ = Some _ |- _ =>
      destruct x; inv_run; discriminate
  end.
Qed.

(** C9.  [CreateInsecure] always returns the wrapper that [WrapStruct]
    builds around the null pointer, and touches nothing; reading the wrapped
    pointer of that wrapper gives null.  For a call credential as argument,
    [Compose] on the wrapper built around a pointer [p] throws "Cannot
    compose insecure credential" exactly when [p] is null; and, on any
    receiver of the class, exactly when the pointer that
    [GetWrappedCredentials] reads from it is null. *)
Theorem C9_insecure_is_null_wrapper :
  (forall info st,
     CreateInsecure info st = Some (Returned (WrapStruct None), st) /\
     ChannelCredentials_HasInstance (WrapStruct None) = true /\
     GetWrappedCredentials (WrapStruct None) = None) /\
  (forall p info st,
     CallCredentials_HasInstance (info_at info 0) = true ->
     (Compose (WrapStruct p) info st
        = Some (Thrown (TypeError "Cannot compose insecure credential"), st)
      <-> p = None)) /\
  (forall this info st,
     ChannelCredentials_HasInstance this = true ->
     CallCredentials_HasInstance (info_at info 0) = true ->
     (Compose this info st
        = Some (Thrown (TypeError "Cannot compose insecure credential"), st)
      <-> GetWrappedCredentials this = None)).
Proof.
  assert (Hany : forall this info st,
             ChannelCredentials_HasInstance this = true ->
             CallCredentials_HasInstance (info_at info 0) = true ->
             (Compose this info st
              = Some (Thrown (TypeError "Cannot compose insecure credential"),
                      st)
              <-> GetWrappedCredentials this = None)).
  { intros this info st Hthis Harg. split.
    - intros H.
      destruct (GetWrappedCredentials this) as [p|] eqn:Hp; [| reflexivity].
      exfalso. eapply Compose_on_native_credential; [| exact H | reflexivity].
      unfold GetWrappedCredentials in Hp. rewrite Hp. discriminate.
    - intros Hnull. unfold Compose, GetWrappedCredentials in *.
      rewrite Hthis, Harg, Hnull. reflexivity. }
  split; [| split].
  - intros info st. repeat split.
  - intros p info st Harg.
    exact (Hany (WrapStruct p) info st eq_refl Harg).
  - exact Hany.
Qed.

Lemma C9_insecure_is_null_wrapper_witness :
  CreateInsecure [] compose_example_state
    = Some (Returned (WrapStruct None), compose_example_state) /\
  Compose (WrapStruct None) [sample_call_credential] compose_example_state
    = Some (Thrown (TypeError "Cannot compose insecure credential"),
            compose_example_state) /\
  Compose (WrapStruct (Some 3%positive)) [sample_call_credential]
    compose_example_state
    <> Some (Thrown (TypeError "Cannot compose insecure credential"),
             compose_example_state).
Proof.
  destruct C9_insecure_is_null_wrapper as (Hcreate & Hwrap & _).
  split; [apply Hcreate |]. split.
  - apply (Hwrap None [sample_call_credential] compose_example_state);
      reflexivity.
  - intros H.
    apply (Hwrap (Some 3%positive) [sample_call_credential]
             compose_example_state) in H; [discriminate H | reflexivity].
Defined.

(** C4, the claim as it is written, at the insecure credential and a valid
    call credential: the call does throw, but the message is not the one the
    claim quotes. *)
Lemma C4_compose_insecure_message_counterexample :
  ~ (exists e,
       Compose insecure_credential [sample_call_credential]
         compose_example_state
       = Some (Thrown e, compose_example_state) /\
       error_message e = "cannot compose insecure credential").
Proof.
  intros (e & Hrun & Hmsg). vm_compute in Hrun.
  injection Hrun as <-. discriminate Hmsg.
Qed.

(** C4, amended.  Composing onto a wrapper of the null pointer with a call
    credential as first argument throws the TypeError "Cannot compose
    insecure credential" and leaves the state as it was; with a first
    argument that is not a call credential, composing throws a TypeError
    before anything is built and leaves the state as it was. *)
Theorem C4_compose_rejections (this : JsValue) (info : list JsValue)
    (st : State) :
  ChannelCredentials_HasInstance this = true ->
  (CallCredentials_HasInstance (info_at info 0) = true ->
   GetWrappedCredentials this = None ->
   Compose this info st
   = Some (Thrown (TypeError "Cannot compose insecure credential"), st)) /\
  (CallCredentials_HasInstance (info_at info 0) = false ->
   Compose this info st
   = Some (Thrown (TypeError
             "compose's first argument must be a CallCredentials object"),
           st)).
Proof.
  intros Hthis. unfold Compose, GetWrappedCredentials. rewrite Hthis. simpl.
  split.
  - intros -> ->. reflexivity.
  - intros ->. reflexivity.
Qed.

Lemma C4_compose_rejections_witness :
  Compose insecure_credential [sample_call_credential] compose_example_state
  = Some (Thrown (TypeError "Cannot compose insecure credential"),
          compose_example_state)
  /\
  Compose insecure_credential [JsNumber 3] compose_example_state
  = Some (Thrown (TypeError
            "compose's first argument must be a CallCredentials object"),
          compose_example_state).
Proof.
  split.
  - apply (C4_compose_rejections insecure_credential
             [sample_call_credential] compose_example_state);
      reflexivity.
  - apply (C4_compose_rejections insecure_credential [JsNumber 3]
             compose_example_state); reflexivity.
Defined.

(** ** Building the SSL configuration *)

Lemma c_str_terminated bs s : c_str bs = Some s -> c_str (s ++ [x00]) = Some s.
Proof.
  revert s. induction bs as [|b rest IH]; simpl; [discriminate |].
  intros s. destruct (Byte.eqb b x00) eqn:Hb.
  - intros [= <-]. reflexivity.
  - destruct (c_str rest) as [s0|]; [| discriminate].
    intros [= <-]. simpl. rewrite Hb, (IH s0 eq_refl). reflexivity.
Qed.

Lemma gpr_strdup_Some src st r st' :
  gpr_strdup (Some src) st = Some (r, st') ->
  exists bs s d,
    heap st !! src = Some (BBytes bs) /\ c_str bs = Some s /\
    r = Some d /\ heap st !! d = None /\
    st' = with_heap (<[d := BBytes (s ++ [x00])]> (heap st)) st.
Proof.
  unfold gpr_strdup. intros H. inv_run.
  destruct x as [bs| | | | | | |]; try discriminate.
  destruct (c_str bs) as [s|] eqn:Hs; [| discriminate].
  inv_run. eauto 10.
Qed.

(** Facts about lookups in a heap built by insertions. *)
Ltac heap_facts :=
  repeat match goal with
  | H : is_Some (_ !! _) |- _ => destruct H as [? H]
  | H : <[_ := _]> _ !! _ = None |- _ =>
      apply lookup_insert_None in H; destruct H
  | H : <[_ := _]> _ !! _ = Some _ |- _ =>
      apply lookup_insert_Some in H;
      destruct H as [[? ?]|[? ?]]; [subst; try congruence |]
  end.

Ltac inv_create :=
  inv_run;
  repeat match goal with
  | H : gpr_strdup (Some _) _ = Some _ |- _ =>
      apply gpr_strdup_Some in H as (? & ? & ? & ? & ? & -> & ? & ->);
      cbn [heap trace with_heap] in *
  | H : negb (is_null ?p) = true |- _ => destruct p; [clear H | discriminate H]
  end.

(** Lookups in a heap built by insertions over distinct locations. *)
Ltac lookups :=
  repeat first [ rewrite lookup_insert_eq
               | rewrite lookup_insert_ne by congruence ].

Ltac lookups_in H :=
  repeat first [ rewrite lookup_insert_eq in H
               | rewrite lookup_insert_ne in H by congruence ].

Ltac distinct_from :=
  repeat (apply not_elem_of_cons; split; [congruence |]);
  apply not_elem_of_nil.

(** Rewrites the strings that are known to sit behind a location. *)
Ltac known_strings :=
  repeat match goal with
  | Hc : c_str ?bs = Some ?s |- context [c_str (?s ++ [x00])] =>
      rewrite (c_str_terminated bs s Hc)
  | Hh : heap ?s !! ?l = Some (BBytes _) |- context [heap ?s !! ?l] =>
      rewrite Hh
  | Hc : c_str ?bs = Some _ |- context [c_str ?bs] => rewrite Hc
  end.

Ltac is_Some_iff :=
  split; intros Hs;
  first [ eexists; reflexivity | destruct Hs as [? Hs]; discriminate Hs ].

Lemma string_at_copy (h : gmap positive block) d s bs :
  h !! d = Some (BBytes (s ++ [x00])) -> c_str bs = Some s ->
  string_at h d = Some s.
Proof.
  intros Hd Hs. unfold string_at. rewrite Hd. eapply c_str_terminated, Hs.
Qed.

Lemma grpc_ssl_credentials_create_spec root pair options reserved st r st' :
  live (heap st) root -> pair_live (heap st) pair ->
  grpc_ssl_credentials_create root pair options reserved st = Some (r, st') ->
  exists c cr,
    r = Some c /\ heap st !! c = None /\ trace st' = trace st /\
    preserves st st' /\
    heap st' !! c = Some (BSslCredentials cr) /\
    base cr = {| type := GRPC_CHANNEL_CREDENTIALS_TYPE_SSL;
                 vtable := ssl_vtable; refcount := 1 |} /\
    verify_options (config cr) = default zero_verify_peer_options options /\
    well_formed_config (heap st') (config cr) /\
    (is_Some root <-> is_Some (pem_root_certs (config cr))) /\
    (is_Some pair <-> is_Some (pem_key_cert_pair (config cr))) /\
    (forall l, l ∈ owned_buffers (heap st') (config cr) ->
               heap st !! l = None /\ l <> c) /\
    (forall h2, (forall l, heap st !! l = None -> h2 !! l = heap st' !! l) ->
                stored_config h2 (Some c)
                = Some (snapshot_of (heap st) root pair)) /\
    (is_Some root ->
     is_Some (stored_root_certs (snapshot_of (heap st) root pair))) /\
    (is_Some pair ->
     is_Some (stored_key_cert_pair (snapshot_of (heap st) root pair))).
Proof.
  intros Hroot Hpair H.
  unfold grpc_ssl_credentials_create, ssl_build_config in H.
  destruct root as [root|], pair as [[k ch]|], options as [vo|];
    cbn [live pair_live private_key cert_chain] in *;
    inv_create; cbn [live] in *; heap_facts.
  all: try (destruct Hpair; heap_facts).
  all: try congruence.
  all: eexists _, _;
    cbn [heap trace with_heap pem_root_certs pem_key_cert_pair verify_options
         config base zero_ssl_config default];
    (split; [reflexivity |]); (split; [assumption |]);
    (split; [reflexivity |]).
  all: split; [intros l b Hl; cbn [heap with_heap];
               repeat (rewrite lookup_insert_ne by congruence); exact Hl |].
  all: split; [apply lookup_insert_eq |].
  all: split; [reflexivity |]; split; [reflexivity |].
  all: cbn [config pem_root_certs pem_key_cert_pair].
  all: split;
    [ unfold well_formed_config, owned_buffers;
      cbn [pem_root_certs pem_key_cert_pair]; lookups;
      cbn [flat_map option_to_list app tsi_private_key tsi_cert_chain];
      split; [repeat (apply NoDup_cons; split; [distinct_from |]);
              apply NoDup_nil |];
      split; [intros l Hl;
              repeat (apply elem_of_cons in Hl as [->|Hl]);
              try (by apply elem_of_nil in Hl); lookups; eauto
             | try exact I; try (eexists; lookups; reflexivity) ] |].
  all: split; [is_Some_iff |].
  all: split; [is_Some_iff |].
  all: split;
    [ intros l Hl; unfold owned_buffers in Hl;
      cbn [pem_root_certs pem_key_cert_pair] in Hl; lookups_in Hl;
      cbn [flat_map option_to_list app tsi_private_key tsi_cert_chain] in Hl;
      repeat (apply elem_of_cons in Hl as [->|Hl]);
      first [ by apply elem_of_nil in Hl | by split; [| congruence] ] |].
  all: split;
    [ intros h2 Hagree;
      unfold stored_config, snapshot_of, caller_string, string_at;
      cbn [private_key cert_chain];
      repeat (rewrite Hagree by assumption; lookups;
              cbn [config pem_root_certs pem_key_cert_pair tsi_private_key
                   tsi_cert_chain]);
      known_strings; reflexivity |].
  all: unfold snapshot_of, caller_string, string_at;
    cbn [private_key cert_chain stored_root_certs stored_key_cert_pair];
    known_strings;
    split; intros Hs;
    first [ eexists; reflexivity | destruct Hs as [? Hs]; discriminate Hs ].
Qed.

(** ** Destruction of SSL credentials *)

Ltac lookups_deleted :=
  repeat first [ rewrite lookup_delete_eq
               | rewrite lookup_delete_ne by congruence ].

Lemma lookup_head {A} (x : A) (l : list A) : (x :: l) !! 0%nat = Some x.
Proof. reflexivity. Qed.

(** A run in a heap whose lookups are known, one lookup after the other. *)
Ltac run_known :=
  repeat (unfold bind, ret, load, log, gpr_free, delete_object, abort;
          cbn [heap trace with_heap key_cert_pairs_free tsi_private_key
               tsi_cert_chain config pem_root_certs pem_key_cert_pair
               verify_options verify_peer_destruct
               verify_peer_callback_userdata];
          rewrite ?lookup_head;
          lookups_deleted;
          try match goal with
              | H : ?h !! ?l = Some _ |- context [?h !! ?l] => rewrite H
              end).

Lemma ssl_destruct_spec c cr st :
  heap st !! c = Some (BSslCredentials cr) ->
  well_formed_config (heap st) (config cr) ->
  c ∉ owned_buffers (heap st) (config cr) ->
  teardown_callable (heap st) (verify_options (config cr)) ->
  (forall md cb,
     verify_peer_destruct (verify_options (config cr))
       = Some node_verify_peer_callback_destruct ->
     verify_peer_callback_userdata (verify_options (config cr)) = Some md ->
     heap st !! md = Some (BCallbackMd (Some cb)) ->
     (md ∉ owned_buffers (heap st) (config cr)) /\
     (cb ∉ owned_buffers (heap st) (config cr))) ->
  exists st',
    ssl_destruct c st = Some (tt, st') /\
    (forall l, l ∈ owned_buffers (heap st) (config cr) ->
               heap st' !! l = None) /\
    heap st' !! c = Some (BSslCredentials cr) /\
    trace st' = trace st ++ teardown_events (verify_options (config cr)).
Proof.
  intros Hc (Hnd & Hlive & Hpair) Hc_out Hready Hapart.
  destruct cr as [b [rootp pairp [vcb ud fn skip]]].
  unfold ssl_destruct, grpc_tsi_ssl_pem_key_cert_pairs_destroy,
    teardown_callable, teardown_events, call_verify_peer_destruct,
    verify_peer_callback_destruct, node_bridge_at, owned_buffers in *.
  cbn [config pem_root_certs pem_key_cert_pair verify_options] in *.
  destruct pairp as [p|];
    [destruct Hpair as [[dk dc] Hp]; rewrite Hp in *|].
  all: cbn [verify_peer_destruct verify_peer_callback_userdata] in *.
  all: destruct fn as [[|id]|];
    [ destruct Hready as (md & cb & f & -> & Hmd & Hcb);
      destruct (Hapart md cb eq_refl eq_refl Hmd) as [Hmd_out Hcb_out] | | ].
  all: clear Hapart; apply Forall_forall in Hlive.
  all: destruct rootp as [d|]; try destruct dk as [dk|]; try destruct dc as [dc|].
  all: cbn [flat_map option_to_list app tsi_private_key tsi_cert_chain] in *.
  all: rewrite ?NoDup_cons, ?not_elem_of_cons, ?Forall_cons in *.
  all: destruct_and?.
  all: repeat match goal with H : is_Some (_ !! _) |- _ => destruct H as [? H] end.
  all: eexists.
  all: split; [run_known; reflexivity |].
  all: cbn [heap trace with_heap].
  all: split;
    [ intros l Hl; repeat (apply elem_of_cons in Hl as [->|Hl]);
      first [ by apply elem_of_nil in Hl | lookups_deleted; reflexivity ] |].
  all: split; [lookups_deleted; exact Hc |].
  all: rewrite ?app_nil_r; reflexivity.
Qed.

Lemma teardown_count_app t1 t2 :
  teardown_count (t1 ++ t2) = (teardown_count t1 + teardown_count t2)%nat.
Proof.
  unfold teardown_count. rewrite List.filter_app. apply length_app.
Qed.

(** C7.  A credential that [grpc_ssl_credentials_create] returns has
    reference count 1 and the SSL vtable.  Its destruct hook returns, after
    it every block the configuration owned (root certificates, the pair and
    its two strings) is freed, and it calls the teardown hook of the
    verification options once when that hook is set and not at all when it
    is null. *)
Theorem C7_created_credential_and_its_destruct_hook
    (root : ptr) (pair : option grpc_ssl_pem_key_cert_pair)
    (options : option verify_peer_options) (st : State) (r : ptr)
    (st' : State) :
  live (heap st) root ->
  pair_live (heap st) pair ->
  teardown_callable (heap st) (default zero_verify_peer_options options) ->
  grpc_ssl_credentials_create root pair options None st = Some (r, st') ->
  exists c cr,
    r = Some c /\
    heap st' !! c = Some (BSslCredentials cr) /\
    refcount (base cr) = 1 /\
    vtable (base cr) = ssl_vtable /\
    verify_options (config cr) = default zero_verify_peer_options options /\
    (is_Some root <-> is_Some (pem_root_certs (config cr))) /\
    (is_Some pair <-> is_Some (pem_key_cert_pair (config cr))) /\
    (forall l, l ∈ owned_buffers (heap st') (config cr) ->
               is_Some (heap st' !! l)) /\
    exists st'',
      vtable_destruct (vtable (base cr)) c st' = Some (tt, st'') /\
      (forall l, l ∈ owned_buffers (heap st') (config cr) ->
                 heap st'' !! l = None) /\
      (verify_peer_destruct (verify_options (config cr)) = None ->
       trace st'' = trace st') /\
      (forall fn,
         verify_peer_destruct (verify_options (config cr)) = Some fn ->
         trace st'' =
           trace st'
           ++ [EvVerifyPeerDestruct fn
                 (verify_peer_callback_userdata (verify_options (config cr)))]
         /\ teardown_count (trace st'') = S (teardown_count (trace st'))).
Proof.
  intros Hroot Hpair Hready Hrun.
  destruct (grpc_ssl_credentials_create_spec _ _ _ _ _ _ _ Hroot Hpair Hrun)
    as (c & cr & -> & Hfresh & Htrace & Hpres & Hc & Hbase & Hvo & Hwf
        & Hr & Hp & Hown & _ & _ & _).
  assert (Hcallable : teardown_callable (heap st') (verify_options (config cr))
                      /\ forall md cb,
                           verify_peer_destruct (verify_options (config cr))
                             = Some node_verify_peer_callback_destruct ->
                           verify_peer_callback_userdata
                             (verify_options (config cr)) = Some md ->
                           heap st' !! md = Some (BCallbackMd (Some cb)) ->
                           is_Some (heap st !! md) /\ is_Some (heap st !! cb)).
  { rewrite Hvo. unfold teardown_callable in *.
    destruct (verify_peer_destruct (default zero_verify_peer_options options))
      as [[|id]|]; try (split; [exact I | discriminate]).
    destruct Hready as (md & cb & f & Hud & Hmd & Hcb). split.
    - exists md, cb, f. split; [exact Hud |]. split; apply Hpres; assumption.
    - intros md' cb' _ Hud' Hmd'. rewrite Hud in Hud'. injection Hud' as <-.
      rewrite (Hpres _ _ Hmd) in Hmd'. injection Hmd' as <-. eauto. }
  destruct Hcallable as [Hcallable Hbridge].
  destruct (ssl_destruct_spec c cr st' Hc Hwf) as (st'' & Hd & Hfreed & _ & Ht).
  - intros Hin. apply Hown in Hin as [_ Hne]. congruence.
  - exact Hcallable.
  - intros md cb Hfn Hud Hmd.
    destruct (Hbridge md cb Hfn Hud Hmd) as [[? Hmd0] [? Hcb0]].
    split; intros Hin; apply Hown in Hin as [Hnone _]; congruence.
  - exists c, cr. rewrite Hbase. cbn [refcount vtable vtable_destruct].
    repeat (split; [first [reflexivity | assumption] |]).
    split; [apply Hwf |].
    exists st''. split; [exact Hd |]. split; [exact Hfreed |].
    unfold teardown_events in Ht. split.
    + intros Hnone. rewrite Hnone in Ht. rewrite Ht. apply app_nil_r.
    + intros fn Hfn. rewrite Hfn in Ht. split; [exact Ht |].
      rewrite Ht, teardown_count_app. cbn. lia.
Qed.

Lemma C7_created_credential_and_its_destruct_hook_witness :
  exists r st',
    create_example_run = Some (r, st') /\
    exists c cr,
      r = Some c /\
      heap st' !! c = Some (BSslCredentials cr) /\
      refcount (base cr) = 1 /\
      vtable (base cr) = ssl_vtable /\
      verify_options (config cr)
        = default zero_verify_peer_options (Some create_example_options) /\
      (is_Some (Some 1%positive) <-> is_Some (pem_root_certs (config cr))) /\
      (is_Some (Some create_example_pair)
         <-> is_Some (pem_key_cert_pair (config cr))) /\
      (forall l, l ∈ owned_buffers (heap st') (config cr) ->
                 is_Some (heap st' !! l)) /\
      exists st'',
        vtable_destruct (vtable (base cr)) c st' = Some (tt, st'') /\
        (forall l, l ∈ owned_buffers (heap st') (config cr) ->
                   heap st'' !! l = None) /\
        (verify_peer_destruct (verify_options (config cr)) = None ->
         trace st'' = trace st') /\
        (forall fn,
           verify_peer_destruct (verify_options (config cr)) = Some fn ->
           trace st'' =
             trace st'
             ++ [EvVerifyPeerDestruct fn
                   (verify_peer_callback_userdata
                      (verify_options (config cr)))]
           /\ teardown_count (trace st'') = S (teardown_count (trace st'))).
Proof.
  destruct create_example_run as [[r st']|] eqn:E;
    [| vm_compute in E; discriminate E].
  exists r, st'. split; [reflexivity |].
  apply (C7_created_credential_and_its_destruct_hook (Some 1%positive)
           (Some create_example_pair) (Some create_example_options)
           create_example_state r st').
  - eexists. reflexivity.
  - split; eexists; reflexivity.
  - exists 4%positive, 5%positive, 7%positive. repeat split; reflexivity.
  - exact E.
Defined.

Example ssl_destruct_sample :
  (creds <- grpc_ssl_credentials_create (Some 1%positive)
              (Some create_example_pair) (Some create_example_options) None ;;
   match creds with
   | Some c => ssl_destruct c ;;; ret (Some c)
   | None => ret None
   end) create_example_state
  = Some (Some 6%positive,
          {| heap := {[ 1%positive := BBytes ["R"%byte; x00];
                        2%positive := BBytes ["K"%byte; x00];
                        3%positive := BBytes ["C"%byte; x00];
                        6%positive :=
                          BSslCredentials
                            {| base := {| type := GRPC_CHANNEL_CREDENTIALS_TYPE_SSL;
                                          vtable := ssl_vtable;
                                          refcount := 1 |};
                               config :=
                                 {| pem_root_certs := Some 7%positive;
                                    pem_key_cert_pair := Some 8%positive;
                                    verify_options := create_example_options |} |} ]};
             trace := [EvVerifyPeerDestruct node_verify_peer_callback_destruct
                         (Some 4%positive)] |}).
Proof. vm_compute. reflexivity. Qed.

(** ** The option bag *)

Lemma preserves_refl st : preserves st st.
Proof. intros l b H. exact H. Qed.

Lemma preserves_trans st1 st2 st3 :
  preserves st1 st2 -> preserves st2 st3 -> preserves st1 st3.
Proof. intros H12 H23 l b H. apply H23, H12, H. Qed.


Lemma names_disjoint k :
  names_checkServerIdentity k = true ->
  names_insecureSkipHostnameVerify k = false.
Proof.
  destruct k as [s|n];
    unfold names_checkServerIdentity, names_insecureSkipHostnameVerify,
      strcmp_eq; [| reflexivity].
  intros H. apply String.eqb_eq in H. rewrite <- H. reflexivity.
Qed.

Lemma IsFunction_false_match {A} (v : JsValue) (a : js_function -> A) (b : A) :
  IsFunction v = false ->
  match v with
  | JsObject (FunctionObject f) _ => a f
  | _ => b
  end = b.
Proof. destruct v as [| | | | |[]]; simpl; congruence. Qed.

Lemma scan_option_bag_Some object props :
  forall vo st r st',
    scan_option_bag object props vo st = Some (r, st') ->
    preserves st st' /\ trace st' = trace st /\
    match r with
    | inl e =>
        InvalidArgument e /\ (exists msg, e = Error msg) /\
        exists k, k ∈ props /\ rejected_option object k
    | inr _ => forall k, k ∈ props -> ~ rejected_option object k
    end.
Proof.
  induction props as [|k rest IH]; intros vo st r st' Hrun.
  - cbn [scan_option_bag] in Hrun. inv_run.
    split; [apply preserves_refl |]. split; [reflexivity |].
    intros k Hk. by apply elem_of_nil in Hk.
  - cbn [scan_option_bag] in Hrun.
    assert (Hskip : forall vo' st1,
              preserves st st1 -> trace st1 = trace st ->
              ~ rejected_option object k ->
              scan_option_bag object rest vo' st1 = Some (r, st') ->
              preserves st st' /\ trace st' = trace st /\
              match r with
              | inl e =>
                  InvalidArgument e /\ (exists msg, e = Error msg) /\
                  exists k0, k0 ∈ k :: rest /\ rejected_option object k0
              | inr _ =>
                  forall k0, k0 ∈ k :: rest -> ~ rejected_option object k0
              end).
    { intros vo' st1 Hp Ht Hok Hrest.
      apply IH in Hrest as (Hp' & Ht' & Hr).
      split; [eapply preserves_trans; eassumption |].
      split; [congruence |].
      destruct r as [e|vo''].
      - destruct Hr as (Hia & Hmsg & k0 & Hk0 & Hrej).
        split; [exact Hia |]. split; [exact Hmsg |].
        exists k0. split; [apply elem_of_cons; auto | exact Hrej].
      - intros k0 Hk0. apply elem_of_cons in Hk0 as [-> | Hk0]; auto. }
    assert (Hstop : forall e,
              rejected_option object k -> InvalidArgument e ->
              (exists msg, e = Error msg) ->
              ret (inl e) st = Some (r, st') ->
              preserves st st' /\ trace st' = trace st /\
              match r with
              | inl e =>
                  InvalidArgument e /\ (exists msg, e = Error msg) /\
                  exists k0, k0 ∈ k :: rest /\ rejected_option object k0
              | inr _ =>
                  forall k0, k0 ∈ k :: rest -> ~ rejected_option object k0
              end).
    { intros e Hrej Hia Hmsg Hret. inv_run.
      split; [apply preserves_refl |]. split; [reflexivity |].
      split; [exact Hia |]. split; [exact Hmsg |].
      exists k. split; [apply elem_of_cons; auto | exact Hrej]. }
    destruct k as [keyStr|n].
    + destruct (strcmp_eq "checkServerIdentity" (utf8_c_str keyStr)) eqn:Hcheck.
      * destruct (Object_Get object (KeyString keyStr)) as [v|] eqn:Hget;
          [| discriminate Hrun].
        destruct (IsFunction v) eqn:Hfun.
        -- destruct v as [| | | | |[| |f| | |] ps]; try discriminate Hfun.
           apply bind_Some in Hrun as (md & st1 & Hmd & Hrun).
           apply bind_Some in Hrun as (cb & st2 & Hcb & Hrun).
           apply bind_Some in Hrun as (u & st3 & Hst & Hrun).
           inv_run.
           eapply Hskip; [| | | exact Hrun].
           ++ intros l b Hl. cbn [heap with_heap].
              assert (is_Some (heap st !! l)) by eauto. heap_facts.
              rewrite !lookup_insert_ne by congruence. assumption.
           ++ reflexivity.
           ++ intros (v & Hv & [[_ Hbad] | [Hname _]]).
              ** rewrite Hget in Hv. injection Hv as <-. discriminate Hbad.
              ** pose proof (names_disjoint (KeyString keyStr) Hcheck) as Hd.
                 congruence.
        -- rewrite (IsFunction_false_match _ _ _ Hfun) in Hrun.
           eapply Hstop; [| constructor | eauto | exact Hrun].
           exists v. split; [exact Hget |]. left. split; assumption.
      * destruct (strcmp_eq "insecureSkipHostnameVerify" (utf8_c_str keyStr))
          eqn:Hskipname.
        -- destruct (Object_Get object (KeyString keyStr)) as [v|] eqn:Hget;
             [| discriminate Hrun].
           destruct (IsBoolean v) eqn:Hbool; cbn [negb] in Hrun.
           ++ eapply Hskip; [apply preserves_refl | reflexivity | | exact Hrun].
              intros (v' & Hv & [[Hname _] | [_ Hbad]]).
              ** unfold names_checkServerIdentity in Hname. congruence.
              ** rewrite Hget in Hv. injection Hv as <-. congruence.
           ++ eapply Hstop; [| constructor | eauto | exact Hrun].
              exists v. split; [exact Hget |]. right. split; assumption.
        -- eapply Hskip; [apply preserves_refl | reflexivity | | exact Hrun].
           intros (v & _ & [[Hname _] | [Hname _]]);
             unfold names_checkServerIdentity,
               names_insecureSkipHostnameVerify in Hname;
             congruence.
    + eapply Hskip; [apply preserves_refl | reflexivity | | exact Hrun].
      intros (v & _ & [[Hname _] | [Hname _]]); discriminate Hname.
Qed.

Lemma scan_option_bag_runs object props :
  (forall k, k ∈ props -> recognised_key k = true ->
             is_Some (Object_Get object k)) ->
  forall vo st, exists r st', scan_option_bag object props vo st = Some (r, st').
Proof.
  induction props as [|k rest IH]; intros Hdel vo st.
  - eexists _, _. reflexivity.
  - assert (Hrest : forall k0, k0 ∈ rest -> recognised_key k0 = true ->
                               is_Some (Object_Get object k0)).
    { intros k0 Hk0. apply Hdel, elem_of_cons. auto. }
    specialize (IH Hrest).
    pose proof (Hdel k ltac:(apply elem_of_cons; auto)) as Hk.
    cbn [scan_option_bag].
    destruct k as [keyStr|n]; [| apply IH].
    unfold recognised_key, names_checkServerIdentity,
      names_insecureSkipHostnameVerify in Hk.
    destruct (strcmp_eq "checkServerIdentity" (utf8_c_str keyStr)).
    + destruct (Hk eq_refl) as [v ->].
      destruct v as [| | | | |[| |f| | |] ps];
        try (eexists _, _; reflexivity).
      unfold bind at 1 2 3, alloc, store. cbn [heap trace with_heap].
      rewrite lookup_insert_ne, lookup_insert_eq; [apply IH |].
      intros Heq.
      pose proof (fresh_not_live
        (<[fresh (dom (heap st)) := BCallbackMd None]> (heap st))) as Hf.
      rewrite Heq, lookup_insert_eq in Hf. discriminate Hf.
    + destruct (strcmp_eq "insecureSkipHostnameVerify" (utf8_c_str keyStr));
        [| apply IH].
      destruct (Hk eq_refl) as [v ->].
      destruct (negb (IsBoolean v)); [eexists _, _; reflexivity | apply IH].
Qed.

Lemma scan_option_bag_spec object props :
  (forall k, k ∈ props -> recognised_key k = true ->
             is_Some (Object_Get object k)) ->
  forall vo st,
  exists r st',
    scan_option_bag object props vo st = Some (r, st') /\
    preserves st st' /\ trace st' = trace st /\
    match r with
    | inl e =>
        InvalidArgument e /\ (exists msg, e = Error msg) /\
        exists k, k ∈ props /\ rejected_option object k
    | inr _ => forall k, k ∈ props -> ~ rejected_option object k
    end.
Proof.
  intros Hdel vo st.
  destruct (scan_option_bag_runs object props Hdel vo st) as (r & st' & Hrun).
  exists r, st'. split; [exact Hrun |].
  exact (scan_option_bag_Some _ _ _ _ _ _ Hrun).
Qed.

(** ** The bridge on the failure path of [CreateSsl] *)

(** C1, at the option bag [{checkServerIdentity: f,
    insecureSkipHostnameVerify: 1}]: the first entry allocates the bridge,
    the second one makes the call throw, and the call returns with the
    bridge still allocated, no teardown invoked, and no credential built
    that could invoke it later. *)
Theorem C1_bridge_not_torn_down_on_late_option_failure
    (f : js_function) (st : State) :
  exists md cb st',
    CreateSsl [JsNull; JsNull; JsNull; late_failure_options f] st
    = Some (Thrown (Error
              "Value of insecureSkipHostnameVerify must be a boolean."),
            st') /\
    heap st !! md = None /\
    heap st' !! md = Some (BCallbackMd (Some cb)) /\
    heap st' !! cb = Some (BNanCallback f) /\
    teardown_count (trace st') = teardown_count (trace st) /\
    (forall l cr, heap st' !! l = Some (BSslCredentials cr) ->
                  heap st !! l = Some (BSslCredentials cr)).
Proof.
  pose proof (fresh_not_live (heap st)) as Hmd.
  pose proof (fresh_not_live
                (<[fresh (dom (heap st)) := BCallbackMd None]> (heap st)))
    as Hcb.
  apply lookup_insert_None in Hcb as [Hcb Hne].
  exists (fresh (dom (heap st))),
         (fresh (dom (<[fresh (dom (heap st)) := BCallbackMd None]> (heap st)))).
  eexists. split.
  - unfold CreateSsl, late_failure_options. cbn.
    unfold bind, alloc, store, ret. cbn [heap trace with_heap].
    rewrite lookup_insert_ne, lookup_insert_eq by congruence.
    reflexivity.
  - cbn [heap trace with_heap].
    split; [exact Hmd |].
    split; [apply lookup_insert_eq |].
    split; [rewrite lookup_insert_ne, lookup_insert_eq by congruence;
            reflexivity |].
    split; [reflexivity |].
    intros l cr Hl.
    apply lookup_insert_Some in Hl as [[_ [=]] | [_ Hl]].
    apply lookup_insert_Some in Hl as [[_ [=]] | [_ Hl]].
    apply lookup_insert_Some in Hl as [[_ [=]] | [_ Hl]].
    exact Hl.
Qed.

(** ** Validation at the binding surface *)

Lemma buffer_check v :
  negb (Buffer_HasInstance v) && negb (IsNull v || IsUndefined v)
  = negb (buffer_or_absent v).
Proof. unfold buffer_or_absent, absent. symmetry. apply negb_orb. Qed.









(** ** Key and certificate chain go together *)



Lemma readable_preserved st st' p :
  preserves st st' -> readable (heap st) p -> readable (heap st') p.
Proof.
  intros Hp. destruct p as [l|]; [| exact id].
  intros (bs & s & Hl & Hs). exists bs, s. split; [apply Hp, Hl | exact Hs].
Qed.




(** ** Buffers are copied *)






(** The caller overwrites the root certificates and frees the private key
    after the call: the credential still reads back what was handed in. *)
Example stored_config_after_caller_mutation :
  (ret_creds <- CreateSsl binding_example_info ;;
   fun st =>
     Some (stored_config
             (<[1%positive := BBytes ["X"%byte; x00]]>
                (delete 2%positive (heap st)))
             (match ret_creds with
              | Returned v => wrapped_credentials_of v
              | Thrown _ => None
              end),
           st)) binding_example_state
  = (ret_creds <- CreateSsl binding_example_info ;;
     ret (Some {| stored_root_certs := Some ["R"%byte];
                  stored_key_cert_pair := Some (["K"%byte], ["C"%byte]) |}))
      binding_example_state.
Proof. vm_compute. reflexivity. Qed.

(** * Further properties *)

(** ** Wrapping native credentials *)

(** X1.  [New] returns an object exactly when it is called as a constructor
    with an External as first argument, and the object is then a
    [ChannelCredentials] around the pointer of the External; every other call
    throws the TypeError "ChannelCredentials can only be created with the
    provided functions". *)
Theorem New_wraps_externals_only (is_construct_call : bool)
    (info : list JsValue) :
  (forall v,
     New is_construct_call info = Returned v <->
     is_construct_call = true /\
     exists p ps,
       info_at info 0 = JsObject (ExternalObject p) ps /\
       v = JsObject (ChannelCredentialsObject p) []) /\
  (forall e,
     New is_construct_call info = Thrown e ->
     e = TypeError
           "ChannelCredentials can only be created with the provided functions").
Proof.
  unfold New. split.
  - intros v. destruct is_construct_call.
    + destruct (info_at info 0) as [| | | | |[| | |p| |] ps]; simpl;
        (split; [intros [= <-] | intros [_ (p' & ps' & [= <- <-] & ->)]]);
        eauto.
    + split; [discriminate | intros [[=] _]].
  - intros e. destruct is_construct_call; [| intros [= <-]; reflexivity].
    destruct (negb _); [intros [= <-]; reflexivity | discriminate].
Qed.

(** X2.  Wrapping and unwrapping are inverse: [WrapStruct] of any pointer,
    the null pointer included, is a [ChannelCredentials] object (never
    [null]) from which [GetWrappedCredentials] reads the same pointer back,
    and two wrappers are equal only when their pointers are. *)
Theorem WrapStruct_GetWrappedCredentials (p q : ptr) :
  ChannelCredentials_HasInstance (WrapStruct p) = true /\
  IsNull (WrapStruct p) = false /\
  GetWrappedCredentials (WrapStruct p) = p /\
  (WrapStruct p = WrapStruct q -> p = q).
Proof.
  repeat split. intros H.
  apply (f_equal GetWrappedCredentials) in H. exact H.
Qed.

(** ** Failures of [Compose] *)

(** X3.  [Init] registers [Compose] with [Nan::SetPrototypeMethod], so V8
    lets it run only on a receiver made by the constructor template.  On
    such a receiver, whenever [Compose] throws, the error is one of its two
    remaining TypeErrors and the state is the one before the call; and a run
    of [Compose] throws exactly when the argument is not a [CallCredentials]
    or the receiver wraps the null pointer. *)
Theorem Compose_throws_atomically (this : JsValue) (info : list JsValue)
    (st : State) :
  ChannelCredentials_HasInstance this = true ->
  (forall e st',
     Compose this info st = Some (Thrown e, st') ->
     ComposeFailure e /\ st' = st) /\
  (forall r st',
     Compose this info st = Some (r, st') ->
     ((exists e, r = Thrown e) <->
      CallCredentials_HasInstance (info_at info 0) = false \/
      wrapped_credentials_of this = None)).
Proof.
  intros Hthis. unfold Compose. rewrite Hthis. cbn [negb]. split.
  - intros e st'.
    destruct (negb (CallCredentials_HasInstance (info_at info 0))).
    { intros H; inv_run.
      match goal with Hw : Thrown _ = Thrown _ |- _ => injection Hw as <- end.
      split; [constructor | reflexivity]. }
    destruct (is_null (wrapped_credentials_of this)).
    { intros H; inv_run.
      match goal with Hw : Thrown _ = Thrown _ |- _ => injection Hw as <- end.
      split; [constructor | reflexivity]. }
    intros H. inv_run.
    match goal with
    | Hr : (match ?x with Some _ => _ | None => _ end) _ = Some _ |- _ =>
        destruct x; inv_run; discriminate
    end.
  - intros r st'.
    destruct (CallCredentials_HasInstance (info_at info 0)); cbn [negb].
    2: { intros H; inv_run. split; [auto | eauto]. }
    destruct (wrapped_credentials_of this) as [p|]; cbn [is_null].
    2: { intros H; inv_run. split; [auto | eauto]. }
    intros H. inv_run. split.
    + intros [e ->].
      match goal with
      | Hr : (match ?x with Some _ => _ | None => _ end) _ = Some _ |- _ =>
          destruct x; inv_run; discriminate
      end.
    + intros [Hf | Hf]; discriminate Hf.
Qed.

Lemma Compose_throws_atomically_witness :
  ChannelCredentials_HasInstance (WrapStruct (Some 3%positive)) = true /\
  (forall e st',
     Compose (WrapStruct (Some 3%positive)) [JsNumber 3] compose_example_state
       = Some (Thrown e, st') ->
     ComposeFailure e /\ st' = compose_example_state) /\
  (forall r st',
     Compose insecure_credential [sample_call_credential]
       compose_example_state = Some (r, st') ->
     exists e, r = Thrown e).
Proof.
  split; [reflexivity |]. split.
  - apply (Compose_throws_atomically (WrapStruct (Some 3%positive))
             [JsNumber 3] compose_example_state).
    reflexivity.
  - intros r st' H.
    apply (proj2 (Compose_throws_atomically insecure_credential
                    [sample_call_credential] compose_example_state eq_refl)
             r st' H).
    right. reflexivity.
Defined.

(** ** Failures of [CreateSsl] *)

Lemma scan_option_bag_without_bridge object props :
  (forall k, k ∈ props -> ~ attaches_bridge object k) ->
  forall vo st r st',
    scan_option_bag object props vo st = Some (r, st') -> st' = st.
Proof.
  induction props as [|k rest IH]; intros Hno vo st r st'.
  - cbn [scan_option_bag]. intros H. inv_run. reflexivity.
  - assert (Hrest : forall k0, k0 ∈ rest -> ~ attaches_bridge object k0).
    { intros k0 Hk0. apply Hno, elem_of_cons. auto. }
    specialize (IH Hrest).
    cbn [scan_option_bag].
    destruct k as [keyStr|n]; [| apply IH].
    destruct (strcmp_eq "checkServerIdentity" (utf8_c_str keyStr)) eqn:Hcheck.
    + destruct (Object_Get object (KeyString keyStr)) as [v|] eqn:Hget;
        [| discriminate].
      destruct (IsFunction v) eqn:Hfun.
      * destruct (Hno (KeyString keyStr)); [apply elem_of_cons; auto |].
        split; [assumption | eauto].
      * rewrite (IsFunction_false_match _ _ _ Hfun).
        intros H. inv_run. reflexivity.
    + destruct (strcmp_eq "insecureSkipHostnameVerify" (utf8_c_str keyStr));
        [| apply IH].
      destruct (Object_Get object (KeyString keyStr)) as [v|];
        [| discriminate].
      destruct (negb _); [intros H; inv_run; reflexivity | apply IH].
Qed.

Lemma grpc_ssl_credentials_create_trace root pair options reserved st r st' :
  grpc_ssl_credentials_create root pair options reserved st = Some (r, st') ->
  trace st' = trace st /\ is_Some r.
Proof.
  unfold grpc_ssl_credentials_create, ssl_build_config. intros H.
  destruct root as [root|], pair as [[k ch]|], options as [vo|];
    cbn [private_key cert_chain] in *; inv_create; eauto.
Qed.

Lemma CreateSsl_outcomes info st r st' :
  CreateSsl info st = Some (r, st') ->
  trace st' = trace st /\
  match r with
  | Returned w => exists c, w = WrapStruct (Some c)
  | Thrown e =>
      InvalidArgument e /\
      ((forall k, k ∈ GetOwnPropertyNames (info_at info 3) ->
                  ~ attaches_bridge (info_at info 3) k) ->
       st' = st)
  end.
Proof.
  unfold CreateSsl.
  destruct (_ && _).
  { intros H; inv_run. split; [reflexivity |]. split; [constructor | auto]. }
  destruct (_ && _).
  { intros H; inv_run. split; [reflexivity |]. split; [constructor | auto]. }
  destruct (_ && _).
  { intros H; inv_run. split; [reflexivity |]. split; [constructor | auto]. }
  destruct (negb _).
  { intros H; inv_run. split; [reflexivity |]. split; [constructor | auto]. }
  intros H. apply bind_Some in H as (scanned & st1 & Hscan & H).
  assert (Hs : trace st1 = trace st /\
               (forall e, scanned = inl e -> InvalidArgument e) /\
               ((forall k, k ∈ GetOwnPropertyNames (info_at info 3) ->
                           ~ attaches_bridge (info_at info 3) k) ->
                st1 = st)).
  { destruct (_ && _) in Hscan.
    - pose proof (scan_option_bag_Some _ _ _ _ _ _ Hscan) as (_ & Ht & Hr).
      split; [exact Ht |]. split.
      + intros e ->. apply Hr.
      + intros Hno. eapply scan_option_bag_without_bridge; eassumption.
    - inv_run. split; [reflexivity |]. split; [discriminate | auto]. }
  destruct Hs as (Ht & Herr & Hsame).
  destruct scanned as [e|vo].
  - inv_run. split; [exact Ht |]. split; [apply Herr; reflexivity | exact Hsame].
  - apply bind_Some in H as (creds & st2 & Hcreate & H).
    apply grpc_ssl_credentials_create_trace in Hcreate as [Ht2 [c ->]].
    inv_run. split; [congruence |]. exists c. reflexivity.
Qed.

(** X4.  [CreateSsl] throws nothing but its six errors: the three
    TypeErrors of the buffer arguments, the Error of a key without a chain
    (or a chain without a key) and the two Errors of the option bag.  When
    it throws and no entry of the option bag is a [checkServerIdentity]
    holding a function, the state is the one before the call. *)
Theorem CreateSsl_throws_invalid_argument_only (info : list JsValue)
    (st : State) (e : JsError) (st' : State) :
  CreateSsl info st = Some (Thrown e, st') ->
  InvalidArgument e /\
  ((forall k, k ∈ GetOwnPropertyNames (info_at info 3) ->
              ~ attaches_bridge (info_at info 3) k) ->
   st' = st).
Proof. intros H. apply (CreateSsl_outcomes info st _ st' H). Qed.

Lemma CreateSsl_throws_invalid_argument_only_witness :
  CreateSsl refused_flag_info binding_example_state
  = Some (Thrown (Error
            "Value of insecureSkipHostnameVerify must be a boolean."),
          binding_example_state) /\
  InvalidArgument
    (Error "Value of insecureSkipHostnameVerify must be a boolean.") /\
  ((forall k,
      k ∈ GetOwnPropertyNames (info_at refused_flag_info 3) ->
      ~ attaches_bridge (info_at refused_flag_info 3) k) ->
   binding_example_state = binding_example_state).
Proof.
  split; [reflexivity |].
  apply (CreateSsl_throws_invalid_argument_only refused_flag_info
           binding_example_state).
  reflexivity.
Defined.

(** X5.  [CreateSsl] leaves the trace as it was, whatever it is given and
    however it ends: building a credential never calls the JavaScript
    callback and never calls a teardown hook.  When it returns a value, the
    value is a wrapper around a credential, never [null]. *)
Theorem CreateSsl_calls_nothing (info : list JsValue) (st : State)
    (r : Completion) (st' : State) :
  CreateSsl info st = Some (r, st') ->
  trace st' = trace st /\
  (forall w, r = Returned w ->
             exists c, w = WrapStruct (Some c) /\ IsNull w = false).
Proof.
  intros H. destruct (CreateSsl_outcomes info st r st' H) as [Ht Hr].
  split; [exact Ht |]. intros w ->. destruct Hr as [c ->].
  exists c. split; reflexivity.
Qed.

Lemma CreateSsl_calls_nothing_witness :
  exists r st',
    binding_example_run = Some (r, st') /\
    trace st' = trace binding_example_state /\
    (forall w, r = Returned w ->
               exists c, w = WrapStruct (Some c) /\ IsNull w = false).
Proof.
  destruct binding_example_run as [[r st']|] eqn:E;
    [| vm_compute in E; discriminate E].
  exists r, st'. split; [reflexivity |].
  exact (CreateSsl_calls_nothing binding_example_info binding_example_state
           r st' E).
Defined.

(** ** The arguments of [CreateSsl] *)

Lemma info_at_app_undefined info i :
  info_at (info ++ [JsUndefined]) i = info_at info i.
Proof.
  unfold info_at. revert i.
  induction info as [|v rest IH]; intros [|i]; simpl; auto.
  destruct i; reflexivity.
Qed.

Lemma info_at_beyond info i :
  (length info <= i)%nat -> info_at info i = JsUndefined.
Proof. apply nth_overflow. Qed.

(** X6.  Only the first four arguments of [CreateSsl] matter, a missing
    argument is the same as [undefined], and a fourth argument that is not
    an object is silently ignored, like none at all. *)
Theorem CreateSsl_arguments (a0 a1 a2 a3 : JsValue) (rest info : list JsValue)
    (st : State) :
  CreateSsl (a0 :: a1 :: a2 :: a3 :: rest) st = CreateSsl [a0; a1; a2; a3] st /\
  CreateSsl (info ++ [JsUndefined]) st = CreateSsl info st /\
  (IsObject a3 = false ->
   CreateSsl [a0; a1; a2; a3] st = CreateSsl [a0; a1; a2] st).
Proof.
  split; [reflexivity |]. split.
  - unfold CreateSsl. rewrite !info_at_app_undefined.
    replace ((4 <=? length (info ++ [JsUndefined]))%nat
             && IsObject (info_at info 3))
      with ((4 <=? length info)%nat && IsObject (info_at info 3));
      [reflexivity |].
    destruct (Nat.leb_spec 4 (length info)) as [Hle | Hlt].
    + assert (H : (4 <=? length (info ++ [JsUndefined]))%nat = true);
        [| rewrite H; reflexivity].
      apply Nat.leb_le. rewrite length_app. lia.
    + rewrite (info_at_beyond info 3) by lia.
      rewrite !andb_false_r. reflexivity.
  - intros Hobj. unfold CreateSsl.
    cbn [info_at nth length Nat.leb andb]. rewrite Hobj. reflexivity.
Qed.

Lemma CreateSsl_arguments_witness :
  CreateSsl [buffer_at 1; JsNull; JsNull; JsString "options"]
    binding_example_state
  = CreateSsl [buffer_at 1; JsNull; JsNull] binding_example_state.
Proof.
  apply (CreateSsl_arguments (buffer_at 1) JsNull JsNull
           (JsString "options") [] [] binding_example_state).
  reflexivity.
Defined.

(** X7.  The keys of the option bag are compared as C strings: a key that
    continues after a NUL is taken for the name before the NUL.  So a bag
    whose only key is "checkServerIdentity", a NUL and any tail, with a
    value that is not a function, makes [CreateSsl] throw the error of
    [checkServerIdentity]. *)
Theorem CreateSsl_key_compared_as_c_string (tail : string) (v : JsValue)
    (cls : JsClass) (st : State) :
  IsFunction v = false ->
  names_checkServerIdentity (key_with_tail "checkServerIdentity" tail) = true /\
  CreateSsl [ JsNull; JsNull; JsNull;
              JsObject cls [(key_with_tail "checkServerIdentity" tail,
                             DataProperty v)] ] st
  = Some (Thrown (Error "Value of checkServerIdentity must be a function."),
          st).
Proof.
  intros Hv. split; [reflexivity |].
  unfold CreateSsl, key_with_tail.
  cbn [info_at nth length Nat.leb andb negb orb Buffer_HasInstance IsNull
       IsUndefined Buffer_Data is_null private_key cert_chain Bool.eqb
       IsObject GetOwnPropertyNames own_properties].
  unfold bind at 1, GetOwnPropertyNames, own_properties.
  rewrite fmap_cons. cbn [fst fmap list_fmap scan_option_bag].
  change (strcmp_eq "checkServerIdentity"
            (utf8_c_str ("checkServerIdentity" ++ String Ascii.zero tail)))
    with true.
  cbn iota. unfold Object_Get. cbn [own_properties lookup_property JsKey_eqb].
  rewrite String.eqb_refl.
  rewrite (IsFunction_false_match _ _ _ Hv). reflexivity.
Qed.

Lemma CreateSsl_key_compared_as_c_string_witness :
  names_checkServerIdentity (key_with_tail "checkServerIdentity" "Old") = true /\
  CreateSsl [ JsNull; JsNull; JsNull;
              JsObject PlainObject
                [(key_with_tail "checkServerIdentity" "Old",
                  DataProperty (JsBoolean true))] ]
    binding_example_state
  = Some (Thrown (Error "Value of checkServerIdentity must be a function."),
          binding_example_state).
Proof.
  apply (CreateSsl_key_compared_as_c_string "Old" (JsBoolean true)
           PlainObject binding_example_state).
  reflexivity.
Defined.

(** ** The teardown of the bridge *)

(** X8.  On a live bridge, [verify_peer_callback_destruct] returns, frees
    the [callback_md] and its callback and nothing else, and calls nothing.
    It can be run once only: on the state it leaves, a second teardown of
    the same bridge does not return, and neither does an invocation of the
    bridge through [verify_peer_callback_wrapper]. *)
Theorem verify_peer_callback_destruct_once (md cb : loc) (f : js_function)
    (st : State) :
  heap st !! md = Some (BCallbackMd (Some cb)) ->
  heap st !! cb = Some (BNanCallback f) ->
  exists st',
    verify_peer_callback_destruct (Some md) st = Some (tt, st') /\
    heap st' = delete md (delete cb (heap st)) /\
    trace st' = trace st /\
    verify_peer_callback_destruct (Some md) st' = None /\
    (forall js_apply servername cert,
       verify_peer_callback_wrapper js_apply servername cert (Some md) st'
       = None).
Proof.
  intros Hmd Hcb.
  exists (with_heap (delete md (delete cb (heap st))) st).
  unfold verify_peer_callback_destruct, verify_peer_callback_wrapper.
  split; [run_known; reflexivity |].
  split; [reflexivity |]. split; [reflexivity |].
  unfold bind, load. cbn [heap with_heap].
  rewrite lookup_delete_eq. auto.
Qed.

Lemma verify_peer_callback_destruct_once_witness :
  exists st',
    verify_peer_callback_destruct (Some 4%positive) bridge_example_state
      = Some (tt, st') /\
    heap st' = delete 4%positive (delete 5%positive (heap bridge_example_state)) /\
    trace st' = trace bridge_example_state /\
    verify_peer_callback_destruct (Some 4%positive) st' = None /\
    (forall js_apply servername cert,
       verify_peer_callback_wrapper js_apply servername cert
         (Some 4%positive) st' = None).
Proof.
  apply (verify_peer_callback_destruct_once 4%positive 5%positive 7%positive
           bridge_example_state); reflexivity.
Defined.

(** ** The assertions of [grpc_ssl_credentials_create] *)

(** X9.  [grpc_ssl_credentials_create] does not return when [reserved] is
    not null, and does not return when it is given a pair of which the
    private key or the certificate chain is null: no credential with half a
    pair is ever built. *)
Theorem grpc_ssl_credentials_create_asserts (root : ptr)
    (pair : option grpc_ssl_pem_key_cert_pair)
    (options : option verify_peer_options) (reserved : ptr) (st : State) :
  (reserved <> None ->
   grpc_ssl_credentials_create root pair options reserved st = None) /\
  (forall kp,
     pair = Some kp ->
     private_key kp = None \/ cert_chain kp = None ->
     grpc_ssl_credentials_create root pair options reserved st = None).
Proof.
  split.
  - intros Hres.
    destruct (grpc_ssl_credentials_create root pair options reserved st)
      as [[r st']|] eqn:H; [| reflexivity].
    unfold grpc_ssl_credentials_create in H. inv_run.
    destruct reserved; [discriminate | contradiction].
  - intros kp -> Hhalf.
    destruct (grpc_ssl_credentials_create root (Some kp) options reserved st)
      as [[r st']|] eqn:H; [| reflexivity].
    unfold grpc_ssl_credentials_create, ssl_build_config in H.
    destruct root as [root|]; inv_run;
      destruct Hhalf as [Hnull | Hnull]; rewrite Hnull in *; discriminate.
Qed.

Lemma grpc_ssl_credentials_create_asserts_witness :
  grpc_ssl_credentials_create (Some 1%positive) None None (Some 2%positive)
    create_example_state = None /\
  grpc_ssl_credentials_create (Some 1%positive)
    (Some {| private_key := Some 2%positive; cert_chain := None |})
    None None create_example_state = None.
Proof.
  split.
  - apply (grpc_ssl_credentials_create_asserts (Some 1%positive) None None
             (Some 2%positive) create_example_state).
    discriminate.
  - apply (proj2 (grpc_ssl_credentials_create_asserts (Some 1%positive)
                    (Some {| private_key := Some 2%positive;
                             cert_chain := None |})
                    None None create_example_state)
             {| private_key := Some 2%positive; cert_chain := None |}).
    + reflexivity.
    + right. reflexivity.
Defined.

(** ** What the option bag leaves in the credential *)

Lemma holds_bridge_preserved st st' vo f :
  preserves st st' -> holds_bridge (heap st) vo f ->
  holds_bridge (heap st') vo f.
Proof.
  intros Hp (Hcb & Hd & md & cb & Hud & Hmd & Hf).
  split; [exact Hcb |]. split; [exact Hd |].
  exists md, cb. split; [exact Hud |]. split; apply Hp; assumption.
Qed.

Lemma scan_option_bag_result object props :
  forall vo st vo' st' found,
    scan_option_bag object props vo st = Some (inr vo', st') ->
    match found with
    | Some f => holds_bridge (heap st) vo f
    | None => verify_peer_callback vo = None /\
              verify_peer_callback_userdata vo = None /\
              verify_peer_destruct vo = None
    end ->
    skip_hostname_verification vo'
    = scanned_flag object props (skip_hostname_verification vo) /\
    match scanned_function object props found with
    | Some f => holds_bridge (heap st') vo' f
    | None => verify_peer_callback vo' = None /\
              verify_peer_callback_userdata vo' = None /\
              verify_peer_destruct vo' = None
    end.
Proof.
  induction props as [|k rest IH]; intros vo st vo' st' found.
  - cbn [scan_option_bag scanned_flag scanned_function].
    intros H. inv_run.
    match goal with Hw : inr _ = inr _ |- _ => injection Hw as <- end.
    auto.
  - cbn [scan_option_bag scanned_flag scanned_function].
    destruct k as [keyStr|n];
      cbn [names_checkServerIdentity names_insecureSkipHostnameVerify];
      [| apply IH].
    destruct (strcmp_eq "checkServerIdentity" (utf8_c_str keyStr)) eqn:Hcheck.
    + pose proof (names_disjoint (KeyString keyStr) Hcheck) as Hd.
      cbn [names_insecureSkipHostnameVerify] in Hd. rewrite Hd.
      destruct (Object_Get object (KeyString keyStr))
        as [[| | | | |[| |f| | |] ps]|];
        try (intros H; inv_run; discriminate).
      intros H _. inv_run. heap_facts.
      apply (IH _ _ _ _ (Some f)) in H; [exact H |].
      cbn [heap with_heap]. split; [reflexivity |]. split; [reflexivity |].
      eexists _, _. split; [reflexivity |].
      split; [lookups; reflexivity | lookups; reflexivity].
    + destruct (strcmp_eq "insecureSkipHostnameVerify" (utf8_c_str keyStr));
        [| apply IH].
      destruct (Object_Get object (KeyString keyStr)) as [v|];
        [| intros H; inv_run; discriminate].
      destruct (negb _); [intros H; inv_run; discriminate |].
      intros H Hfound.
      apply (IH _ _ _ _ found) in H; [exact H |].
      destruct found; exact Hfound.
Qed.

Lemma grpc_ssl_credentials_create_options root pair options reserved st r st' :
  grpc_ssl_credentials_create root pair options reserved st = Some (r, st') ->
  exists c cr,
    r = Some c /\ heap st' !! c = Some (BSslCredentials cr) /\
    verify_options (config cr) = default zero_verify_peer_options options /\
    preserves st st'.
Proof.
  unfold grpc_ssl_credentials_create, ssl_build_config. intros H.
  destruct root as [root|], pair as [[k ch]|], options as [vo|];
    cbn [private_key cert_chain] in *; inv_create; heap_facts.
  all: eexists _, _; cbn [heap with_heap].
  all: split; [reflexivity |]; split; [apply lookup_insert_eq |].
  all: split; [reflexivity |].
  all: intros l b Hl; cbn [heap with_heap];
    repeat (rewrite lookup_insert_ne by congruence); exact Hl.
Qed.

Lemma CreateSsl_verify_options info st w st' :
  CreateSsl info st = Some (Returned w, st') ->
  exists c cr,
    w = WrapStruct (Some c) /\
    heap st' !! c = Some (BSslCredentials cr) /\
    skip_hostname_verification (verify_options (config cr))
    = scanned_flag (info_at info 3) (GetOwnPropertyNames (info_at info 3))
        false /\
    match scanned_function (info_at info 3)
            (GetOwnPropertyNames (info_at info 3)) None with
    | Some f => holds_bridge (heap st') (verify_options (config cr)) f
    | None =>
        verify_peer_callback (verify_options (config cr)) = None /\
        verify_peer_callback_userdata (verify_options (config cr)) = None /\
        verify_peer_destruct (verify_options (config cr)) = None
    end.
Proof.
  unfold CreateSsl.
  destruct (_ && _); [intros H; inv_run; discriminate |].
  destruct (_ && _); [intros H; inv_run; discriminate |].
  destruct (_ && _); [intros H; inv_run; discriminate |].
  destruct (negb _); [intros H; inv_run; discriminate |].
  intros H. apply bind_Some in H as (scanned & st1 & Hscan & H).
  destruct scanned as [e|vo]; [inv_run; discriminate |].
  apply bind_Some in H as (creds & st2 & Hcreate & H).
  apply grpc_ssl_credentials_create_options in Hcreate
    as (c & cr & -> & Hc & Hvo & Hpres).
  inv_run. match goal with Hw : Returned _ = Returned _ |- _ =>
    injection Hw as <- end.
  exists c, cr. split; [reflexivity |]. split; [exact Hc |].
  rewrite Hvo. cbn [default].
  destruct ((4 <=? length info)%nat && IsObject (info_at info 3)) eqn:Hcond.
  - apply (scan_option_bag_result _ _ _ _ _ _ None) in Hscan;
      [| repeat split].
    destruct Hscan as [Hflag Hbridge]. split; [exact Hflag |].
    destruct (scanned_function _ _ _); [| exact Hbridge].
    eapply holds_bridge_preserved; eassumption.
  - inv_run.
    match goal with Hw : inr _ = inr _ |- _ => injection Hw as <- end.
    assert (Hnone : GetOwnPropertyNames (info_at info 3) = []).
    { apply andb_false_iff in Hcond as [Hlen | Hobj].
      - apply Nat.leb_gt in Hlen. rewrite info_at_beyond by lia. reflexivity.
      - destruct (info_at info 3); try reflexivity. discriminate Hobj. }
    rewrite Hnone. repeat split.
Qed.

(** X10.  The credential that [CreateSsl] returns stores, as
    [skip_hostname_verification], the value of the last
    [insecureSkipHostnameVerify] entry of the option bag, and [false] when
    the bag has none or there is no bag.  Its three callback fields are
    null when no entry of the bag is a [checkServerIdentity]; otherwise they
    hold the wrapper, the teardown and a live bridge around the function of
    the last such entry. *)
Theorem CreateSsl_stores_the_options (info : list JsValue) (st : State)
    (w : JsValue) (st' : State) :
  CreateSsl info st = Some (Returned w, st') ->
  exists c cr,
    w = WrapStruct (Some c) /\
    heap st' !! c = Some (BSslCredentials cr) /\
    skip_hostname_verification (verify_options (config cr))
    = scanned_flag (info_at info 3) (GetOwnPropertyNames (info_at info 3))
        false /\
    match scanned_function (info_at info 3)
            (GetOwnPropertyNames (info_at info 3)) None with
    | Some f => holds_bridge (heap st') (verify_options (config cr)) f
    | None =>
        verify_peer_callback (verify_options (config cr)) = None /\
        verify_peer_callback_userdata (verify_options (config cr)) = None /\
        verify_peer_destruct (verify_options (config cr)) = None
    end.
Proof. apply CreateSsl_verify_options. Qed.

Lemma CreateSsl_stores_the_options_witness :
  exists w st',
    bridge_example_run = Some (Returned w, st') /\
    exists c cr,
      w = WrapStruct (Some c) /\
      heap st' !! c = Some (BSslCredentials cr) /\
      skip_hostname_verification (verify_options (config cr)) = true /\
      holds_bridge (heap st') (verify_options (config cr)) 7%positive.
Proof.
  destruct bridge_example_run as [[[w|e] st']|] eqn:E;
    [| vm_compute in E; discriminate E ..].
  exists w, st'. split; [reflexivity |].
  exact (CreateSsl_stores_the_options bridge_example_info
           binding_example_state w st' E).
Defined.

(** X11.  After [CreateSsl] returned a credential for a bag with a
    [checkServerIdentity], handing the stored [userdata] to
    [verify_peer_callback_wrapper] calls the function of the last such entry
    once, with the marshalled server name and certificate, and returns 1
    when that call threw and 0 otherwise. *)
Theorem CreateSsl_then_invoke
    (js_apply : js_function -> list JsValue -> CallOutcome)
    (info : list JsValue) (st : State) (w : JsValue) (st' : State)
    (f : js_function) (servername cert : option string) :
  CreateSsl info st = Some (Returned w, st') ->
  scanned_function (info_at info 3) (GetOwnPropertyNames (info_at info 3))
    None = Some f ->
  exists c cr,
    w = WrapStruct (Some c) /\
    heap st' !! c = Some (BSslCredentials cr) /\
    verify_peer_callback (verify_options (config cr))
    = Some node_verify_peer_callback_wrapper /\
    verify_peer_callback_wrapper js_apply servername cert
      (verify_peer_callback_userdata (verify_options (config cr))) st'
    = Some (match js_apply f [marshal servername; marshal cert] with
            | CallThrew _ => 1
            | CallReturned _ => 0
            end,
            {| heap := heap st';
               trace := trace st'
                        ++ [EvJsCall f [marshal servername; marshal cert]] |}).
Proof.
  intros Hrun Hf.
  destruct (CreateSsl_verify_options info st w st' Hrun)
    as (c & cr & -> & Hc & _ & Hbridge).
  rewrite Hf in Hbridge.
  destruct Hbridge as (Hcb & _ & md & cb & Hud & Hmd & Hfn).
  exists c, cr. split; [reflexivity |]. split; [exact Hc |].
  split; [exact Hcb |]. rewrite Hud.
  unfold verify_peer_callback_wrapper, Callback_Call, bind, load, log, ret.
  rewrite Hmd, Hfn. fold (marshal servername) (marshal cert).
  destruct (js_apply f [marshal servername; marshal cert]); reflexivity.
Qed.

Lemma CreateSsl_then_invoke_witness :
  exists w st',
    bridge_example_run = Some (Returned w, st') /\
    exists c cr,
      w = WrapStruct (Some c) /\
      heap st' !! c = Some (BSslCredentials cr) /\
      verify_peer_callback (verify_options (config cr))
      = Some node_verify_peer_callback_wrapper /\
      verify_peer_callback_wrapper sample_js_apply (Some "example.com")
        (Some "CERT")
        (verify_peer_callback_userdata (verify_options (config cr))) st'
      = Some (match sample_js_apply 7%positive
                      [marshal (Some "example.com"); marshal (Some "CERT")] with
              | CallThrew _ => 1
              | CallReturned _ => 0
              end,
              {| heap := heap st';
                 trace := trace st'
                          ++ [EvJsCall 7%positive
                                [marshal (Some "example.com");
                                 marshal (Some "CERT")]] |}).
Proof.
  destruct bridge_example_run as [[[w|e] st']|] eqn:E;
    [| vm_compute in E; discriminate E ..].
  exists w, st'. split; [reflexivity |].
  apply (CreateSsl_then_invoke sample_js_apply bridge_example_info
           binding_example_state w st' 7%positive (Some "example.com")
           (Some "CERT") E).
  reflexivity.
Defined.

(** ** Runs that return *)

Lemma alloc_runs b st :
  exists l,
    heap st !! l = None /\
    alloc b st = Some (l, with_heap (<[l := b]> (heap st)) st).
Proof.
  exists (fresh (dom (heap st))). split; [apply fresh_not_live | reflexivity].
Qed.

Lemma store_runs l b st :
  is_Some (heap st !! l) ->
  store l b st = Some (tt, with_heap (<[l := b]> (heap st)) st).
Proof. intros [b0 H]. unfold store. rewrite H. reflexivity. Qed.

Lemma gpr_strdup_runs src st :
  readable (heap st) (Some src) ->
  exists d bs s,
    heap st !! d = None /\
    heap st !! src = Some (BBytes bs) /\ c_str bs = Some s /\
    gpr_strdup (Some src) st
    = Some (Some d, with_heap (<[d := BBytes (s ++ [x00])]> (heap st)) st).
Proof.
  intros (bs & s & Hsrc & Hs).
  exists (fresh (dom (heap st))), bs, s.
  split; [apply fresh_not_live |]. split; [exact Hsrc |]. split; [exact Hs |].
  unfold gpr_strdup, bind, load, alloc, ret. rewrite Hsrc, Hs. reflexivity.
Qed.

(** A block that can be read in [h] can be read after insertions at
    locations that were not live in [h]. *)
Ltac still_readable :=
  match goal with
  | H : ?h !! ?l = Some (BBytes ?bs), Hs : c_str ?bs = Some ?s
    |- readable _ (Some ?l) =>
      exists bs, s; split; [lookups; exact H | exact Hs]
  end.

(** Steps of a run that returns, one primitive at a time. *)
Ltac run_alloc :=
  match goal with
  | |- context [alloc ?b ?s] =>
      let l := fresh "l" in
      let Hf := fresh "Hfresh" in
      let Hr := fresh "Hrun" in
      destruct (alloc_runs b s) as (l & Hf & Hr);
      rewrite Hr; clear Hr; cbn [heap trace with_heap] in *; heap_facts
  end.

Ltac run_strdup :=
  match goal with
  | |- context [gpr_strdup (Some ?src) ?s] =>
      let d := fresh "d" in
      let bs := fresh "bs" in
      let str := fresh "str" in
      let Hf := fresh "Hfresh" in
      let Hb := fresh "Hblock" in
      let Hs := fresh "Hstr" in
      let Hr := fresh "Hrun" in
      destruct (gpr_strdup_runs src s) as (d & bs & str & Hf & Hb & Hs & Hr);
      [ cbn [heap trace with_heap]; still_readable
      | rewrite Hr; clear Hr Hb Hs; cbn [heap trace with_heap] in *;
        heap_facts ]
  end.

Ltac run_store :=
  match goal with
  | |- context [store ?l ?b ?s] =>
      rewrite (store_runs l b s)
        by (cbn [heap trace with_heap]; lookups; eauto);
      cbn [heap trace with_heap]
  end.

Ltac run_steps :=
  repeat (first [run_alloc | run_strdup | run_store]; cbn beta iota).

Lemma grpc_ssl_credentials_create_runs root pair options st :
  readable (heap st) root ->
  pair_readable (heap st) pair ->
  exists c st',
    grpc_ssl_credentials_create root pair options None st
    = Some (Some c, st').
Proof.
  intros Hroot Hpair.
  unfold grpc_ssl_credentials_create, ssl_build_config, GPR_ASSERT.
  destruct pair as [[k ch]|]; cbn [pair_readable private_key cert_chain] in *;
    [destruct Hpair as ([k' ->] & [ch' ->] & Hk & Hch);
     destruct Hk as (kbs & ks & Hkb & Hks);
     destruct Hch as (cbs & cs & Hcb & Hcs) |].
  all: destruct root as [root|]; cbn [readable] in Hroot;
    [destruct Hroot as (rbs & rs & Hrb & Hrs) |].
  all: cbn [is_null negb]; unfold bind, ret.
  all: run_steps.
  all: destruct options; cbn beta iota; run_steps; eexists _, _; reflexivity.
Qed.

(** X12.  [CreateSsl] ends for every argument list whose Buffers can be
    read as C strings and whose option bag has no getter that throws under
    one of the two names: it returns or throws, and never stops in an
    assertion of the core, because it hands the core a pair only when both
    halves are there.  The proviso on the getters is needed: when the
    arguments pass the checks of the Buffers and the first key of the bag is
    one of the two names with a getter that throws, the scan tests an empty
    handle and the run does not return. *)
Theorem CreateSsl_ends_unless_getter_throws :
  (forall info st,
     readable (heap st) (Buffer_Data (info_at info 0)) ->
     readable (heap st) (Buffer_Data (info_at info 1)) ->
     readable (heap st) (Buffer_Data (info_at info 2)) ->
     recognised_options_delivered (info_at info 3) ->
     exists r st', CreateSsl info st = Some (r, st')) /\
  (forall a0 a1 a2 cls k post rest st,
     buffer_or_absent a0 = true ->
     buffer_or_absent a1 = true ->
     buffer_or_absent a2 = true ->
     has_data a1 = has_data a2 ->
     recognised_key k = true ->
     CreateSsl (a0 :: a1 :: a2
                :: JsObject cls ((k, AccessorProperty None) :: post)
                :: rest) st
     = None).
Proof.
  split.
  - intros info st R0 R1 R2 Hdel. unfold CreateSsl.
    destruct (_ && _); [eexists _, _; reflexivity |].
    destruct (_ && _); [eexists _, _; reflexivity |].
    destruct (_ && _); [eexists _, _; reflexivity |].
    cbn [private_key cert_chain].
    destruct (negb _) eqn:Hboth; [eexists _, _; reflexivity |].
    assert (Hscan : exists scanned st1,
              (if (4 <=? length info)%nat && IsObject (info_at info 3)
               then scan_option_bag (info_at info 3)
                      (GetOwnPropertyNames (info_at info 3))
                      zero_verify_peer_options
               else ret (inr zero_verify_peer_options)) st
              = Some (scanned, st1) /\ preserves st st1).
    { destruct (_ && _).
      - destruct (scan_option_bag_spec (info_at info 3)
                    (GetOwnPropertyNames (info_at info 3)) Hdel
                    zero_verify_peer_options st)
          as (r0 & st0 & Hrun & Hp & _).
        eauto.
      - eexists _, _. split; [reflexivity | apply preserves_refl]. }
    destruct Hscan as (scanned & st1 & Hscan & Hpres).
    unfold bind at 1. rewrite Hscan.
    destruct scanned as [e|vo]; [eexists _, _; reflexivity |].
    destruct (grpc_ssl_credentials_create_runs
                (Buffer_Data (info_at info 0))
                (if is_null (Buffer_Data (info_at info 1)) then None
                 else Some {| private_key := Buffer_Data (info_at info 1);
                              cert_chain := Buffer_Data (info_at info 2) |})
                (Some vo) st1) as (c & st' & Hcreate).
    + eapply readable_preserved; eassumption.
    + apply negb_false_iff, Bool.eqb_prop in Hboth.
      destruct (Buffer_Data (info_at info 1)) as [k|] eqn:Hk;
        cbn [is_null pair_readable private_key cert_chain] in *; [| exact I].
      destruct (Buffer_Data (info_at info 2)) as [ch|] eqn:Hch;
        [| discriminate Hboth].
      split; [eauto |]. split; [eauto |].
      split; eapply readable_preserved; eassumption.
    + unfold bind. rewrite Hcreate. eexists _, _. reflexivity.
  - intros a0 a1 a2 cls k post rest st H0 H1 H2 Hboth Hk.
    unfold CreateSsl. rewrite !buffer_check.
    cbn [info_at nth length]. rewrite H0, H1, H2.
    cbn [negb private_key cert_chain].
    unfold has_data in Hboth. apply (f_equal negb) in Hboth.
    rewrite !negb_involutive in Hboth. rewrite Hboth, Bool.eqb_reflx.
    cbn [negb Nat.leb andb IsObject GetOwnPropertyNames own_properties].
    unfold bind at 1, GetOwnPropertyNames, own_properties.
    rewrite fmap_cons. cbn [fst scan_option_bag].
    unfold Object_Get. cbn [own_properties lookup_property].
    destruct k as [keyStr|n]; [| discriminate Hk].
    cbn [JsKey_eqb]. rewrite String.eqb_refl.
    unfold recognised_key, names_checkServerIdentity,
      names_insecureSkipHostnameVerify in Hk.
    destruct (strcmp_eq "checkServerIdentity" (utf8_c_str keyStr));
      [reflexivity |].
    cbn [orb] in Hk. rewrite Hk. reflexivity.
Qed.

Lemma CreateSsl_ends_unless_getter_throws_witness :
  (exists r st', CreateSsl binding_example_info binding_example_state
                 = Some (r, st')) /\
  CreateSsl [ JsNull; JsNull; JsNull;
              JsObject PlainObject
                [(KeyString "checkServerIdentity", AccessorProperty None)] ]
    binding_example_state
  = None.
Proof.
  destruct CreateSsl_ends_unless_getter_throws as [Hends Hstops].
  split.
  - apply (Hends binding_example_info binding_example_state).
    + exists ["R"%byte; x00], ["R"%byte]. split; reflexivity.
    + exists ["K"%byte; x00], ["K"%byte]. split; reflexivity.
    + exists ["C"%byte; x00], ["C"%byte]. split; reflexivity.
    + intros k Hk _. apply elem_of_cons in Hk as [-> | Hk];
        [eexists; reflexivity | by apply elem_of_nil in Hk].
  - apply (Hstops JsNull JsNull JsNull PlainObject
             (KeyString "checkServerIdentity") [] [] binding_example_state);
      reflexivity.
Defined.

(** ** A credential from creation to destruction *)

(** Splits the fact that a location is none of the members of a list. *)
Ltac apart_from :=
  repeat match goal with
  | H : _ ∉ _ :: _ |- _ => apply not_elem_of_cons in H as [? ?]
  end.

Lemma grpc_ssl_credentials_create_frame root pair options reserved st c cr st' :
  live (heap st) root -> pair_live (heap st) pair ->
  grpc_ssl_credentials_create root pair options reserved st
    = Some (Some c, st') ->
  heap st' !! c = Some (BSslCredentials cr) ->
  forall l, l <> c -> l ∉ owned_buffers (heap st') (config cr) ->
            heap st' !! l = heap st !! l.
Proof.
  intros Hroot Hpair H.
  unfold grpc_ssl_credentials_create, ssl_build_config in H.
  destruct root as [root|], pair as [[k ch]|], options as [vo|];
    cbn [live pair_live private_key cert_chain] in *;
    inv_create; cbn [live] in *; heap_facts.
  all: try (destruct Hpair; heap_facts).
  all: try congruence.
  all: match goal with Hc : Some _ = Some _ |- _ => injection Hc as -> end.
  all: cbn [heap with_heap]; rewrite lookup_insert_eq.
  all: intros [= <-] l Hlc Hout; unfold owned_buffers in Hout;
    cbn [config pem_root_certs pem_key_cert_pair] in Hout; lookups_in Hout;
    cbn [flat_map option_to_list app tsi_private_key tsi_cert_chain] in Hout;
    apart_from; lookups; reflexivity.
Qed.

Lemma ssl_destruct_frame c cr st :
  heap st !! c = Some (BSslCredentials cr) ->
  well_formed_config (heap st) (config cr) ->
  c ∉ owned_buffers (heap st) (config cr) ->
  teardown_callable (heap st) (verify_options (config cr)) ->
  (forall l, l ∈ bridge_blocks (heap st) (verify_options (config cr)) ->
             l ∉ owned_buffers (heap st) (config cr)) ->
  exists st',
    ssl_destruct c st = Some (tt, st') /\
    trace st' = trace st ++ teardown_events (verify_options (config cr)) /\
    heap st' !! c = Some (BSslCredentials cr) /\
    (forall l, l ∈ owned_buffers (heap st) (config cr) ->
               heap st' !! l = None) /\
    (forall l, l ∈ bridge_blocks (heap st) (verify_options (config cr)) ->
               heap st' !! l = None) /\
    (forall l, l ∉ owned_buffers (heap st) (config cr) ->
               l ∉ bridge_blocks (heap st) (verify_options (config cr)) ->
               heap st' !! l = heap st !! l).
Proof.
  intros Hc (Hnd & Hlive & Hpair) Hc_out Hready Hapart.
  destruct cr as [b [rootp pairp [vcb ud fn skip]]].
  unfold ssl_destruct, grpc_tsi_ssl_pem_key_cert_pairs_destroy,
    teardown_callable, teardown_events, call_verify_peer_destruct,
    verify_peer_callback_destruct, node_bridge_at, owned_buffers,
    bridge_blocks in *.
  cbn [config pem_root_certs pem_key_cert_pair verify_options] in *.
  destruct pairp as [p|];
    [destruct Hpair as [[dk dc] Hp]; rewrite Hp in *|].
  all: cbn [verify_peer_destruct verify_peer_callback_userdata] in *.
  all: destruct fn as [[|id]|];
    [ destruct Hready as (md & cb & f & -> & Hmd & Hcb); rewrite Hmd in *;
      pose proof (Hapart md ltac:(apply elem_of_cons; auto)) as Hmd_out;
      pose proof (Hapart cb ltac:(apply elem_of_cons; right;
                                    apply elem_of_cons; auto)) as Hcb_out
    | | ].
  all: clear Hapart; apply Forall_forall in Hlive.
  all: destruct rootp as [d|]; try destruct dk as [dk|]; try destruct dc as [dc|].
  all: cbn [flat_map option_to_list app tsi_private_key tsi_cert_chain] in *.
  all: rewrite ?NoDup_cons, ?not_elem_of_cons, ?Forall_cons in *.
  all: destruct_and?.
  all: repeat match goal with H : is_Some (_ !! _) |- _ => destruct H as [? H] end.
  all: eexists.
  all: split; [run_known; reflexivity |].
  all: cbn [heap trace with_heap].
  all: split; [rewrite ?app_nil_r; reflexivity |].
  all: split; [lookups_deleted; exact Hc |].
  all: split;
    [ intros l Hl; repeat (apply elem_of_cons in Hl as [->|Hl]);
      first [ by apply elem_of_nil in Hl | lookups_deleted; reflexivity ] |].
  all: split;
    [ intros l Hl; repeat (apply elem_of_cons in Hl as [->|Hl]);
      first [ by apply elem_of_nil in Hl | lookups_deleted; reflexivity ] |].
  all: intros l Hl1 Hl2; apart_from; lookups_deleted; reflexivity.
Qed.

Lemma bridge_blocks_live st vo l :
  teardown_callable (heap st) vo -> l ∈ bridge_blocks (heap st) vo ->
  is_Some (heap st !! l).
Proof.
  unfold teardown_callable, bridge_blocks, node_bridge_at.
  destruct (verify_peer_destruct vo) as [[|id]|];
    try (intros _ Hl; by apply elem_of_nil in Hl).
  intros (md & cb & f & -> & Hmd & Hcb). rewrite Hmd. intros Hl.
  repeat (apply elem_of_cons in Hl as [->|Hl]); eauto.
  by apply elem_of_nil in Hl.
Qed.

Lemma bridge_blocks_preserved st st' vo :
  preserves st st' -> teardown_callable (heap st) vo ->
  bridge_blocks (heap st') vo = bridge_blocks (heap st) vo /\
  teardown_callable (heap st') vo.
Proof.
  unfold teardown_callable, bridge_blocks, node_bridge_at. intros Hp.
  destruct (verify_peer_destruct vo) as [[|id]|]; try (split; [reflexivity | exact I]).
  intros (md & cb & f & -> & Hmd & Hcb).
  rewrite Hmd, (Hp _ _ Hmd). split; [reflexivity |].
  exists md, cb, f. split; [reflexivity |]. split; apply Hp; assumption.
Qed.

(** X13.  From creation to destruction nothing is left behind: after
    [grpc_ssl_credentials_create] and then [ssl_destruct] on the credential
    it returned, the heap is the heap before the creation with the
    credential structure added and, when the teardown hook is the one of the
    Node binding, the two blocks of its bridge freed.  Every copy that was
    made is gone, and the trace has grown by the one call of the teardown
    hook, if there is a hook. *)
Theorem ssl_credentials_create_then_destruct
    (root : ptr) (pair : option grpc_ssl_pem_key_cert_pair)
    (options : option verify_peer_options) (st : State) (c : loc)
    (st' : State) :
  live (heap st) root ->
  pair_live (heap st) pair ->
  teardown_callable (heap st) (default zero_verify_peer_options options) ->
  grpc_ssl_credentials_create root pair options None st = Some (Some c, st') ->
  exists cr st'',
    heap st' !! c = Some (BSslCredentials cr) /\
    ssl_destruct c st' = Some (tt, st'') /\
    heap st'' !! c = Some (BSslCredentials cr) /\
    (forall l,
       l ∈ bridge_blocks (heap st) (default zero_verify_peer_options options) ->
       heap st'' !! l = None) /\
    (forall l,
       l <> c ->
       l ∉ bridge_blocks (heap st) (default zero_verify_peer_options options) ->
       heap st'' !! l = heap st !! l) /\
    trace st''
    = trace st
      ++ teardown_events (default zero_verify_peer_options options).
Proof.
  intros Hroot Hpair Hready Hrun.
  destruct (grpc_ssl_credentials_create_spec _ _ _ _ _ _ _ Hroot Hpair Hrun)
    as (c' & cr & [= <-] & Hfresh & Htrace & Hpres & Hc & _ & Hvo & Hwf
        & _ & _ & Hown & _).
  destruct (bridge_blocks_preserved st st' _ Hpres Hready) as [Hbb Hready'].
  destruct (ssl_destruct_frame c cr st' Hc Hwf)
    as (st'' & Hd & Ht & Hc'' & Hfreed & Hbridge & Hframe).
  - intros Hin. apply Hown in Hin as [_ Hne]. congruence.
  - rewrite Hvo. exact Hready'.
  - rewrite Hvo, Hbb. intros l Hl Hin.
    apply (bridge_blocks_live st _ l Hready) in Hl as [b Hl].
    apply Hown in Hin as [Hnone _]. congruence.
  - rewrite Hvo, Hbb in *.
    exists cr, st''. split; [exact Hc |]. split; [exact Hd |].
    split; [exact Hc'' |]. split; [exact Hbridge |].
    split; [| rewrite Ht, Htrace; reflexivity].
    intros l Hlc Hlb.
    destruct (decide (l ∈ owned_buffers (heap st') (config cr))) as [Hin | Hout].
    + rewrite (Hfreed l Hin). symmetry. apply (Hown l Hin).
    + rewrite (Hframe l Hout Hlb).
      eapply grpc_ssl_credentials_create_frame; eassumption.
Qed.

Lemma ssl_credentials_create_then_destruct_witness :
  exists cr st'',
    (exists st', create_example_run = Some (Some 6%positive, st') /\
       heap st' !! 6%positive = Some (BSslCredentials cr) /\
       ssl_destruct 6%positive st' = Some (tt, st'')) /\
    heap st'' !! 6%positive = Some (BSslCredentials cr) /\
    (forall l,
       l ∈ bridge_blocks (heap create_example_state)
             (default zero_verify_peer_options (Some create_example_options)) ->
       heap st'' !! l = None) /\
    (forall l,
       l <> 6%positive ->
       l ∉ bridge_blocks (heap create_example_state)
             (default zero_verify_peer_options (Some create_example_options)) ->
       heap st'' !! l = heap create_example_state !! l) /\
    trace st''
    = trace create_example_state
      ++ teardown_events
           (default zero_verify_peer_options (Some create_example_options)).
Proof.
  destruct create_example_run as [[[c|] st']|] eqn:E;
    [| vm_compute in E; discriminate E ..].
  assert (Hc : c = 6%positive) by (vm_compute in E; congruence).
  subst c.
  destruct (ssl_credentials_create_then_destruct (Some 1%positive)
              (Some create_example_pair) (Some create_example_options)
              create_example_state 6%positive st')
    as (cr & st'' & Hcr & Hd & Hrest).
  - eexists. reflexivity.
  - split; eexists; reflexivity.
  - exists 4%positive, 5%positive, 7%positive. repeat split; reflexivity.
  - exact E.
  - exists cr, st''. split; [| exact Hrest]. exists st'. auto.
Defined.

(** X14.  [ssl_destruct] can be run once only on a credential that owns
    something: on the state it leaves, a second [ssl_destruct] of the same
    credential does not return when the configuration owned a buffer or the
    teardown hook is the one of the Node binding. *)
Theorem ssl_destruct_twice (c : loc) (cr : grpc_ssl_credentials)
    (st st' : State) :
  heap st !! c = Some (BSslCredentials cr) ->
  well_formed_config (heap st) (config cr) ->
  c ∉ owned_buffers (heap st) (config cr) ->
  teardown_callable (heap st) (verify_options (config cr)) ->
  (forall l, l ∈ bridge_blocks (heap st) (verify_options (config cr)) ->
             l ∉ owned_buffers (heap st) (config cr)) ->
  owned_buffers (heap st) (config cr) <> [] \/
  bridge_blocks (heap st) (verify_options (config cr)) <> [] ->
  ssl_destruct c st = Some (tt, st') ->
  ssl_destruct c st' = None.
Proof.
  intros Hc Hwf Hc_out Hready Hapart Hsome Hrun.
  destruct (ssl_destruct_frame c cr st Hc Hwf Hc_out Hready Hapart)
    as (st'' & Hd & _ & Hc' & Hfreed & Hbridge & _).
  rewrite Hd in Hrun. injection Hrun as <-.
  destruct Hwf as (_ & _ & Hpair).
  destruct cr as [b [rootp pairp [vcb ud fn skip]]].
  unfold ssl_destruct, grpc_tsi_ssl_pem_key_cert_pairs_destroy,
    call_verify_peer_destruct, verify_peer_callback_destruct,
    teardown_callable, node_bridge_at, owned_buffers, bridge_blocks in *.
  cbn [config pem_root_certs pem_key_cert_pair verify_options
       verify_peer_destruct verify_peer_callback_userdata] in *.
  unfold bind at 1, load. rewrite Hc'.
  cbn [config pem_root_certs pem_key_cert_pair verify_options
       verify_peer_destruct verify_peer_callback_userdata].
  destruct rootp as [d|].
  { unfold bind, gpr_free.
    rewrite (Hfreed d ltac:(apply elem_of_cons; auto)). reflexivity. }
  destruct pairp as [p|].
  { unfold bind, gpr_free, ret, load.
    rewrite (Hfreed p ltac:(apply elem_of_cons; auto)). reflexivity. }
  destruct Hsome as [Hsome | Hsome]; [contradiction |].
  destruct fn as [[|id]|]; try contradiction.
  destruct Hready as (md & cb & f & -> & Hmd & Hcb).
  unfold bind, gpr_free, ret, load, log. cbn [heap trace with_heap].
  rewrite (Hbridge md ltac:(apply elem_of_cons; auto)). reflexivity.
Qed.

Lemma ssl_destruct_twice_witness :
  exists c st' st'',
    create_example_run = Some (Some c, st') /\
    ssl_destruct c st' = Some (tt, st'') /\
    ssl_destruct c st'' = None.
Proof.
  destruct create_example_run as [[r st']|] eqn:E;
    [| vm_compute in E; discriminate E].
  assert (Hroot : live (heap create_example_state) (Some 1%positive))
    by (eexists; reflexivity).
  assert (Hpair : pair_live (heap create_example_state)
                    (Some create_example_pair))
    by (split; eexists; reflexivity).
  assert (Hready : teardown_callable (heap create_example_state)
                     create_example_options)
    by (exists 4%positive, 5%positive, 7%positive; repeat split; reflexivity).
  destruct (grpc_ssl_credentials_create_spec _ _ _ _ _ _ _ Hroot Hpair E)
    as (c & cr & -> & Hfresh & _ & Hpres & Hc & _ & Hvo & Hwf
        & Hr & _ & Hown & _).
  change (verify_options (config cr) = create_example_options) in Hvo.
  destruct (bridge_blocks_preserved _ st' _ Hpres Hready) as [Hbb Hready'].
  assert (Hc_out : c ∉ owned_buffers (heap st') (config cr)).
  { intros Hin. apply Hown in Hin as [_ Hne]. congruence. }
  assert (Hapart : forall l,
            l ∈ bridge_blocks (heap st') (verify_options (config cr)) ->
            l ∉ owned_buffers (heap st') (config cr)).
  { rewrite Hvo, Hbb. intros l Hl Hin.
    apply (bridge_blocks_live _ _ l Hready) in Hl as [b Hl].
    apply Hown in Hin as [Hnone _]. congruence. }
  rewrite <- Hvo in Hready'.
  destruct (ssl_destruct_frame c cr st' Hc Hwf Hc_out Hready' Hapart)
    as (st'' & Hd & _).
  exists c, st', st''. split; [reflexivity |]. split; [exact Hd |].
  apply (ssl_destruct_twice c cr st' st'' Hc Hwf Hc_out Hready' Hapart);
    [| exact Hd].
  left. unfold owned_buffers.
  destruct (pem_root_certs (config cr)); [discriminate |].
  destruct Hr as [Hr _]. destruct Hr as [? [=]]. eexists. reflexivity.
Defined.

(** ** Server credentials: the array of pairs *)

Lemma update_tsi_pair_Some a i f st u st' :
  update_tsi_pair (Some a) i f st = Some (u, st') ->
  exists kps kp,
    heap st !! a = Some (BTsiPairs kps) /\ kps !! i = Some kp /\
    st' = with_heap (<[a := BTsiPairs (<[i := f kp]> kps)]> (heap st)) st.
Proof.
  unfold update_tsi_pair. intros H. inv_run.
  destruct x as [|kps| | | | | |]; try discriminate.
  destruct (kps !! i) as [kp|] eqn:Hi; [| discriminate].
  inv_run. eauto.
Qed.

Lemma convert_pairs_from_spec hb a ps :
  hb !! a = None ->
  forall count i st cells u st',
    (forall l b, hb !! l = Some b -> heap st !! l = Some b) ->
    Forall (fun kp => live hb (private_key kp) /\ live hb (cert_chain kp))
           (take count (drop i ps)) ->
    heap st !! a = Some (BTsiPairs cells) ->
    (i <= length cells)%nat ->
    convert_pairs_from (Some ps) (Some a) i count st = Some (u, st') ->
    exists copies,
      length copies = count /\
      (i + count <= length cells)%nat /\
      length (take count (drop i ps)) = count /\
      heap st' !! a
      = Some (BTsiPairs (take i cells ++ map cell_of copies
                         ++ drop (i + count) cells)) /\
      NoDup (copy_locations copies) /\
      (forall l, l ∈ copy_locations copies -> heap st !! l = None /\ l <> a) /\
      Forall2 (copied hb (heap st')) (take count (drop i ps)) copies /\
      (forall l, l <> a -> l ∉ copy_locations copies ->
                 heap st' !! l = heap st !! l) /\
      trace st' = trace st.
Proof.
  intros Ha. induction count as [|count IH];
    intros i st cells u st' Hbase Hlive Hcells Hi Hrun.
  - cbn [convert_pairs_from] in Hrun. inv_run.
    exists []. cbn [length map app copy_locations flat_map take].
    rewrite Nat.add_0_r, take_drop.
    split; [reflexivity |]. split; [exact Hi |]. split; [reflexivity |].
    split; [exact Hcells |]. split; [apply NoDup_nil_2 |].
    split; [intros l Hl; by apply elem_of_nil in Hl |].
    split; [constructor |]. split; reflexivity.
  - cbn [convert_pairs_from] in Hrun.
    destruct (ps !! i) as [[k ch]|] eqn:Hps; [| discriminate Hrun].
    cbn [private_key cert_chain] in Hrun.
    rewrite (drop_S _ _ _ Hps) in Hlive |- *. cbn [take] in Hlive |- *.
    apply Forall_cons in Hlive as [[Hk Hch] Hlive].
    cbn [private_key cert_chain] in Hk, Hch.
    inv_run.
    destruct k as [k|]; [| discriminate].
    destruct ch as [ch|]; [| discriminate].
    cbn [live] in Hk, Hch. destruct Hk as [bk Hk], Hch as [bc Hch].
    repeat match goal with
    | H : gpr_strdup (Some _) _ = Some _ |- _ =>
        apply gpr_strdup_Some in H as (? & ? & ? & ? & ? & -> & ? & ->);
        cbn [heap trace with_heap] in *
    | H : update_tsi_pair (Some _) _ _ _ = Some _ |- _ =>
        apply update_tsi_pair_Some in H as (? & ? & ? & ? & ->);
        cbn [heap trace with_heap] in *
    end.
    pose proof (Hbase _ _ Hk) as Hk'. pose proof (Hbase _ _ Hch) as Hch'.
    match goal with s : State |- _ => rename s into st end.
    assert (Hast : is_Some (heap st !! a)) by eauto.
    heap_facts; try congruence.
    repeat match goal with
    | H1 : ?h !! ?l = Some _, H2 : ?h !! ?l = Some _ |- _ =>
        rewrite H1 in H2; injection H2 as ?
    | H : BTsiPairs _ = BTsiPairs _ |- _ => injection H as ?
    end.
    subst.
    match goal with
    | Hc : heap st !! a = Some (BTsiPairs ?cs), Hl : ?cs !! i = Some _ |- _ =>
        rename cs into kps; rename Hc into Hkps;
        pose proof (lookup_lt_Some _ _ _ Hl) as Hlt
    end.
    match goal with
    | Hc : <[i := _]> kps !! i = Some _ |- _ =>
        rewrite list_lookup_insert_eq in Hc by exact Hlt;
        injection Hc as <-
    end.
    cbn [tsi_private_key tsi_cert_chain] in Hrun.
    rewrite list_insert_insert_eq in Hrun.
    match goal with
    | Hr : context [<[i := {| tsi_private_key := Some ?d2;
                              tsi_cert_chain := Some ?d1 |}]> kps] |- _ =>
        rename d1 into cc; rename d2 into pk
    end.
    apply IH with (cells := <[i := cell_of (pk, cc)]> kps) in Hrun
      as (copies & Hlen & Hbound & Hlen' & Harr & Hnd & Hfresh & Hcopied
          & Hframe & Htrace).
    2: { intros l b Hl. cbn [heap with_heap]. pose proof (Hbase _ _ Hl).
         lookups. assumption. }
    2: exact Hlive.
    2: { cbn [heap with_heap]. apply lookup_insert_eq. }
    2: { rewrite length_insert. lia. }
    cbn [heap trace with_heap] in *.
    rewrite length_insert in Hbound.
    exists ((pk, cc) :: copies).
    split; [cbn [length]; lia |]. split; [lia |].
    split; [cbn [length]; lia |].
    split.
    { rewrite Harr. do 2 f_equal.
      rewrite (take_S_r _ _ (cell_of (pk, cc)))
        by (apply list_lookup_insert_eq; exact Hlt).
      rewrite take_insert_ge by lia.
      rewrite drop_insert_lt by lia.
      rewrite <- app_assoc. cbn [map app].
      replace (i + S count)%nat with (S i + count)%nat by lia.
      reflexivity. }
    assert (Hpk : forall l, l ∈ copy_locations copies ->
                            heap st !! l = None /\ l <> a /\ l <> pk /\ l <> cc).
    { intros l Hl. apply Hfresh in Hl as [Hl Hla].
      heap_facts. repeat split; congruence. }
    split.
    { cbn [copy_locations flat_map fst snd app].
      apply NoDup_cons. split.
      - intros Hin. apply elem_of_cons in Hin as [Heq | Hin]; [congruence |].
        apply Hpk in Hin. tauto.
      - apply NoDup_cons. split; [| exact Hnd].
        intros Hin. apply Hpk in Hin. tauto. }
    split.
    { cbn [copy_locations flat_map fst snd app]. intros l Hl.
      apply elem_of_cons in Hl as [-> | Hl]; [split; congruence |].
      apply elem_of_cons in Hl as [-> | Hl]; [split; congruence |].
      apply Hpk in Hl. tauto. }
    split.
    { constructor; [| exact Hcopied].
      unfold copied, caller_string, string_at.
      cbn [private_key cert_chain fst snd].
      rewrite Hk, Hch.
      eexists _, _. split; [| split; [| split]].
      - known_strings. reflexivity.
      - known_strings. reflexivity.
      - rewrite Hframe; [lookups; reflexivity | congruence |].
        intros Hin. apply Hpk in Hin. tauto.
      - rewrite Hframe; [lookups; reflexivity | congruence |].
        intros Hin. apply Hpk in Hin. tauto. }
    split; [| exact Htrace].
    intros l Hla Hl. cbn [copy_locations flat_map fst snd app] in Hl.
    apart_from. rewrite Hframe by assumption. lookups. reflexivity.
Qed.

Lemma take_drop_cons {A} (l : list A) i n x rest :
  take (S n) (drop i l) = x :: rest ->
  l !! i = Some x /\ take n (drop (S i) l) = rest.
Proof.
  intros H. destruct (drop i l) as [|y tl] eqn:Hd; [discriminate H |].
  cbn [take] in H. injection H as -> <-.
  split.
  - rewrite <- (Nat.add_0_r i), <- lookup_drop, Hd. reflexivity.
  - replace (S i) with (i + 1)%nat by lia.
    rewrite <- drop_drop, Hd. reflexivity.
Qed.

Lemma key_cert_pairs_free_spec kps copies :
  forall i st,
    take (length copies) (drop i kps) = map cell_of copies ->
    NoDup (copy_locations copies) ->
    (forall l, l ∈ copy_locations copies -> is_Some (heap st !! l)) ->
    exists st',
      key_cert_pairs_free kps i (length copies) st = Some (tt, st') /\
      trace st' = trace st /\
      (forall l, l ∈ copy_locations copies -> heap st' !! l = None) /\
      (forall l, l ∉ copy_locations copies -> heap st' !! l = heap st !! l).
Proof.
  induction copies as [|[pk cc] copies IH]; intros i st Hcells Hnd Hlive.
  - exists st. cbn [length key_cert_pairs_free copy_locations flat_map].
    split; [reflexivity |]. split; [reflexivity |].
    split; [intros l Hl; by apply elem_of_nil in Hl | reflexivity].
  - cbn [length map] in Hcells. apply take_drop_cons in Hcells as [Hi Hrest].
    cbn [copy_locations flat_map fst snd app] in Hnd, Hlive |- *.
    fold (copy_locations copies) in Hnd, Hlive |- *.
    apply NoDup_cons in Hnd as [Hpk Hnd]. apply NoDup_cons in Hnd as [Hcc Hnd].
    apply not_elem_of_cons in Hpk as [Hne Hpk].
    destruct (Hlive pk) as [bk Hbk]; [apply elem_of_cons; by left |].
    destruct (Hlive cc) as [bc Hbc];
      [apply elem_of_cons; right; apply elem_of_cons; by left |].
    destruct (IH (S i) (with_heap (delete cc (delete pk (heap st))) st))
      as (st' & Hrun & Htrace & Hgone & Hframe);
      [exact Hrest | exact Hnd | |].
    { intros l Hl. cbn [heap with_heap].
      assert (l <> pk) by (intros ->; contradiction).
      assert (l <> cc) by (intros ->; contradiction).
      lookups_deleted. apply Hlive.
      apply elem_of_cons; right; apply elem_of_cons; by right. }
    cbn [heap trace with_heap] in *.
    exists st'. split.
    { cbn [length key_cert_pairs_free]. rewrite Hi.
      cbn [cell_of tsi_private_key tsi_cert_chain fst snd].
      unfold bind at 1. unfold gpr_free at 1. rewrite Hbk.
      unfold bind at 1. unfold gpr_free at 1. cbn [heap with_heap].
      rewrite lookup_delete_ne by congruence. rewrite Hbc.
      rewrite <- Hrun. f_equal. }
    split; [exact Htrace |]. split.
    + intros l Hl. apply elem_of_cons in Hl as [-> | Hl].
      { rewrite Hframe by assumption.
        rewrite lookup_delete_ne by congruence. apply lookup_delete_eq. }
      apply elem_of_cons in Hl as [-> | Hl]; [| by apply Hgone].
      rewrite Hframe by assumption. apply lookup_delete_eq.
    + intros l Hl. apply not_elem_of_cons in Hl as [Hl1 Hl].
      apply not_elem_of_cons in Hl as [Hl2 Hl].
      rewrite Hframe by assumption. by lookups_deleted.
Qed.

Lemma grpc_tsi_ssl_pem_key_cert_pairs_destroy_spec a copies st :
  heap st !! a = Some (BTsiPairs (map cell_of copies)) ->
  NoDup (a :: copy_locations copies) ->
  (forall l, l ∈ copy_locations copies -> is_Some (heap st !! l)) ->
  exists st',
    grpc_tsi_ssl_pem_key_cert_pairs_destroy (Some a) (length copies) st
    = Some (tt, st') /\
    trace st' = trace st /\
    (forall l, l ∈ a :: copy_locations copies -> heap st' !! l = None) /\
    (forall l, l ∉ a :: copy_locations copies -> heap st' !! l = heap st !! l).
Proof.
  intros Ha Hnd Hlive. apply NoDup_cons in Hnd as [Hfresh Hnd].
  destruct (key_cert_pairs_free_spec (map cell_of copies) copies 0 st)
    as (st1 & Hrun & Htrace & Hgone & Hframe); [| exact Hnd | exact Hlive |].
  { cbn [drop]. rewrite <- (length_map cell_of) at 1. apply firstn_all. }
  exists (with_heap (delete a (heap st1)) st1). split.
  { unfold grpc_tsi_ssl_pem_key_cert_pairs_destroy, bind, load.
    rewrite Ha, Hrun. unfold gpr_free.
    rewrite Hframe by exact Hfresh. rewrite Ha. reflexivity. }
  cbn [heap trace with_heap]. split; [exact Htrace |]. split.
  - intros l Hl. apply elem_of_cons in Hl as [-> | Hl];
      [apply lookup_delete_eq |].
    assert (l <> a) by (intros ->; contradiction).
    rewrite lookup_delete_ne by congruence. by apply Hgone.
  - intros l Hl. apply not_elem_of_cons in Hl as [Hla Hl].
    rewrite lookup_delete_ne by congruence. by apply Hframe.
Qed.

Lemma grpc_convert_grpc_to_tsi_cert_pairs_spec hb pairs n st r st' :
  (forall l b, hb !! l = Some b -> heap st !! l = Some b) ->
  pairs_live hb pairs n ->
  grpc_convert_grpc_to_tsi_cert_pairs pairs n st = Some (r, st') ->
  exists copies,
    length copies = n /\ trace st' = trace st /\
    NoDup (option_to_list r ++ copy_locations copies) /\
    (forall l, l ∈ option_to_list r ++ copy_locations copies ->
               heap st !! l = None) /\
    (forall l, l ∉ option_to_list r ++ copy_locations copies ->
               heap st' !! l = heap st !! l) /\
    (n = 0%nat -> r = None) /\
    (n <> 0%nat ->
     exists a ps,
       r = Some a /\ pairs = Some ps /\ length (take n ps) = n /\
       heap st' !! a = Some (BTsiPairs (map cell_of copies)) /\
       Forall2 (copied hb (heap st')) (take n ps) copies).
Proof.
  intros Hbase Hlive H. unfold grpc_convert_grpc_to_tsi_cert_pairs in H.
  destruct n as [|n].
  - cbn [convert_pairs_from] in H. inv_run. exists [].
    cbn [length option_to_list copy_locations flat_map app].
    split; [reflexivity |]. split; [reflexivity |].
    split; [apply NoDup_nil_2 |].
    split; [intros l Hl; by apply elem_of_nil in Hl |].
    split; [reflexivity |]. split; [reflexivity |]. intros Hn. by destruct Hn.
  - inv_run. destruct pairs as [ps|]; [| discriminate].
    cbn [pairs_live] in Hlive.
    match goal with
    | Hr : convert_pairs_from _ (Some ?l) _ _ _ = Some _ |- _ =>
        rename l into a; rename Hr into Hrun
    end.
    match goal with Hf : heap _ !! a = None |- _ => rename Hf into Ha end.
    eapply (convert_pairs_from_spec hb a ps) in Hrun
      as (copies & Hlen & _ & Hlen' & Harr & Hnd & Hfresh & Hcopied & Hframe
          & Htrace).
    2: { destruct (hb !! a) as [b|] eqn:Hb; [| reflexivity].
         apply Hbase in Hb. congruence. }
    2: { intros l b Hl. cbn [heap with_heap].
         pose proof (Hbase _ _ Hl). lookups. assumption. }
    2: { cbn [drop]. exact Hlive. }
    2: { cbn [heap with_heap]. apply lookup_insert_eq. }
    2: { lia. }
    cbn [heap trace with_heap drop take app Nat.add] in *.
    rewrite drop_ge in Harr by (rewrite length_replicate; lia).
    rewrite app_nil_r in Harr.
    exists copies. cbn [option_to_list app].
    split; [exact Hlen |]. split; [exact Htrace |].
    split.
    { apply NoDup_cons. split; [| exact Hnd].
      intros Hin. apply Hfresh in Hin as [_ Hin]. congruence. }
    split.
    { intros l Hl. apply elem_of_cons in Hl as [-> | Hl]; [exact Ha |].
      apply Hfresh in Hl as [Hl Hla]. by lookups_in Hl. }
    split.
    { intros l Hl. apply not_elem_of_cons in Hl as [Hla Hl].
      rewrite Hframe by assumption. by lookups. }
    split; [discriminate |]. intros _.
    exists a, ps. repeat split; assumption.
Qed.

(** Membership in a list written out with its first elements. *)
Ltac listed :=
  repeat first [ by (apply elem_of_cons; left)
               | apply elem_of_cons; right ];
  try assumption.

Lemma Forall2_copied_agree hb h h' ps copies :
  (forall l, l ∈ copy_locations copies -> h' !! l = h !! l) ->
  Forall2 (copied hb h) ps copies -> Forall2 (copied hb h') ps copies.
Proof.
  intros Hagree Hall. induction Hall as [|kp [pk cc] ps copies Hc Hall IH].
  - constructor.
  - cbn [copy_locations flat_map fst snd app] in Hagree.
    constructor.
    + destruct Hc as (sk & sc & Hk & Hch & Hpk & Hcc).
      exists sk, sc. cbn [fst snd] in *.
      split; [exact Hk |]. split; [exact Hch |].
      rewrite !Hagree; [done | |]; listed.
    + apply IH. intros l Hl. apply Hagree.
      listed.
Qed.

Lemma grpc_ssl_server_credentials_create_ex_spec
    root pairs n request reserved st r st' :
  live (heap st) root -> pairs_live (heap st) pairs n ->
  grpc_ssl_server_credentials_create_ex root pairs n request reserved st
    = Some (r, st') ->
  exists c a rc copies,
    r = Some c /\ reserved = None /\ trace st' = trace st /\
    heap st' !! c
    = Some (BSslServerCredentials
              {| server_base :=
                   {| server_type := GRPC_CHANNEL_CREDENTIALS_TYPE_SSL;
                      server_vtable := ssl_server_vtable;
                      server_refcount := 1 |};
                 server_config :=
                   {| pem_key_cert_pairs := a;
                      num_key_cert_pairs := n;
                      server_pem_root_certs := rc;
                      client_certificate_request := request |} |}) /\
    length copies = n /\
    NoDup (c :: option_to_list rc ++ option_to_list a
             ++ copy_locations copies) /\
    (forall l, l ∈ c :: option_to_list rc ++ option_to_list a
                   ++ copy_locations copies -> heap st !! l = None) /\
    (forall l, l ∉ c :: option_to_list rc ++ option_to_list a
                   ++ copy_locations copies ->
               heap st' !! l = heap st !! l) /\
    (root = None -> rc = None) /\
    (is_Some root ->
     exists d s, rc = Some d /\ caller_string (heap st) root = Some s /\
                 heap st' !! d = Some (BBytes (s ++ [x00]))) /\
    (n = 0%nat -> a = None) /\
    (n <> 0%nat ->
     exists l ps,
       a = Some l /\ pairs = Some ps /\ length (take n ps) = n /\
       heap st' !! l = Some (BTsiPairs (map cell_of copies)) /\
       Forall2 (copied (heap st) (heap st')) (take n ps) copies).
Proof.
  intros Hroot Hpairs H.
  unfold grpc_ssl_server_credentials_create_ex, ssl_build_server_config in H.
  inv_run. destruct reserved; [discriminate |].
  match goal with
  | Hf : heap st !! ?l = None |- _ => rename l into c; rename Hf into Hc
  end.
  destruct root as [root|]; cbn [live] in Hroot.
  - inv_create. destruct Hroot as [broot Hroot].
    match goal with
    | Hr : grpc_convert_grpc_to_tsi_cert_pairs _ _ _ = Some (?p, _) |- _ =>
        rename p into a;
        apply (grpc_convert_grpc_to_tsi_cert_pairs_spec (heap st)) in Hr
          as (copies & Hlen & Htrace & Hnd & Hfresh & Hframe & Hzero & Hpos)
    end.
    2: { intros l b Hl. cbn [heap with_heap]. heap_facts.
         rewrite lookup_insert_ne; [| intros ->; congruence].
         rewrite lookup_insert_ne; [| intros ->; congruence]. exact Hl. }
    2: exact Hpairs.
    cbn [heap trace with_heap] in *. heap_facts; try congruence.
    match goal with
    | Hd : heap st !! ?l = None, Hne : c <> ?l |- _ => rename l into d
    end.
    assert (Hnew : forall l, l ∈ option_to_list a ++ copy_locations copies ->
                             heap st !! l = None /\ l <> c /\ l <> d).
    { intros l Hl. apply Hfresh in Hl. heap_facts. done. }
    exists c, a, (Some d), copies. cbn [option_to_list app].
    split; [reflexivity |]. split; [reflexivity |]. split; [exact Htrace |].
    split; [apply lookup_insert_eq |]. split; [exact Hlen |].
    split.
    { apply NoDup_cons. split.
      - apply not_elem_of_cons. split; [congruence |].
        intros Hin. apply Hnew in Hin. tauto.
      - apply NoDup_cons. split; [| exact Hnd].
        intros Hin. apply Hnew in Hin. tauto. }
    split.
    { intros l Hl. apply elem_of_cons in Hl as [-> | Hl]; [exact Hc |].
      apply elem_of_cons in Hl as [-> | Hl]; [assumption |].
      by apply Hnew. }
    split.
    { intros l Hl. apply not_elem_of_cons in Hl as [Hlc Hl].
      apply not_elem_of_cons in Hl as [Hld Hl].
      rewrite lookup_insert_ne by congruence. rewrite Hframe by exact Hl.
      by lookups. }
    split; [discriminate |].
    split.
    { intros _. eexists d, _. split; [reflexivity |].
      split; [unfold caller_string, string_at; known_strings; reflexivity |].
      rewrite lookup_insert_ne by congruence. rewrite Hframe; [by lookups |].
      intros Hin. apply Hnew in Hin. tauto. }
    split; [exact Hzero |].
    intros Hn. destruct (Hpos Hn) as (l & ps & -> & -> & Hlen' & Harr & Hcopied).
    exists l, ps. split; [reflexivity |]. split; [reflexivity |].
    split; [exact Hlen' |].
    split.
    { rewrite lookup_insert_ne; [exact Harr |].
      intros <-. destruct (Hnew c) as (_ & Hcc & _); [| congruence].
      listed. }
    eapply Forall2_copied_agree; [| exact Hcopied].
    intros l' Hl'. apply lookup_insert_ne. intros <-.
    destruct (Hnew c) as (_ & Hcc & _); [| congruence].
    listed.
  - inv_create.
    match goal with
    | Hr : grpc_convert_grpc_to_tsi_cert_pairs _ _ _ = Some (?p, _) |- _ =>
        rename p into a;
        apply (grpc_convert_grpc_to_tsi_cert_pairs_spec (heap st)) in Hr
          as (copies & Hlen & Htrace & Hnd & Hfresh & Hframe & Hzero & Hpos)
    end.
    2: { intros l b Hl. cbn [heap with_heap].
         rewrite lookup_insert_ne; [| intros ->; congruence]. exact Hl. }
    2: exact Hpairs.
    cbn [heap trace with_heap] in *.
    assert (Hnew : forall l, l ∈ option_to_list a ++ copy_locations copies ->
                             heap st !! l = None /\ l <> c).
    { intros l Hl. apply Hfresh in Hl. heap_facts. done. }
    exists c, a, None, copies.
    cbn [option_to_list app server_pem_root_certs zero_ssl_server_config].
    split; [reflexivity |]. split; [reflexivity |]. split; [exact Htrace |].
    split; [apply lookup_insert_eq |]. split; [exact Hlen |].
    split.
    { apply NoDup_cons. split; [| exact Hnd].
      intros Hin. apply Hnew in Hin. tauto. }
    split.
    { intros l Hl. apply elem_of_cons in Hl as [-> | Hl]; [exact Hc |].
      by apply Hnew. }
    split.
    { intros l Hl. apply not_elem_of_cons in Hl as [Hlc Hl].
      rewrite lookup_insert_ne by congruence. rewrite Hframe by exact Hl.
      by lookups. }
    split; [reflexivity |].
    split; [intros [? Hs]; discriminate Hs |].
    split; [exact Hzero |].
    intros Hn. destruct (Hpos Hn) as (l & ps & -> & -> & Hlen' & Harr & Hcopied).
    exists l, ps. split; [reflexivity |]. split; [reflexivity |].
    split; [exact Hlen' |].
    split.
    { rewrite lookup_insert_ne; [exact Harr |].
      intros <-. destruct (Hnew c) as (_ & Hcc); [| congruence].
      listed. }
    eapply Forall2_copied_agree; [| exact Hcopied].
    intros l' Hl'. apply lookup_insert_ne. intros <-.
    destruct (Hnew c) as (_ & Hcc); [| congruence].
    listed.
Qed.

(** ** Server credentials: what the constructor asserts, stores and frees *)

Lemma convert_pairs_from_asserts ps tsi_pairs :
  forall count i st u st',
    convert_pairs_from (Some ps) tsi_pairs i count st = Some (u, st') ->
    length (take count (drop i ps)) = count /\
    Forall (fun kp => is_Some (private_key kp) /\ is_Some (cert_chain kp))
           (take count (drop i ps)).
Proof.
  induction count as [|count IH]; intros i st u st' H.
  - split; [reflexivity | constructor].
  - cbn [convert_pairs_from] in H.
    destruct (ps !! i) as [kp|] eqn:Hps; [| discriminate H].
    inv_run.
    match goal with
    | Hr : convert_pairs_from _ _ _ _ _ = Some _ |- _ =>
        apply IH in Hr as [Hlen Hall]
    end.
    rewrite (drop_S _ _ _ Hps). cbn [take length].
    split; [by rewrite Hlen |].
    constructor; [| exact Hall].
    split; [destruct (private_key kp) | destruct (cert_chain kp)];
      first [ discriminate | eexists; reflexivity ].
Qed.

(** X15.  The constructor of server credentials returns only when
    [reserved] is null and, for a count other than zero, the array of pairs
    is there with at least that many pairs, each of them with a private key
    and a certificate chain: every other call stops in an assertion or
    reads past the array. *)
Theorem grpc_ssl_server_credentials_create_ex_asserts
    (root : ptr) (pairs : option (list grpc_ssl_pem_key_cert_pair)) (n : nat)
    (request : grpc_ssl_client_certificate_request_type) (reserved : ptr)
    (st : State) (r : ptr) (st' : State) :
  grpc_ssl_server_credentials_create_ex root pairs n request reserved st
    = Some (r, st') ->
  reserved = None /\ is_Some r /\ pairs_whole pairs n.
Proof.
  intros H.
  unfold grpc_ssl_server_credentials_create_ex, ssl_build_server_config,
    grpc_convert_grpc_to_tsi_cert_pairs in H.
  inv_run. destruct reserved; [discriminate |].
  split; [reflexivity |]. split; [by eexists |].
  intros Hn. destruct n as [|n]; [by destruct Hn |].
  inv_run. destruct pairs as [ps|]; [| discriminate].
  match goal with
  | Hr : convert_pairs_from _ _ _ _ _ = Some _ |- _ =>
      apply convert_pairs_from_asserts in Hr as [Hlen Hall]
  end.
  change (drop 0 ps) with ps in Hlen, Hall. exists ps. split; [reflexivity |].
  split; [| exact Hall].
  rewrite length_take in Hlen. lia.
Qed.

Lemma grpc_ssl_server_credentials_create_ex_asserts_witness :
  exists r st',
    two_pairs_run = Some (r, st') /\
    is_Some r /\ pairs_whole two_pairs 2.
Proof.
  destruct two_pairs_run as [[r st']|] eqn:E;
    [| vm_compute in E; discriminate E].
  exists r, st'. split; [reflexivity |].
  exact (proj2 (grpc_ssl_server_credentials_create_ex_asserts
                  _ _ _ _ _ _ _ _ E)).
Defined.

Lemma caller_string_terminated h p s :
  caller_string h p = Some s -> c_str (s ++ [x00]) = Some s.
Proof.
  destruct p as [l|]; [| discriminate]. unfold caller_string, string_at.
  destruct (h !! l) as [[bs| | | | | | |]|]; try discriminate.
  apply c_str_terminated.
Qed.

Lemma Forall2_copied_read hb h ps copies :
  Forall2 (copied hb h) ps copies ->
  exists strs,
    length strs = length copies /\
    read_pairs hb ps = Some strs /\
    read_cells h (map cell_of copies) = Some strs.
Proof.
  induction 1 as [|kp [pk cc] ps copies Hc Hall (strs & Hlen & Hps & Hcells)].
  - exists []. done.
  - destruct Hc as (sk & sc & Hk & Hch & Hpk & Hcc). cbn [fst snd] in *.
    exists ((sk, sc) :: strs). cbn [length read_pairs read_cells map].
    split; [by rewrite Hlen |].
    rewrite Hk, Hch, Hps. split; [reflexivity |].
    unfold cell_of at 1 2.
    cbn [tsi_private_key tsi_cert_chain fst snd caller_string].
    unfold string_at. rewrite Hpk, Hcc, Hcells.
    rewrite (caller_string_terminated _ _ _ Hk).
    rewrite (caller_string_terminated _ _ _ Hch). reflexivity.
Qed.

Lemma read_cells_agree h h' copies :
  (forall l, l ∈ copy_locations copies -> h' !! l = h !! l) ->
  read_cells h' (map cell_of copies) = read_cells h (map cell_of copies).
Proof.
  induction copies as [|[pk cc] copies IH]; intros Hagree; [reflexivity |].
  cbn [copy_locations flat_map fst snd app] in Hagree.
  cbn [map read_cells]. unfold cell_of at 1 2 4 5.
  cbn [tsi_private_key tsi_cert_chain fst snd caller_string].
  unfold string_at. rewrite !Hagree by listed.
  rewrite IH; [reflexivity |]. intros l Hl. apply Hagree. listed.
Qed.

(** X16.  A server credential holds its own copies: what can be read back
    from it is the request mode, the root certificates and the strings of
    the first [n] pairs as the caller had them at the time of the call, in
    their order, and it stays so in every later heap that differs from the
    heap after the call only in blocks of the caller. *)
Theorem grpc_ssl_server_credentials_create_ex_copies
    (root : ptr) (pairs : option (list grpc_ssl_pem_key_cert_pair)) (n : nat)
    (request : grpc_ssl_client_certificate_request_type) (reserved : ptr)
    (st : State) (c : loc) (st' : State) :
  live (heap st) root -> pairs_live (heap st) pairs n ->
  grpc_ssl_server_credentials_create_ex root pairs n request reserved st
    = Some (Some c, st') ->
  exists stored,
    server_snapshot_of (heap st) root pairs n request = Some stored /\
    length (stored_server_pairs stored) = n /\
    forall h2 : gmap positive block,
      (forall l, heap st !! l = None -> h2 !! l = heap st' !! l) ->
      stored_server_config h2 c = Some stored.
Proof.
  intros Hroot Hpairs H.
  apply grpc_ssl_server_credentials_create_ex_spec in H
    as (c' & a & rc & copies & [= <-] & _ & _ & Hc & Hlen & _ & Hfresh & _
        & Hnone & Hsome & Hzero & Hpos); [| assumption | assumption].
  assert (Hrc : forall h2,
             (forall l, heap st !! l = None -> h2 !! l = heap st' !! l) ->
             match rc with
             | None => Some None
             | Some l => match string_at h2 l with
                         | Some s => Some (Some s)
                         | None => None
                         end
             end = Some (caller_string (heap st) root)).
  { intros h2 Hagree. destruct root as [root|].
    - destruct Hsome as (d & s & -> & Hs & Hd); [by eexists |].
      unfold string_at at 1. rewrite Hagree by (apply Hfresh; listed).
      rewrite Hd, (caller_string_terminated _ _ _ Hs), Hs. reflexivity.
    - rewrite (Hnone eq_refl). reflexivity. }
  unfold server_snapshot_of, stored_server_config.
  destruct (decide (n = 0%nat)) as [-> | Hn].
  - rewrite (Hzero eq_refl) in Hc. cbn [take read_pairs].
    eexists. split; [reflexivity |]. split; [reflexivity |].
    intros h2 Hagree. rewrite Hagree by (apply Hfresh; listed).
    rewrite Hc. cbn [server_config server_pem_root_certs pem_key_cert_pairs
                     num_key_cert_pairs client_certificate_request].
    rewrite (Hrc h2 Hagree). reflexivity.
  - destruct (Hpos Hn) as (l & ps & -> & -> & Hlen' & Harr & Hcopied).
    destruct (Forall2_copied_read _ _ _ _ Hcopied)
      as (strs & Hstrs & Hread & Hcells).
    change (default [] (Some ps)) with ps. rewrite Hread.
    eexists. split; [reflexivity |].
    cbn [stored_server_pairs]. split; [congruence |].
    intros h2 Hagree. cbn [option_to_list app] in Hfresh.
    rewrite Hagree by (apply Hfresh; listed).
    rewrite Hc. cbn [server_config server_pem_root_certs pem_key_cert_pairs
                     num_key_cert_pairs client_certificate_request].
    rewrite (Hrc h2 Hagree).
    rewrite Hagree by (apply Hfresh; destruct rc; listed).
    rewrite Harr.
    rewrite take_ge by (rewrite length_map; lia).
    rewrite (read_cells_agree (heap st')), Hcells; [reflexivity |].
    intros l' Hl'. apply Hagree, Hfresh. destruct rc; listed.
Qed.

Lemma grpc_ssl_server_credentials_create_ex_copies_witness :
  exists c st' stored,
    two_pairs_run = Some (Some c, st') /\
    server_snapshot_of (heap two_pairs_state) (Some 1%positive) two_pairs 2
      GRPC_SSL_REQUEST_CLIENT_CERTIFICATE_AND_VERIFY = Some stored /\
    length (stored_server_pairs stored) = 2%nat /\
    forall h2 : gmap positive block,
      (forall l, heap two_pairs_state !! l = None ->
                 h2 !! l = heap st' !! l) ->
      stored_server_config h2 c = Some stored.
Proof.
  destruct two_pairs_run as [[[c|] st']|] eqn:E;
    [| vm_compute in E; discriminate E | vm_compute in E; discriminate E].
  destruct (grpc_ssl_server_credentials_create_ex_copies
              (Some 1%positive) two_pairs 2
              GRPC_SSL_REQUEST_CLIENT_CERTIFICATE_AND_VERIFY None
              two_pairs_state c st') as (stored & Hsnap & Hlen & Hstored).
  - cbn [live]. eexists. reflexivity.
  - unfold pairs_live, two_pairs. cbn [take].
    repeat (apply Forall_cons; split;
            [cbn [live private_key cert_chain]; split; eexists; reflexivity |]).
    apply Forall_nil_2.
  - exact E.
  - exists c, st', stored. auto.
Defined.


Lemma Forall2_copied_live hb h ps copies :
  Forall2 (copied hb h) ps copies ->
  forall l, l ∈ copy_locations copies -> is_Some (h !! l).
Proof.
  induction 1 as [|kp [pk cc] ps copies Hc Hall IH]; intros l Hl.
  - by apply elem_of_nil in Hl.
  - destruct Hc as (sk & sc & _ & _ & Hpk & Hcc).
    cbn [copy_locations flat_map fst snd app] in Hl. cbn [fst snd] in *.
    apply elem_of_cons in Hl as [-> | Hl]; [by eexists |].
    apply elem_of_cons in Hl as [-> | Hl]; [by eexists |].
    by apply IH.
Qed.

Lemma ssl_server_destruct_spec c sc a rc copies st :
  heap st !! c = Some (BSslServerCredentials sc) ->
  pem_key_cert_pairs (server_config sc) = a ->
  num_key_cert_pairs (server_config sc) = length copies ->
  server_pem_root_certs (server_config sc) = rc ->
  NoDup (option_to_list rc ++ option_to_list a ++ copy_locations copies) ->
  (forall l, l ∈ option_to_list rc ++ copy_locations copies ->
             is_Some (heap st !! l)) ->
  (forall l, a = Some l ->
             heap st !! l = Some (BTsiPairs (map cell_of copies))) ->
  (a = None -> copies = []) ->
  exists st',
    ssl_server_destruct c st = Some (tt, st') /\
    trace st' = trace st /\
    (forall l, l ∈ option_to_list rc ++ option_to_list a
                   ++ copy_locations copies -> heap st' !! l = None) /\
    (forall l, l ∉ option_to_list rc ++ option_to_list a
                   ++ copy_locations copies -> heap st' !! l = heap st !! l).
Proof.
  intros Hc Ha Hn Hrc Hnd Hlive Harr Hnone.
  assert (Hpairs : exists st1,
             grpc_tsi_ssl_pem_key_cert_pairs_destroy a (length copies) st
             = Some (tt, st1) /\
             trace st1 = trace st /\
             (forall l, l ∈ option_to_list a ++ copy_locations copies ->
                        heap st1 !! l = None) /\
             (forall l, l ∉ option_to_list a ++ copy_locations copies ->
                        heap st1 !! l = heap st !! l)).
  { destruct a as [l|].
    - apply grpc_tsi_ssl_pem_key_cert_pairs_destroy_spec.
      + by apply Harr.
      + apply NoDup_app in Hnd as (_ & _ & Hnd). exact Hnd.
      + intros l' Hl'. apply Hlive. apply elem_of_app. by right.
    - rewrite (Hnone eq_refl). exists st. cbn.
      split; [reflexivity |]. split; [reflexivity |].
      split; [intros l Hl; by apply elem_of_nil in Hl | reflexivity]. }
  destruct Hpairs as (st1 & Hrun & Htrace & Hgone & Hframe).
  unfold ssl_server_destruct, bind, load. rewrite Hc, Ha, Hn, Hrc, Hrun.
  destruct rc as [d|]; cbn [option_to_list app] in *.
  - apply NoDup_cons in Hnd as [Hd Hnd].
    assert (Hlived : is_Some (heap st1 !! d)).
    { rewrite Hframe by exact Hd. apply Hlive. listed. }
    destruct Hlived as [bd Hbd].
    eexists. unfold gpr_free. rewrite Hbd. split; [reflexivity |].
    cbn [heap trace with_heap]. split; [exact Htrace |]. split.
    + intros l Hl. apply elem_of_cons in Hl as [-> | Hl];
        [apply lookup_delete_eq |].
      assert (l <> d) by (intros ->; contradiction).
      rewrite lookup_delete_ne by congruence. by apply Hgone.
    + intros l Hl. apply not_elem_of_cons in Hl as [Hld Hl].
      rewrite lookup_delete_ne by congruence. by apply Hframe.
  - exists st1. split; [reflexivity |]. split; [exact Htrace |].
    split; assumption.
Qed.

Lemma grpc_ssl_server_credentials_create_ex_destruct
    root pairs n request reserved st c st' :
  live (heap st) root -> pairs_live (heap st) pairs n ->
  grpc_ssl_server_credentials_create_ex root pairs n request reserved st
    = Some (Some c, st') ->
  exists a rc st'',
    heap st !! c = None /\
    heap st' !! c
    = Some (BSslServerCredentials
              {| server_base :=
                   {| server_type := GRPC_CHANNEL_CREDENTIALS_TYPE_SSL;
                      server_vtable := ssl_server_vtable;
                      server_refcount := 1 |};
                 server_config :=
                   {| pem_key_cert_pairs := a;
                      num_key_cert_pairs := n;
                      server_pem_root_certs := rc;
                      client_certificate_request := request |} |}) /\
    ssl_server_destruct c st' = Some (tt, st'') /\
    heap st'' !! c = heap st' !! c /\
    (forall l, l <> c -> heap st'' !! l = heap st !! l) /\
    trace st'' = trace st /\
    (is_Some root <-> is_Some rc) /\
    (n <> 0%nat <-> is_Some a) /\
    (forall l, l ∈ option_to_list rc ++ option_to_list a ->
               heap st !! l = None /\ l <> c).
Proof.
  intros Hroot Hpairs H.
  apply grpc_ssl_server_credentials_create_ex_spec in H
    as (c' & a & rc & copies & [= <-] & _ & Htrace & Hc & Hlen & Hnd & Hfresh
        & Hframe & Hnone & Hsome & Hzero & Hpos); [| assumption | assumption].
  pose proof Hnd as Hndc. apply NoDup_cons in Hnd as [Hcfresh Hnd].
  destruct (ssl_server_destruct_spec c _ a rc copies st' Hc)
    as (st'' & Hrun & Htrace' & Hgone & Hkept);
    try reflexivity; try (symmetry; exact Hlen); try exact Hnd.
  { intros l Hl. apply elem_of_app in Hl as [Hl | Hl].
    - destruct rc as [d|]; [| by apply elem_of_nil in Hl].
      apply elem_of_cons in Hl as [-> | Hl]; [| by apply elem_of_nil in Hl].
      destruct root as [root|]; [| by specialize (Hnone eq_refl)].
      destruct Hsome as (d' & s & [= <-] & _ & Hd); by eexists.
    - destruct (decide (n = 0%nat)) as [Hn | Hn].
      + rewrite Hn in Hlen. apply nil_length_inv in Hlen. subst copies.
        by apply elem_of_nil in Hl.
      + destruct (Hpos Hn) as (l' & ps & _ & _ & _ & _ & Hcopied).
        eapply Forall2_copied_live; eassumption. }
  { intros l ->. destruct (decide (n = 0%nat)) as [Hn | Hn].
    - by specialize (Hzero Hn).
    - destruct (Hpos Hn) as (l' & ps & [= <-] & _ & _ & Harr & _).
      exact Harr. }
  { intros ->. destruct (decide (n = 0%nat)) as [Hn | Hn].
    - rewrite Hn in Hlen. by apply nil_length_inv in Hlen.
    - by destruct (Hpos Hn) as (l' & ps & ? & _). }
  exists a, rc, st''. split; [apply Hfresh; listed |].
  split; [exact Hc |]. split; [exact Hrun |].
  split; [apply Hkept, Hcfresh |].
  split.
  { intros l Hlc.
    destruct (decide (l ∈ option_to_list rc ++ option_to_list a
                          ++ copy_locations copies)) as [Hl | Hl].
    + rewrite Hgone by exact Hl. symmetry. apply Hfresh.
      apply elem_of_cons. by right.
    + rewrite Hkept by exact Hl. apply Hframe.
      apply not_elem_of_cons. by split. }
  split; [congruence |].
  split.
  { split.
    - intros Hs. destruct (Hsome Hs) as (d & s & -> & _). by eexists.
    - intros [d ->]. destruct root as [root|]; [by eexists |].
      by specialize (Hnone eq_refl). }
  split.
  { split.
    - intros Hn. destruct (Hpos Hn) as (l & ps & -> & _). by eexists.
    - intros [l ->] Hn. by specialize (Hzero Hn). }
  intros l Hl. split.
  - apply Hfresh. apply elem_of_cons. right.
    rewrite app_assoc. apply elem_of_app. by left.
  - intros ->. apply Hcfresh. rewrite app_assoc. apply elem_of_app. by left.
Qed.

(** X17.  Server credentials give back what they took: the destruct hook
    of a credential fresh from the constructor returns and frees the copy of
    the root certificates, the array of pairs and the two strings of every
    pair, so that the heap is again the heap from before the constructor,
    with the credential structure itself, which the hook leaves to its
    caller, as the one block more; nothing is logged. *)
Theorem server_credentials_create_then_destruct
    (root : ptr) (pairs : option (list grpc_ssl_pem_key_cert_pair)) (n : nat)
    (request : grpc_ssl_client_certificate_request_type) (reserved : ptr)
    (st : State) (c : loc) (st' : State) :
  live (heap st) root -> pairs_live (heap st) pairs n ->
  grpc_ssl_server_credentials_create_ex root pairs n request reserved st
    = Some (Some c, st') ->
  exists sc st'',
    heap st !! c = None /\
    heap st' !! c = Some (BSslServerCredentials sc) /\
    ssl_server_destruct c st' = Some (tt, st'') /\
    heap st'' = <[c := BSslServerCredentials sc]> (heap st) /\
    trace st'' = trace st.
Proof.
  intros Hroot Hpairs H.
  destruct (grpc_ssl_server_credentials_create_ex_destruct
              _ _ _ _ _ _ _ _ Hroot Hpairs H)
    as (a & rc & st'' & Hfresh & Hc & Hrun & Hkept & Hback & Htrace & _).
  eexists _, st''. split; [exact Hfresh |]. split; [exact Hc |].
  split; [exact Hrun |]. split; [| exact Htrace].
  apply map_eq. intros l. destruct (decide (l = c)) as [-> | Hlc].
  - rewrite lookup_insert_eq, Hkept. exact Hc.
  - rewrite lookup_insert_ne by congruence. by apply Hback.
Qed.

Lemma server_credentials_create_then_destruct_witness :
  exists c st' sc st'',
    two_pairs_run = Some (Some c, st') /\
    heap two_pairs_state !! c = None /\
    heap st' !! c = Some (BSslServerCredentials sc) /\
    ssl_server_destruct c st' = Some (tt, st'') /\
    heap st'' = <[c := BSslServerCredentials sc]> (heap two_pairs_state) /\
    trace st'' = trace two_pairs_state.
Proof.
  destruct two_pairs_run as [[[c|] st']|] eqn:E;
    [| vm_compute in E; discriminate E | vm_compute in E; discriminate E].
  destruct (server_credentials_create_then_destruct
              (Some 1%positive) two_pairs 2
              GRPC_SSL_REQUEST_CLIENT_CERTIFICATE_AND_VERIFY None
              two_pairs_state c st') as (sc & st'' & Hrest).
  - cbn [live]. eexists. reflexivity.
  - unfold pairs_live, two_pairs. cbn [take].
    repeat (apply Forall_cons; split;
            [cbn [live private_key cert_chain]; split; eexists; reflexivity |]).
    apply Forall_nil_2.
  - exact E.
  - exists c, st', sc, st''. split; [reflexivity | exact Hrest].
Defined.

(** X18.  The destruct hook of server credentials can be run once only on
    a credential that owns something: after the first run a second one
    returns exactly when the credential was made without root certificates
    and with no pair, and frees a freed block otherwise. *)
Theorem ssl_server_destruct_twice
    (root : ptr) (pairs : option (list grpc_ssl_pem_key_cert_pair)) (n : nat)
    (request : grpc_ssl_client_certificate_request_type) (reserved : ptr)
    (st : State) (c : loc) (st' st'' : State) :
  live (heap st) root -> pairs_live (heap st) pairs n ->
  grpc_ssl_server_credentials_create_ex root pairs n request reserved st
    = Some (Some c, st') ->
  ssl_server_destruct c st' = Some (tt, st'') ->
  ssl_server_destruct c st'' = None <-> is_Some root \/ n <> 0%nat.
Proof.
  intros Hroot Hpairs H Hfirst.
  destruct (grpc_ssl_server_credentials_create_ex_destruct
              _ _ _ _ _ _ _ _ Hroot Hpairs H)
    as (a & rc & st2 & Hfresh & Hc & Hrun & Hkept & Hback & Htrace & Hrc & Ha
        & Hnew).
  rewrite Hrun in Hfirst. injection Hfirst as <-.
  rewrite Hc in Hkept.
  unfold ssl_server_destruct, bind at 1, load. rewrite Hkept.
  cbn [server_config pem_key_cert_pairs num_key_cert_pairs
       server_pem_root_certs].
  destruct a as [l|].
  - destruct (Hnew l) as [Hl Hlc]; [destruct rc; listed |].
    unfold grpc_tsi_ssl_pem_key_cert_pairs_destroy, bind, load.
    rewrite Hback, Hl by exact Hlc.
    split; [intros _; right; apply Ha; by eexists | reflexivity].
  - cbn [grpc_tsi_ssl_pem_key_cert_pairs_destroy]. unfold bind, ret.
    destruct rc as [d|].
    + destruct (Hnew d) as [Hd Hdc]; [listed |].
      unfold gpr_free. rewrite Hback, Hd by exact Hdc.
      split; [intros _; left; apply Hrc; by eexists | reflexivity].
    + cbn [gpr_free]. unfold ret.
      split; [discriminate |].
      intros [Hs | Hn].
      * apply Hrc in Hs as [? Hs]. discriminate Hs.
      * apply Ha in Hn as [? Hn]. discriminate Hn.
Qed.

Lemma ssl_server_destruct_twice_witness :
  exists c st' st'',
    two_pairs_run = Some (Some c, st') /\
    ssl_server_destruct c st' = Some (tt, st'') /\
    (ssl_server_destruct c st'' = None <->
     is_Some (Some 1%positive) \/ 2%nat <> 0%nat).
Proof.
  destruct two_pairs_run as [[[c|] st']|] eqn:E;
    [| vm_compute in E; discriminate E | vm_compute in E; discriminate E].
  assert (Hroot : live (heap two_pairs_state) (Some 1%positive))
    by (cbn [live]; eexists; reflexivity).
  assert (Hpairs : pairs_live (heap two_pairs_state) two_pairs 2).
  { unfold pairs_live, two_pairs. cbn [take].
    repeat (apply Forall_cons; split;
            [cbn [live private_key cert_chain]; split; eexists; reflexivity |]).
    apply Forall_nil_2. }
  destruct (grpc_ssl_server_credentials_create_ex_destruct
              _ _ _ _ _ _ _ _ Hroot Hpairs E)
    as (_ & _ & st'' & _ & _ & Hrun & _).
  exists c, st', st''. split; [reflexivity |]. split; [exact Hrun |].
  exact (ssl_server_destruct_twice _ _ _ _ _ _ _ _ _ Hroot Hpairs E Hrun).
Defined.

(** ** Server credentials: runs that return *)

Lemma update_tsi_pair_runs a i f kps kp st :
  heap st !! a = Some (BTsiPairs kps) -> kps !! i = Some kp ->
  update_tsi_pair (Some a) i f st
  = Some (tt, with_heap (<[a := BTsiPairs (<[i := f kp]> kps)]> (heap st)) st).
Proof.
  intros Ha Hi. unfold update_tsi_pair, bind, load, store.
  rewrite Ha, Hi, Ha. reflexivity.
Qed.

Lemma convert_pairs_from_runs hb ps a :
  forall count i st cells,
    (forall l bs, hb !! l = Some (BBytes bs) ->
                  heap st !! l = Some (BBytes bs)) ->
    heap st !! a = Some (BTsiPairs cells) ->
    (i + count <= length cells)%nat ->
    length (take count (drop i ps)) = count ->
    Forall (fun kp => is_Some (private_key kp) /\ is_Some (cert_chain kp))
           (take count (drop i ps)) ->
    Forall (fun kp => readable hb (private_key kp) /\
                      readable hb (cert_chain kp))
           (take count (drop i ps)) ->
    exists st', convert_pairs_from (Some ps) (Some a) i count st
                = Some (tt, st').
Proof.
  induction count as [|count IH];
    intros i st cells Hbase Ha Hbound Hlen Hwhole Hread.
  - exists st. reflexivity.
  - destruct (ps !! i) as [[k ch]|] eqn:Hps.
    2: { apply lookup_ge_None in Hps. rewrite drop_ge in Hlen by exact Hps.
         discriminate Hlen. }
    rewrite (drop_S _ _ _ Hps) in Hlen, Hwhole, Hread.
    cbn [take length] in Hlen, Hwhole, Hread.
    apply Forall_cons in Hwhole as [[Hk1 Hch1] Hwhole].
    cbn [private_key cert_chain] in Hk1, Hch1.
    destruct Hk1 as [k' ->], Hch1 as [ch' ->].
    apply Forall_cons in Hread as [[Hk Hch] Hread].
    cbn [private_key cert_chain readable] in Hk, Hch.
    destruct Hk as (kbs & ks & Hkb & Hks), Hch as (cbs & cs & Hcb & Hcs).
    pose proof (Hbase _ _ Hkb) as Hkb'. pose proof (Hbase _ _ Hcb) as Hcb'.
    destruct (lookup_lt_is_Some_2 cells i) as [cell Hcell]; [lia |].
    cbn [convert_pairs_from]. rewrite Hps.
    cbn [private_key cert_chain is_null negb]. unfold GPR_ASSERT.
    unfold bind at 1. unfold ret at 1. unfold bind at 1. unfold ret at 1.
    unfold bind at 1.
    destruct (gpr_strdup_runs ch' st) as (d1 & ? & ? & Hd1 & _ & _ & ->);
      [by exists cbs, cs |].
    unfold bind at 1.
    rewrite (update_tsi_pair_runs a i _ cells cell)
      by (cbn [heap with_heap]; first [ exact Hcell | lookups; exact Ha ]).
    unfold bind at 1.
    match goal with
    | |- context [gpr_strdup (Some k') ?s] =>
        destruct (gpr_strdup_runs k' s)
          as (d2 & ? & ? & Hd2 & _ & _ & ->)
    end;
      [exists kbs, ks; cbn [heap with_heap]; split;
       [lookups; exact Hkb' | exact Hks] |].
    unfold bind at 1.
    erewrite update_tsi_pair_runs;
      [| cbn [heap with_heap] in *; heap_facts; lookups; reflexivity
       | apply list_lookup_insert_eq; apply lookup_lt_Some in Hcell;
         exact Hcell].
    cbn [heap with_heap] in *. heap_facts.
    eapply IH with (cells := <[i := _]> (<[i := _]> cells));
      [| cbn [heap with_heap]; apply lookup_insert_eq
       | rewrite !length_insert; lia | congruence | exact Hwhole | exact Hread].
    intros l bs Hl. cbn [heap with_heap]. apply Hbase in Hl.
    by lookups.
Qed.

Lemma convert_pairs_from_keeps_live pairs tsi_pairs :
  forall count i st u st',
    convert_pairs_from pairs tsi_pairs i count st = Some (u, st') ->
    forall l, is_Some (heap st !! l) -> is_Some (heap st' !! l).
Proof.
  induction count as [|count IH]; intros i st u st' H l Hl.
  - cbn [convert_pairs_from] in H. inv_run. exact Hl.
  - cbn [convert_pairs_from] in H.
    destruct pairs as [ps|]; [| discriminate H].
    destruct (ps !! i) as [kp|]; [| discriminate H].
    destruct tsi_pairs as [a|].
    2: { inv_run. discriminate. }
    inv_create.
    repeat match goal with
    | H : update_tsi_pair (Some _) _ _ _ = Some _ |- _ =>
        apply update_tsi_pair_Some in H as (? & ? & ? & ? & ->);
        cbn [heap trace with_heap] in *
    | H : gpr_strdup (Some _) _ = Some _ |- _ =>
        apply gpr_strdup_Some in H as (? & ? & ? & ? & ? & -> & ? & ->);
        cbn [heap trace with_heap] in *
    end.
    match goal with
    | Hr : convert_pairs_from _ _ _ _ _ = Some _ |- _ =>
        apply (IH _ _ _ _ Hr)
    end.
    cbn [heap with_heap].
    repeat (apply lookup_insert_is_Some'; right). exact Hl.
Qed.

Lemma grpc_convert_grpc_to_tsi_cert_pairs_runs hb pairs n st :
  (forall l bs, hb !! l = Some (BBytes bs) ->
                heap st !! l = Some (BBytes bs)) ->
  pairs_whole pairs n -> pairs_readable hb pairs n ->
  exists a st',
    grpc_convert_grpc_to_tsi_cert_pairs pairs n st = Some (a, st') /\
    forall l, is_Some (heap st !! l) -> is_Some (heap st' !! l).
Proof.
  intros Hbase Hwhole Hread. unfold grpc_convert_grpc_to_tsi_cert_pairs.
  destruct n as [|n].
  - exists None, st. split; [reflexivity | auto].
  - destruct Hwhole as (ps & -> & Hn & Hwhole); [discriminate |].
    cbn [pairs_readable] in Hread.
    unfold GPR_ASSERT, bind at 1 2 3, ret at 1 2.
    destruct (alloc_runs (BTsiPairs (replicate (S n) zero_tsi_pair)) st)
      as (a & Ha & ->).
    destruct (convert_pairs_from_runs hb ps a (S n) 0
                (with_heap
                   (<[a := BTsiPairs (replicate (S n) zero_tsi_pair)]>
                      (heap st)) st)
                (replicate (S n) zero_tsi_pair))
      as (st' & Hrun).
    + intros l bs Hl. apply Hbase in Hl. cbn [heap with_heap]. by lookups.
    + cbn [heap with_heap]. apply lookup_insert_eq.
    + rewrite length_replicate. lia.
    + change (drop 0 ps) with ps. rewrite length_take. lia.
    + exact Hwhole.
    + exact Hread.
    + exists (Some a), st'. unfold bind at 1. rewrite Hrun.
      split; [reflexivity |]. intros l Hl.
      apply (convert_pairs_from_keeps_live _ _ _ _ _ _ _ Hrun).
      cbn [heap with_heap]. apply lookup_insert_is_Some'. by right.
Qed.

(** X19.  The constructor of server credentials returns a credential
    whenever [reserved] is null, the root certificates are absent or a
    readable C string, and the first [n] pairs are there, whole and
    readable: the assertions named in X15 are the only way it stops. *)
Theorem grpc_ssl_server_credentials_create_ex_returns
    (root : ptr) (pairs : option (list grpc_ssl_pem_key_cert_pair)) (n : nat)
    (request : grpc_ssl_client_certificate_request_type) (st : State) :
  readable (heap st) root ->
  pairs_whole pairs n -> pairs_readable (heap st) pairs n ->
  exists c st',
    grpc_ssl_server_credentials_create_ex root pairs n request None st
    = Some (Some c, st').
Proof.
  intros Hroot Hwhole Hread.
  unfold grpc_ssl_server_credentials_create_ex, ssl_build_server_config,
    GPR_ASSERT.
  cbn [is_null]. unfold bind at 1.
  destruct (alloc_runs (BSslServerCredentials zero_ssl_server_credentials) st)
    as (c & Hc & ->).
  unfold bind at 1. unfold ret at 1. unfold bind at 1. unfold bind at 1.
  set (st0 := with_heap _ st).
  assert (Hroot0 : exists rc st1,
             match root with
             | Some _ => gpr_strdup root
             | None => ret (server_pem_root_certs zero_ssl_server_config)
             end st0 = Some (rc, st1) /\
             is_Some (heap st1 !! c) /\
             forall l bs, heap st !! l = Some (BBytes bs) ->
                          heap st1 !! l = Some (BBytes bs)).
  { destruct root as [root|].
    - destruct Hroot as (bs & s & Hb & Hs).
      destruct (gpr_strdup_runs root st0) as (d & ? & ? & Hd & _ & _ & ->).
      { exists bs, s. subst st0. cbn [heap with_heap].
        split; [lookups; exact Hb | exact Hs]. }
      eexists _, _. split; [reflexivity |]. subst st0.
      cbn [heap with_heap] in *. heap_facts.
      split; [lookups; eauto |]. intros l bs' Hl. lookups. exact Hl.
    - eexists _, _. split; [reflexivity |]. subst st0. cbn [heap with_heap].
      split; [lookups; eauto |]. intros l bs' Hl. lookups. exact Hl. }
  destruct Hroot0 as (rc & st1 & -> & Hc1 & Hbase).
  destruct (grpc_convert_grpc_to_tsi_cert_pairs_runs (heap st) pairs n st1
              Hbase Hwhole Hread) as (a & st2 & Hrun & Hlive).
  unfold bind at 1. rewrite Hrun. unfold ret at 1.
  unfold bind at 1. rewrite store_runs by (apply Hlive, Hc1).
  eexists _, _. reflexivity.
Qed.

Lemma grpc_ssl_server_credentials_create_ex_returns_witness :
  exists c st', two_pairs_run = Some (Some c, st').
Proof.
  apply (grpc_ssl_server_credentials_create_ex_returns
           (Some 1%positive) two_pairs 2
           GRPC_SSL_REQUEST_CLIENT_CERTIFICATE_AND_VERIFY two_pairs_state).
  - eexists _, _. split; reflexivity.
  - intros _. eexists. split; [reflexivity |]. split; [cbn; lia |].
    cbn [take].
    repeat (apply Forall_cons; split;
            [cbn [private_key cert_chain]; split; eexists; reflexivity |]).
    apply Forall_nil_2.
  - unfold pairs_readable, two_pairs. cbn [take].
    repeat (apply Forall_cons; split;
            [cbn [readable private_key cert_chain]; split;
             eexists _, _; split; reflexivity |]).
    apply Forall_nil_2.
Defined.
